(** * Act2-1: the navigation and caching core of the quest bot

    A shallow embedding of [src/Act2-1.py]: the on-disk cache
    ([CacheManager]), the static game dataset and its per-map files, the
    location resolver and the route provider ([GameDataManager]) and the
    multi-hop navigator ([NostaleQuestBot.travel_to_map]).

    Python values that come out of [json.load] are modelled by [json]; the
    operations the script applies to them ([x["k"]], [x.get(k, d)],
    [len], truth value, [==], iteration) are written out with the
    exceptions they raise.  Everything outside the process (the disk, the
    routing site, the game client, the clock) is a record [world]; the
    methods are state transformers over it that end with a value or with
    an exception.

    What the model takes for granted:
    - folders can be created and a file that exists can be read; a file
      that cannot be parsed is [Garbage]; a save of a cache file can fail,
      and the world says how each save ends ([disk_save]);
    - file names are those of a POSIX file system: [/] separates the parts
      of a path, names that differ name different files, and no name is
      longer than the file system takes; the layout of the cache is
      modelled for types and keys that are plain names, which those built
      from integers are;
    - numbers in documents are integers, and text is ASCII: [lower] turns
      [A]..[Z] into [a]..[z] and keeps every other character, which is
      what [str.lower] does on such text only;
    - the addresses requested from the routing site are the well-formed
      ones [path_url] builds; what [requests] does with a text that is not
      an address is not modelled;
    - the game client answers with a map identifier and two coordinates,
      or raises;
    - [time.sleep] has no effect on the state;
    - [travel_to_map] calls itself without a bound of its own; here the
      depth of these calls is bounded by a [fuel] argument and a run that
      needs more ends with [OutOfFuel].  The interpreter ends such a run
      with [RecursionError] at its own limit, which is not modelled:
      nothing is concluded from [OutOfFuel] about the script. *)

From Stdlib Require Import ZArith String Ascii List Bool Lia.
From stdpp Require Import base gmap strings pretty list.

Set Warnings "-register-all".

Open Scope string_scope.
Open Scope Z_scope.
Open Scope list_scope.

(** ** JSON documents as Python values *)

(** What [json.load] returns.  Numbers are the integers the script handles
    (identifiers and coordinates); an object keeps its members in document
    order, [jlookup] returns the member of a key. *)
Inductive json : Type :=
| JNull
| JBool (b : bool)
| JNum (n : Z)
| JStr (s : string)
| JArr (items : list json)
| JObj (members : list (string * json)).

(** Exceptions of the Python run time that the script can meet.
    [NotModelled] marks a run that leaves what is modelled: it needs the
    text of a list or of a dict (see [py_str]), or a cache entry whose
    names are not plain file names (see [CacheManager.get_cache_file]); no
    run on integer identifiers meets it. *)
Inductive exn : Type :=
| KeyError
| IndexError
| TypeError
| AttributeError
| JSONDecodeError
| ConnectionError
| HTTPError (status_code : Z)
| OSError
| NotModelled.

Inductive result (A : Type) : Type :=
| Ok (a : A)
| Err (e : exn).
Arguments Ok {A} a.
Arguments Err {A} e.

Fixpoint jlookup (k : string) (members : list (string * json)) : option json :=
  match members with
  | [] => None
  | (k', v) :: rest => if String.eqb k k' then Some v else jlookup k rest
  end.

(** [bool(x)] *)
Definition truthy (x : json) : bool :=
  match x with
  | JNull => false
  | JBool b => b
  | JNum n => negb (n =? 0)
  | JStr s => negb (String.eqb s EmptyString)
  | JArr items => match items with [] => false | _ => true end
  | JObj members => match members with [] => false | _ => true end
  end.

(** [x == y]: [True] and [False] compare as 1 and 0, lists element-wise,
    dicts as sets of members. *)
Fixpoint py_eq (x y : json) {struct x} : bool :=
  match x, y with
  | JNull, JNull => true
  | JBool a, JBool b => Bool.eqb a b
  | JBool a, JNum n => Z.b2z a =? n
  | JNum m, JBool b => m =? Z.b2z b
  | JNum m, JNum n => m =? n
  | JStr s, JStr t => String.eqb s t
  | JArr xs, JArr ys =>
      (fix all2 (xs ys : list json) : bool :=
         match xs, ys with
         | [], [] => true
         | a :: xs', b :: ys' => py_eq a b && all2 xs' ys'
         | _, _ => false
         end) xs ys
  | JObj ms, JObj ns =>
      (length ms =? length ns)%nat &&
      (fix sub (ms : list (string * json)) : bool :=
         match ms with
         | [] => true
         | (k, v) :: ms' =>
             match jlookup k ns with
             | Some w => py_eq v w && sub ms'
             | None => false
             end
         end) ms
  | _, _ => false
  end.

(** [x[k]] for a string key. *)
Definition getitem (x : json) (k : string) : result json :=
  match x with
  | JObj members =>
      match jlookup k members with Some v => Ok v | None => Err KeyError end
  | _ => Err TypeError
  end.

Definition chars (s : string) : list json :=
  map (fun c => JStr (String c EmptyString)) (list_ascii_of_string s).

(** [x[i]] for a non-negative integer index. *)
Definition getindex (x : json) (i : nat) : result json :=
  match x with
  | JArr items =>
      match nth_error items i with Some v => Ok v | None => Err IndexError end
  | JStr s =>
      match nth_error (chars s) i with Some v => Ok v | None => Err IndexError end
  | JObj _ => Err KeyError
  | _ => Err TypeError
  end.

(** [x.get(k, d)] *)
Definition get_default (x : json) (k : string) (d : json) : result json :=
  match x with
  | JObj members =>
      match jlookup k members with Some v => Ok v | None => Ok d end
  | _ => Err AttributeError
  end.

(** [len(x)] *)
Definition py_len (x : json) : result nat :=
  match x with
  | JStr s => Ok (String.length s)
  | JArr items => Ok (length items)
  | JObj members => Ok (length members)
  | _ => Err TypeError
  end.

(** [for v in x] *)
Definition py_iter (x : json) : result (list json) :=
  match x with
  | JArr items => Ok items
  | JStr s => Ok (chars s)
  | JObj members => Ok (map (fun kv => JStr (fst kv)) members)
  | _ => Err TypeError
  end.

(** [f"{x}"].  The text of a list or of a dict is the interpreter's [repr],
    which is not spelled out here. *)
Definition py_str (x : json) : option string :=
  match x with
  | JNull => Some "None"
  | JBool true => Some "True"
  | JBool false => Some "False"
  | JNum n => Some (pretty n)
  | JStr s => Some s
  | _ => None
  end.

(** An [Optional[int]] attribute seen as a Python value. *)
Definition of_opt_int (o : option Z) : json :=
  match o with Some n => JNum n | None => JNull end.

(** ** The world outside the process *)

(** A file holds either the text of a JSON document or bytes on which
    [json.load] raises. *)
Inductive file_content : Type :=
| Doc (v : json)
| Garbage.

(** An answer of the routing site: the request itself fails, or a response
    with a status code and a body that is JSON or not. *)
Inductive http_reply : Type :=
| ConnectionFailed
| Response (status_code : Z) (body : option json).

(** How an attempt to save a file ends: the document is written; the file
    cannot be opened for writing and stays as it was; or the file is
    opened, which empties it, and the write breaks off, which leaves text
    that is not a JSON document. *)
Inductive save_result : Type :=
| Saved
| NotOpened
| Interrupted.

(** What the game client reports for the player. *)
Record player_obj : Type := PlayerObj {
  po_current_map_id : Z;
  po_x : Z;
  po_y : Z;
}.

(** Lines the script prints. *)
Inductive message : Type :=
| MsgCacheSaveError
| MsgDataLoadError
| MsgLoaded (what : string) (count : nat)
| MsgNoMapsFolder
| MsgMapReadError (map_id : json)
| MsgCookieExpired
| MsgNpcCached (npc_vnum : Z) (map_id : json)
| MsgNpcSearch (npc_vnum : Z)
| MsgNpcFound (npc_vnum : Z) (map_id : Z) (map_name : json)
| MsgNpcNotFound (npc_vnum : Z)
| MsgPathCached (from_map : option Z) (to_map : Z)
| MsgPathRemote (from_map : option Z) (to_map : Z)
| MsgPathFetched
| MsgError403
| MsgErrorHTTP (status_code : Z)
| MsgErrorPathfinding
| MsgPositionError
| MsgAlreadyThere (map_name : json)
| MsgNoRoute (map_name : json)
| MsgRoute (map_names : list string)
| MsgDesync (expected : json) (actual : option Z)
| MsgNoPortal (current_name next_name : json)
| MsgPortal (next_name x y : json)
| MsgWalkError
| MsgArrived (map_name : json)
| MsgWrongMap (actual : option Z) (target_map : Z).

(** Calls that leave the process, in the order they are made. *)
Inductive event : Type :=
| EvCacheRead (cache_type key : string)
| EvCacheWrite (cache_type key : string) (v : json)
| EvLoadMap (map_id : json)
| EvHttpGet (url : string)
| EvPoll
| EvWalk (x y : json)
| EvPrint (m : message).

(** The disk, the network, the client and the clock.  The answers of the
    network, of the client and of the clock, and the way a save of a cache
    file ends, are indexed by the number of calls made so far ([ticks]),
    so any behaviour in time is some [world]. *)
Record world : Type := World {
  cache_dirs : gset string;
  cache_files : gmap (string * string) file_content;
  data_files : gmap string file_content;
  maps_folder_exists : bool;
  map_files : gmap string file_content;
  net : nat -> string -> http_reply;
  client_player : nat -> option player_obj;
  client_walk : nat -> bool;
  clock : nat -> Z;
  disk_save : nat -> string * string -> save_result;
  ticks : nat;
  trace : list event;
}.

Definition emit (e : event) (w : world) : world :=
  World (cache_dirs w) (cache_files w) (data_files w) (maps_folder_exists w)
        (map_files w) (net w) (client_player w) (client_walk w) (clock w)
        (disk_save w) (ticks w) (trace w ++ [e]).

Definition tick (w : world) : world :=
  World (cache_dirs w) (cache_files w) (data_files w) (maps_folder_exists w)
        (map_files w) (net w) (client_player w) (client_walk w) (clock w)
        (disk_save w) (S (ticks w)) (trace w).

Definition with_cache_dirs (d : gset string) (w : world) : world :=
  World d (cache_files w) (data_files w) (maps_folder_exists w)
        (map_files w) (net w) (client_player w) (client_walk w) (clock w)
        (disk_save w) (ticks w) (trace w).

Definition with_cache_files (f : gmap (string * string) file_content)
    (w : world) : world :=
  World (cache_dirs w) f (data_files w) (maps_folder_exists w)
        (map_files w) (net w) (client_player w) (client_walk w) (clock w)
        (disk_save w) (ticks w) (trace w).

Definition with_maps_folder (w : world) : world :=
  World (cache_dirs w) (cache_files w) (data_files w) true
        (map_files w) (net w) (client_player w) (client_walk w) (clock w)
        (disk_save w) (ticks w) (trace w).

(** ** Computations *)

(** A method call ends with a value, with an exception, or does not end
    within the recursion depth it was given. *)
Inductive outcome (A : Type) : Type :=
| Ret (a : A)
| Raise (e : exn)
| OutOfFuel.
Arguments Ret {A} a.
Arguments Raise {A} e.
Arguments OutOfFuel {A}.

Definition M (A : Type) : Type := world -> outcome A * world.

Definition ret {A} (a : A) : M A := fun w => (Ret a, w).
Definition raise {A} (e : exn) : M A := fun w => (Raise e, w).
Definition out_of_fuel {A} : M A := fun w => (OutOfFuel, w).

Definition bind {A B} (c : M A) (k : A -> M B) : M B :=
  fun w =>
    match c w with
    | (Ret a, w') => k a w'
    | (Raise e, w') => (Raise e, w')
    | (OutOfFuel, w') => (OutOfFuel, w')
    end.

Notation "'let*' x ':=' c 'in' k" := (bind c (fun x => k))
  (at level 10, x pattern, c at level 100, k at level 200).
Notation "c ';;;' k" := (bind c (fun _ => k))
  (at level 100, k at level 200, right associativity).

(** A pure operation on a value, raising in the computation. *)
Definition lift {A} (r : result A) : M A :=
  match r with Ok a => ret a | Err e => raise e end.

Definition log (e : event) : M unit := fun w => (Ret tt, emit e w).
Definition print (m : message) : M unit := log (EvPrint m).

(** [try: c except Exception: h] *)
Definition try_except {A} (c : M A) (h : exn -> M A) : M A :=
  fun w =>
    match c w with
    | (Raise e, w') => h e w'
    | r => r
    end.

(** ** File names *)

(** A character of a file name: anything but the separator of paths and
    the character of code 0. *)
Definition name_char (c : ascii) : bool :=
  negb (Ascii.eqb c "/") && negb (Ascii.eqb c "000").

Fixpoint name_text (s : string) : bool :=
  match s with
  | EmptyString => true
  | String c s' => name_char c && name_text s'
  end.

(** The name of one folder: a text of such characters that is not empty
    and is neither [.] nor [..]. *)
Definition folder_name (s : string) : bool :=
  name_text s && negb (String.eqb s EmptyString)
  && negb (String.eqb s ".") && negb (String.eqb s "..").

(** ** CacheManager *)

Module CacheManager.

(** [get_cache_file]: one directory per cache type, created on first use,
    one file per key.  This is the layout when the type is the name of one
    folder and the key holds no separator, so that [{key}.json] is the
    name of one file in it.  With other names the path
    [cache/{type}/{key}.json] leaves the folder of the type, or [mkdir]
    and [open] fail on it; such calls are not modelled. *)
Definition get_cache_file (cache_type key : string) : M (string * string) :=
  if folder_name cache_type && name_text key then
    fun w =>
      (Ret (cache_type, key +:+ ".json"),
       with_cache_dirs ({[cache_type]} ∪ cache_dirs w) w)
  else raise NotModelled.

(** [get]: the document in the file, [None] when there is no file or when
    it does not parse. *)
Definition get (cache_type key : string) : M json :=
  let* cache_file := get_cache_file cache_type key in
  log (EvCacheRead cache_type key);;;
  fun w =>
    match cache_files w !! cache_file with
    | Some (Doc v) => (Ret v, w)
    | Some Garbage => (Ret JNull, w)
    | None => (Ret JNull, w)
    end.

(** [with open(cache_file, 'w') as f: json.dump(value, f)]: the disk is
    asked how the save ends. *)
Definition write_json (cache_file : string * string) (value : json) : M unit :=
  fun w =>
    match disk_save w (ticks w) cache_file with
    | Saved =>
        (Ret tt,
         tick (with_cache_files (<[cache_file := Doc value]> (cache_files w)) w))
    | NotOpened => (Raise OSError, tick w)
    | Interrupted =>
        (Raise OSError,
         tick (with_cache_files (<[cache_file := Garbage]> (cache_files w)) w))
    end.

(** [set]: the file is opened for writing and the value dumped into it;
    an exception of either step is reported and not raised again. *)
Definition set (cache_type key : string) (value : json) : M unit :=
  let* cache_file := get_cache_file cache_type key in
  log (EvCacheWrite cache_type key value);;;
  try_except (write_json cache_file value)
    (fun _ => print MsgCacheSaveError).

(** [exists] *)
Definition exists_ (cache_type key : string) : M bool :=
  let* cache_file := get_cache_file cache_type key in
  fun w => (Ret (bool_decide (is_Some (cache_files w !! cache_file))), w).

End CacheManager.

(** ** Configuration *)

(** Paths below [DATA_PATH], as the script sets them. *)
Definition NPCS_JSON : string := "monsters.json".
Definition MONSTERS_JSON : string := "monsters.json".
Definition MAPS_JSON : string := "maps.json".

Definition NOSHYDRA_BASE_URL : string := "https://www.noshydra.com".

(** ** CloudflareSession *)

Module CloudflareSession.

Record t : Type := Make {
  created_at : Z;
  cookie_lifetime : Z;
}.

(** [__init__]: the creation time is read from the clock, the cookie is
    taken to live 15 minutes. *)
Definition init : M t :=
  fun w => (Ret (Make (clock w (ticks w)) (15 * 60)), tick w).

Definition is_cookie_expired (self : t) : M bool :=
  fun w =>
    let elapsed := clock w (ticks w) - created_at self in
    (Ret (cookie_lifetime self <? elapsed), tick w).

(** [get]: a warning when the cookie is old, then the request, for a
    [url] that is a well-formed address. *)
Definition get (self : t) (url : string) : M (Z * option json) :=
  let* expired := is_cookie_expired self in
  (if expired then print MsgCookieExpired else ret tt);;;
  log (EvHttpGet url);;;
  fun w =>
    match net w (ticks w) url with
    | ConnectionFailed => (Raise ConnectionError, tick w)
    | Response status_code body => (Ret (status_code, body), tick w)
    end.

(** [response.raise_for_status()] *)
Definition raise_for_status (status_code : Z) : M unit :=
  if (400 <=? status_code) && (status_code <? 600)
  then raise (HTTPError status_code) else ret tt.

(** [response.json()] *)
Definition response_json (body : option json) : M json :=
  match body with Some v => ret v | None => raise JSONDecodeError end.

End CloudflareSession.

(** ** Strings *)

(** [s.lower()] on ASCII text: the letters [A]..[Z] are lowered, every
    other character is kept. *)
Definition lower_ascii (c : ascii) : ascii :=
  let n := nat_of_ascii c in
  if ((65 <=? n) && (n <=? 90))%nat then ascii_of_nat (n + 32) else c.

Fixpoint lower (s : string) : string :=
  match s with
  | EmptyString => EmptyString
  | String c s' => String (lower_ascii c) (lower s')
  end.

(** [needle in hay] *)
Fixpoint contains (needle hay : string) : bool :=
  String.prefix needle hay ||
  match hay with
  | EmptyString => false
  | String _ hay' => contains needle hay'
  end.

(** [x.lower()]: only strings have the method. *)
Definition py_lower (x : json) : result string :=
  match x with
  | JStr s => Ok (lower s)
  | _ => Err AttributeError
  end.

Definition rbind {A B} (r : result A) (k : A -> result B) : result B :=
  match r with Ok a => k a | Err e => Err e end.

Notation "'let+' x ':=' r 'in' k" := (rbind r (fun x => k))
  (at level 10, x pattern, r at level 100, k at level 200).

(** ** GameDataManager *)

Module GameDataManager.

(** The value of [self.npcs_data] and [self.monsters_data]: the dict the
    loader builds from a list of records (keys are the records' ["id"]),
    or whatever else the file held. *)
Inductive table : Type :=
| Dict (entries : list (json * json))
| Other (data : json).

Record t : Type := Make {
  cf_session : CloudflareSession.t;
  npcs_data : table;
  monsters_data : table;
  maps_info : json;
}.

(** [d[k] = v] on a dict in insertion order: a key already present keeps
    its place. *)
Fixpoint dict_set (k v : json) (d : list (json * json)) : list (json * json) :=
  match d with
  | [] => [(k, v)]
  | (k', v') :: rest =>
      if py_eq k' k then (k', v) :: rest else (k', v') :: dict_set k v rest
  end.

Definition hashable (k : json) : bool :=
  match k with JArr _ | JObj _ => false | _ => true end.

(** [{r["id"]: r for r in data}] *)
Fixpoint index_by_id (records : list json) (acc : list (json * json))
    : result (list (json * json)) :=
  match records with
  | [] => Ok acc
  | r :: rest =>
      let+ k := getitem r "id" in
      if hashable k then index_by_id rest (dict_set k r acc)
      else Err TypeError
  end.

(** The value bound by one of the first two blocks of [load_all_data]
    once the file is parsed. *)
Definition table_of (data : json) : result table :=
  match data with
  | JArr records => let+ d := index_by_id records [] in Ok (Dict d)
  | JObj members => Ok (Dict (map (fun kv => (JStr (fst kv), snd kv)) members))
  | _ => Ok (Other data)
  end.

(** [len(self.npcs_data)], evaluated by the line that reports the load. *)
Definition table_len (tb : table) : result nat :=
  match tb with
  | Dict entries => Ok (length entries)
  | Other data => py_len data
  end.

(** [json.load] on a file of the data folder. *)
Definition read_json (file : file_content) : M json :=
  match file with
  | Doc v => ret v
  | Garbage => raise JSONDecodeError
  end.

(** One block of [load_all_data]: [current] is kept when the file is
    missing. *)
Definition load_table (what path : string) (current : table) : M table :=
  fun w =>
    match data_files w !! path with
    | Some file =>
        (let* data := read_json file in
         let* tb := lift (table_of data) in
         let* n := lift (table_len tb) in
         print (MsgLoaded what n);;;
         ret tb) w
    | None => (Ret current, w)
    end.

Definition load_maps_info (current : json) : M json :=
  fun w =>
    match data_files w !! MAPS_JSON with
    | Some file =>
        (let* data := read_json file in
         let* n := lift (py_len data) in
         print (MsgLoaded "maps" n);;;
         ret data) w
    | None => (Ret current, w)
    end.

Definition check_maps_folder : M unit :=
  fun w =>
    if maps_folder_exists w
    then print (MsgLoaded "map files" (size (map_files w))) w
    else (print MsgNoMapsFolder;;; fun w => (Ret tt, with_maps_folder w)) w.

(** [load_all_data]: an exception is reported and raised again. *)
Definition load_all_data (self : t) : M t :=
  try_except
    (let* npcs := load_table "npcs" NPCS_JSON (npcs_data self) in
     let* monsters := load_table "monsters" MONSTERS_JSON (monsters_data self) in
     let* maps := load_maps_info (maps_info self) in
     check_maps_folder;;;
     ret (Make (cf_session self) npcs monsters maps))
    (fun e => print MsgDataLoadError;;; raise e).

(** [__init__] *)
Definition init (cf : CloudflareSession.t) : M t :=
  load_all_data (Make cf (Dict []) (Dict []) (JObj [])).

(** [tb.values()] *)
Definition values (tb : table) : result (list json) :=
  match tb with
  | Dict entries => Ok (map snd entries)
  | Other _ => Err AttributeError
  end.

(** [r.get("name", {}).get("fr", '').lower()] *)
Definition fr_name_lower (r : json) : result string :=
  let+ name := get_default r "name" (JObj []) in
  let+ fr := get_default name "fr" (JStr EmptyString) in
  py_lower fr.

(** [name_lower in r_name or r_name in name_lower] *)
Definition name_matches (name_lower r_name : string) : bool :=
  contains name_lower r_name || contains r_name name_lower.

(** The loop of the two name searches: the first record that matches. *)
Fixpoint find_by_name (name_lower : string) (records : list json) : result json :=
  match records with
  | [] => Ok JNull
  | r :: rest =>
      let+ r_name := fr_name_lower r in
      if name_matches name_lower r_name then Ok r
      else find_by_name name_lower rest
  end.

Definition find_npc_by_name (self : t) (name_pattern : string) : result json :=
  let name_lower := lower name_pattern in
  let+ records := values (npcs_data self) in
  find_by_name name_lower records.

Definition find_monster_by_name (self : t) (name_pattern : string) : result json :=
  let name_lower := lower name_pattern in
  let+ records := values (monsters_data self) in
  find_by_name name_lower records.

(** [get_map_name]: the French name in the metadata, ["Map {id}"]
    without one. *)
Definition get_map_name (self : t) (map_id : json) : result json :=
  match py_str map_id with
  | None => Err NotModelled
  | Some id =>
      let+ map_info := get_default (maps_info self) id (JObj []) in
      let+ name := get_default map_info "name" (JObj []) in
      get_default name "fr" (JStr ("Map " +:+ id))
  end.

Definition map_file_name (id : string) : string :=
  "c_map_" +:+ id +:+ ".json".

(** [load_map_file]: the parsed file, [None] without a file or when it
    does not parse. *)
Definition load_map_file (self : t) (map_id : json) : M json :=
  log (EvLoadMap map_id);;;
  match py_str map_id with
  | None => raise NotModelled
  | Some id =>
      fun w =>
        match map_files w !! map_file_name id with
        | Some (Doc v) => (Ret v, w)
        | Some Garbage => (print (MsgMapReadError map_id);;; ret JNull) w
        | None => (Ret JNull, w)
        end
  end.

(** The loop of [find_npc_on_map] over the placements of a map. *)
Fixpoint find_placement (npc_vnum : Z) (npcs : list json)
    : result (option (json * json)) :=
  match npcs with
  | [] => Ok None
  | npc :: rest =>
      let+ vnum := getitem npc "vnum" in
      if py_eq vnum (JNum npc_vnum) then
        let+ x := getitem npc "x" in
        let+ y := getitem npc "y" in
        Ok (Some (x, y))
      else find_placement npc_vnum rest
  end.

(** [find_npc_on_map]: the coordinates of the first placement of the
    entity on the map, [None] without a usable map file or placement. *)
Definition find_npc_on_map (self : t) (map_id : json) (npc_vnum : Z)
    : M (option (json * json)) :=
  let* map_data := load_map_file self map_id in
  if negb (truthy map_data) then ret None
  else
    let* npcs_field := lift (get_default map_data "npcs" (JArr [])) in
    let* npcs := lift (py_iter npcs_field) in
    lift (find_placement npc_vnum npcs).

(** The record stored for a located NPC. *)
Definition location_record (map_id npc_vnum : Z) (x y : json) : json :=
  JObj [("map_id", JNum map_id); ("npc_vnum", JNum npc_vnum);
        ("x", x); ("y", y)].

Definition npc_cache_key (npc_vnum : Z) : string :=
  "npc_location_" +:+ pretty npc_vnum.

(** The inner loop of [search_npc_location] over the placements of one
    map: [Some m] when the function returns [m] from inside the loop. *)
Fixpoint scan_npcs (self : t) (map_id npc_vnum : Z) (npcs : list json)
    : M (option json) :=
  match npcs with
  | [] => ret None
  | npc :: rest =>
      let* vnum := lift (getitem npc "vnum") in
      if py_eq vnum (JNum npc_vnum) then
        let* name := lift (get_map_name self (JNum map_id)) in
        print (MsgNpcFound npc_vnum map_id name);;;
        let* x := lift (getitem npc "x") in
        let* y := lift (getitem npc "y") in
        CacheManager.set "npc_locations" (npc_cache_key npc_vnum)
          (location_record map_id npc_vnum x y);;;
        ret (Some (JNum map_id))
      else scan_npcs self map_id npc_vnum rest
  end.

(** The outer loop, over the map identifiers still to visit. *)
Fixpoint scan_maps (self : t) (npc_vnum : Z) (map_ids : list Z) : M json :=
  match map_ids with
  | [] =>
      print (MsgNpcNotFound npc_vnum);;;
      ret JNull
  | map_id :: rest =>
      let* map_data := load_map_file self (JNum map_id) in
      if negb (truthy map_data) then scan_maps self npc_vnum rest
      else
        let* npcs_field := lift (get_default map_data "npcs" (JArr [])) in
        let* npcs := lift (py_iter npcs_field) in
        let* found := scan_npcs self map_id npc_vnum npcs in
        match found with
        | Some m => ret m
        | None => scan_maps self npc_vnum rest
        end
  end.

(** [range(1, 413)] *)
Definition map_range : list Z := seqZ 1 412.

Definition search_npc_location (self : t) (npc_vnum : Z) : M json :=
  let cache_key := npc_cache_key npc_vnum in
  let* cached := CacheManager.get "npc_locations" cache_key in
  if truthy cached then
    let* map_id := lift (getitem cached "map_id") in
    print (MsgNpcCached npc_vnum map_id);;;
    ret map_id
  else
    print (MsgNpcSearch npc_vnum);;;
    scan_maps self npc_vnum map_range.

(** [f"{from_map}"] for the map the bot believes it is on. *)
Definition str_map (m : option Z) : string :=
  match m with Some n => pretty n | None => "None" end.

Definition path_cache_key (from_map : option Z) (to_map : Z) : string :=
  str_map from_map +:+ "_to_" +:+ pretty to_map.

Definition path_url (from_map : option Z) (to_map : Z) : string :=
  NOSHYDRA_BASE_URL +:+ "/map-explorer/find/" +:+ str_map from_map
    +:+ "/" +:+ pretty to_map.

Definition route_record (from_map : option Z) (to_map : Z) (path : json) : json :=
  JObj [("from", of_opt_int from_map); ("to", JNum to_map); ("path", path)].

(** The body of the [try] of [get_pathfinding]. *)
Definition fetch_path (self : t) (from_map : option Z) (to_map : Z) : M json :=
  let url := path_url from_map to_map in
  let* response := CloudflareSession.get (cf_session self) url in
  CloudflareSession.raise_for_status (fst response);;;
  let* result := CloudflareSession.response_json (snd response) in
  let* path := lift (get_default result "path" (JArr [])) in
  CacheManager.set "pathfinding" (path_cache_key from_map to_map)
    (route_record from_map to_map path);;;
  print MsgPathFetched;;;
  ret path.

(** Its two handlers: [HTTPError] first, then any other exception. *)
Definition path_error (e : exn) : M json :=
  match e with
  | HTTPError status_code =>
      (if status_code =? 403 then print MsgError403
       else print (MsgErrorHTTP status_code));;;
      ret (JArr [])
  | _ =>
      print MsgErrorPathfinding;;;
      ret (JArr [])
  end.

Definition get_pathfinding (self : t) (from_map : option Z) (to_map : Z)
    : M json :=
  let cache_key := path_cache_key from_map to_map in
  let* cached := CacheManager.get "pathfinding" cache_key in
  if truthy cached then
    print (MsgPathCached from_map to_map);;;
    lift (get_default cached "path" (JArr []))
  else
    print (MsgPathRemote from_map to_map);;;
    try_except (fetch_path self from_map to_map) path_error.

(** The loop of [get_portal_to_next_map] over the portals of a map. *)
Fixpoint find_portal (next_map : json) (portals : list json)
    : result (option (json * json)) :=
  match portals with
  | [] => Ok None
  | portal :: rest =>
      let+ dest := getitem portal "destination_map_id" in
      if py_eq dest next_map then
        let+ x := getitem portal "source_map_x" in
        let+ y := getitem portal "source_map_y" in
        Ok (Some (x, y))
      else find_portal next_map rest
  end.

Definition get_portal_to_next_map (self : t) (current_map next_map : json)
    : M (option (json * json)) :=
  let* map_data := load_map_file self current_map in
  if negb (truthy map_data) then ret None
  else
    let* portals_field := lift (get_default map_data "portals" (JArr [])) in
    let* portals := lift (py_iter portals_field) in
    lift (find_portal next_map portals).

End GameDataManager.

(** ** NostaleQuestBot *)

Module NostaleQuestBot.

Record t : Type := Make {
  data : GameDataManager.t;
  current_map_id : option Z;
  current_x : Z;
  current_y : Z;
}.

(** [update_position]: the three attributes are overwritten with what
    the client reports; when the call raises the error is printed and they
    keep their values. *)
Definition update_position (self : t) : M t :=
  log EvPoll;;;
  fun w =>
    match client_player w (ticks w) with
    | Some p =>
        (Ret (Make (data self) (Some (po_current_map_id p)) (po_x p) (po_y p)),
         tick w)
    | None => (print MsgPositionError;;; ret self) (tick w)
    end.

(** [__init__] once the client is connected. *)
Definition init (data_manager : GameDataManager.t) : M t :=
  update_position (Make data_manager None 0 0).

(** [walk_to]: the walk command, the wait, a position update; when the
    command raises the rest is skipped. *)
Definition walk_to (self : t) (x y : json) : M t :=
  log (EvWalk x y);;;
  fun w =>
    if client_walk w (ticks w)
    then update_position self (tick w)
    else (print MsgWalkError;;; ret self) (tick w).

(** [self.current_map_id == m] *)
Definition on_map (self : t) (m : json) : bool :=
  py_eq (of_opt_int (current_map_id self)) m.

(** [' → '.join(names)]: every item must be a string. *)
Fixpoint join_names (names : list json) : result (list string) :=
  match names with
  | [] => Ok []
  | JStr s :: rest => let+ r := join_names rest in Ok (s :: r)
  | _ :: _ => Err TypeError
  end.

Fixpoint map_names (d : GameDataManager.t) (path : list json)
    : result (list json) :=
  match path with
  | [] => Ok []
  | m :: rest =>
      let+ n := GameDataManager.get_map_name d m in
      let+ r := map_names d rest in
      Ok (n :: r)
  end.

(** [not path or len(path) < 2] *)
Definition no_route (path : json) : result bool :=
  if negb (truthy path) then Ok true
  else let+ n := py_len path in Ok (n <? 2)%nat.

(** The test that ends [travel_to_map]. *)
Definition arrival (self : t) (target_map : Z) : M (bool * t) :=
  let* self := update_position self in
  if on_map self (JNum target_map) then
    let* name := lift (GameDataManager.get_map_name (data self) (JNum target_map)) in
    print (MsgArrived name);;;
    ret (true, self)
  else
    print (MsgWrongMap (current_map_id self) target_map);;;
    ret (false, self).

(** The loop of [travel_to_map] over the indices [i] still to visit;
    [again] is the call [self.travel_to_map(target_map)] it makes when
    the position does not match the hop. *)
Fixpoint hops (again : t -> M (bool * t)) (self : t) (target_map : Z)
    (path : json) (indices : list nat) : M (bool * t) :=
  match indices with
  | [] => arrival self target_map
  | i :: rest =>
      let* current := lift (getindex path i) in
      let* next_map := lift (getindex path (i + 1)) in
      let* self := update_position self in
      if negb (on_map self current) then
        print (MsgDesync current (current_map_id self));;;
        again self
      else
        let* portal_pos :=
          GameDataManager.get_portal_to_next_map (data self) current next_map in
        match portal_pos with
        | None =>
            let* a := lift (GameDataManager.get_map_name (data self) current) in
            let* b := lift (GameDataManager.get_map_name (data self) next_map) in
            print (MsgNoPortal a b);;;
            ret (false, self)
        | Some (x, y) =>
            let* b := lift (GameDataManager.get_map_name (data self) next_map) in
            print (MsgPortal b x y);;;
            let* self := walk_to self x y in
            hops again self target_map path rest
        end
  end.

(** [travel_to_map] from the point where the route is known. *)
Definition follow_route (again : t -> M (bool * t)) (self : t)
    (target_map : Z) (path : json) : M (bool * t) :=
  let* short := lift (no_route path) in
  if short then
    let* name := lift (GameDataManager.get_map_name (data self) (JNum target_map)) in
    print (MsgNoRoute name);;;
    ret (false, self)
  else
    let* stops := lift (py_iter path) in
    let* names := lift (map_names (data self) stops) in
    let* line := lift (join_names names) in
    print (MsgRoute line);;;
    let* n := lift (py_len path) in
    hops again self target_map path (seq 0 (n - 1)).

(** [travel_to_map]; [fuel] bounds the depth of the calls it makes to
    itself, and [OutOfFuel] stands for a run that needs more. *)
Fixpoint travel_to_map (fuel : nat) (self : t) (target_map : Z)
    : M (bool * t) :=
  match fuel with
  | O => out_of_fuel
  | S fuel' =>
      let* self := update_position self in
      if on_map self (JNum target_map) then
        let* name := lift (GameDataManager.get_map_name (data self) (JNum target_map)) in
        print (MsgAlreadyThere name);;;
        ret (true, self)
      else
        let* path :=
          GameDataManager.get_pathfinding (data self) (current_map_id self)
            target_map in
        follow_route (fun self' => travel_to_map fuel' self' target_map)
          self target_map path
  end.

End NostaleQuestBot.

(** ** Observations on the trace *)

(** The identifiers [load_map_file] was called with. *)
Fixpoint map_loads (t : list event) : list json :=
  match t with
  | [] => []
  | EvLoadMap map_id :: t' => map_id :: map_loads t'
  | _ :: t' => map_loads t'
  end.

(** The addresses requested from the routing site. *)
Fixpoint http_calls (t : list event) : list string :=
  match t with
  | [] => []
  | EvHttpGet url :: t' => url :: http_calls t'
  | _ :: t' => http_calls t'
  end.

(** The walk commands sent to the client. *)
Fixpoint walks (t : list event) : list (json * json) :=
  match t with
  | [] => []
  | EvWalk x y :: t' => (x, y) :: walks t'
  | _ :: t' => walks t'
  end.

(** The keys read in one cache type. *)
Fixpoint cache_reads (cache_type : string) (t : list event) : list string :=
  match t with
  | [] => []
  | EvCacheRead ty key :: t' =>
      if String.eqb ty cache_type then key :: cache_reads cache_type t'
      else cache_reads cache_type t'
  | _ :: t' => cache_reads cache_type t'
  end.

(** The lines printed. *)
Fixpoint printed (t : list event) : list message :=
  match t with
  | [] => []
  | EvPrint m :: t' => m :: printed t'
  | _ :: t' => printed t'
  end.

(** The file of a cache entry. *)
Definition cache_path (cache_type key : string) : string * string :=
  (cache_type, key +:+ ".json").

(** The value [get] returns for the files [f]. *)
Definition cached (f : gmap (string * string) file_content)
    (cache_type key : string) : json :=
  match f !! cache_path cache_type key with
  | Some (Doc v) => v
  | _ => JNull
  end.

(** The index a block of [load_all_data] binds when the data folder holds
    the files [f]: [cur] without the file, an exception when the file does
    not parse or cannot be indexed or counted. *)
Definition table_in (f : gmap string file_content) (path : string)
    (cur : GameDataManager.table) : outcome GameDataManager.table :=
  match f !! path with
  | Some (Doc v) =>
      match GameDataManager.table_of v with
      | Ok tb =>
          match GameDataManager.table_len tb with
          | Ok _ => Ret tb
          | Err e => Raise e
          end
      | Err e => Raise e
      end
  | Some Garbage => Raise JSONDecodeError
  | None => Ret cur
  end.

(** ** Text of identifiers *)

(** A digit or a minus sign. *)
Definition num_char (c : ascii) : bool :=
  let n := nat_of_ascii c in
  (((48 <=? n) && (n <=? 57)) || (n =? 45))%nat.

Fixpoint num_text (s : string) : bool :=
  match s with
  | EmptyString => true
  | String c s' => num_char c && num_text s'
  end.

(** No underscore in the text. *)
Fixpoint plain (s : string) : bool :=
  match s with
  | EmptyString => true
  | String c s' => negb (Ascii.eqb c "_") && plain s'
  end.

(** The warning [CloudflareSession.get] prints before a request made in
    [w] when the cookie is older than its lifetime. *)
Definition cookie_warning (cf : CloudflareSession.t) (w : world) : list event :=
  if CloudflareSession.cookie_lifetime cf
     <? clock w (ticks w) - CloudflareSession.created_at cf
  then [EvPrint MsgCookieExpired] else [].

(** The answer of the routing site to the request of a [get_pathfinding]
    called in [w]: the clock is read first, the request comes second. *)
Definition reply_at (w : world) (url : string) : http_reply :=
  net w (S (ticks w)) url.

(** The ways a routing request fails, with the line reported for each: a
    403 status, another error status, no connection, a body that is not
    JSON, a body [.get] cannot be called on. *)
Inductive failure : http_reply -> message -> Prop :=
| failure_403 (body : option json) :
    failure (Response 403 body) MsgError403
| failure_status (c : Z) (body : option json) :
    400 <= c < 600 -> c <> 403 ->
    failure (Response c body) (MsgErrorHTTP c)
| failure_connection :
    failure ConnectionFailed MsgErrorPathfinding
| failure_not_json (c : Z) :
    ~ 400 <= c < 600 ->
    failure (Response c None) MsgErrorPathfinding
| failure_not_object (c : Z) (b : json) (e : exn) :
    ~ 400 <= c < 600 ->
    get_default b "path" (JArr []) = Err e ->
    failure (Response c (Some b)) MsgErrorPathfinding.

(** ** Worlds and records used as examples *)

(** Nothing on disk, a disk that takes every save, no network, a client
    that does not answer. *)
Definition empty_world : world :=
  World ∅ ∅ ∅ true ∅ (fun _ _ => ConnectionFailed) (fun _ => None)
        (fun _ => false) (fun _ => 0) (fun _ _ => Saved) O [].

Definition with_data_files (f : gmap string file_content) (w : world) : world :=
  World (cache_dirs w) (cache_files w) f (maps_folder_exists w)
        (map_files w) (net w) (client_player w) (client_walk w) (clock w)
        (disk_save w) (ticks w) (trace w).

Definition with_map_files (f : gmap string file_content) (w : world) : world :=
  World (cache_dirs w) (cache_files w) (data_files w) (maps_folder_exists w)
        f (net w) (client_player w) (client_walk w) (clock w)
        (disk_save w) (ticks w) (trace w).

Definition with_net (n : nat -> string -> http_reply) (w : world) : world :=
  World (cache_dirs w) (cache_files w) (data_files w) (maps_folder_exists w)
        (map_files w) n (client_player w) (client_walk w) (clock w)
        (disk_save w) (ticks w) (trace w).

Definition with_disk (d : nat -> string * string -> save_result)
    (w : world) : world :=
  World (cache_dirs w) (cache_files w) (data_files w) (maps_folder_exists w)
        (map_files w) (net w) (client_player w) (client_walk w) (clock w)
        d (ticks w) (trace w).

Definition with_client (p : nat -> option player_obj) (k : nat -> bool)
    (w : world) : world :=
  World (cache_dirs w) (cache_files w) (data_files w) (maps_folder_exists w)
        (map_files w) (net w) p k (clock w) (disk_save w) (ticks w) (trace w).

Definition koaren : json :=
  JObj [("id", JNum 4013); ("name", JObj [("fr", JStr "Chef Koaren")])].

Definition slime : json :=
  JObj [("id", JNum 333); ("name", JObj [("fr", JStr "Slime")])].

(** A data folder with the three files the script asks for: one NPC in
    [npcs.json], one monster in [monsters.json], no map metadata. *)
Definition quest_data_world : world :=
  with_data_files
    (<["npcs.json" := Doc (JArr [koaren])]>
       (<["monsters.json" := Doc (JArr [slime])]>
          (<["maps.json" := Doc (JObj [])]> ∅)))
    empty_world.

Definition session0 : CloudflareSession.t := CloudflareSession.Make 0 (15 * 60).

(** A data manager without any data. *)
Definition no_data : GameDataManager.t :=
  GameDataManager.Make session0 (GameDataManager.Dict [])
    (GameDataManager.Dict []) (JObj []).

(** A routing site that answers 403 to every request. *)
Definition forbidden_world : world :=
  with_net (fun _ _ => Response 403 None) empty_world.

(** The bot before its first position update. *)
Definition bot0 : NostaleQuestBot.t := NostaleQuestBot.Make no_data None 0 0.

(** A route over three maps. *)
Definition route_1_2_3 : json := JArr [JNum 1; JNum 2; JNum 3].

(** The route from 1 to 3 is cached; the client reports map 1 at the first
    poll and map 3 at every later one. *)
Definition desync_world : world :=
  with_client
    (fun n => Some (PlayerObj (match n with O => 1 | _ => 3 end) 0 0))
    (fun _ => true)
    (with_cache_files
       {[ cache_path "pathfinding" "1_to_3" :=
            Doc (GameDataManager.route_record (Some 1) 3 route_1_2_3) ]}
       empty_world).


(** A client that always reports the player on map [m]. *)
Definition standing_world (m : Z) : world :=
  with_client (fun _ => Some (PlayerObj m 0 0)) (fun _ => true) empty_world.

(** ** What the claims speak of *)

(** A cache type and a key whose entry is the file [{key}.json] of the
    folder [{type}]: the type is the name of one folder, the key holds no
    separator, and both names have a length file systems take (255
    characters, the suffix included). *)
Definition entry_names (cache_type key : string) : bool :=
  folder_name cache_type && name_text key
  && (String.length cache_type <=? 255)%nat
  && (String.length key <=? 250)%nat.

(** The document [load_map_file] returns for an integer identifier. *)
Definition map_document (w : world) (map_id : Z) : json :=
  match map_files w !! GameDataManager.map_file_name (pretty map_id) with
  | Some (Doc v) => v
  | _ => JNull
  end.

(** The placement [npc] can be read and is ([b = true]) or is not
    ([b = false]) a placement of the entity [v]. *)
Definition placed (v : Z) (b : bool) (npc : json) : Prop :=
  exists vnum, getitem npc "vnum" = Ok vnum /\ py_eq vnum (JNum v) = b.

(** A map document without any placement of [v]: no usable document, or a
    placement list in which no entry is one of [v]. *)
Definition lacks_npc (v : Z) (doc : json) : Prop :=
  truthy doc = false \/
  exists npcs,
    get_default doc "npcs" (JArr []) = Ok (JArr npcs) /\
    Forall (placed v false) npcs.

(** A map document whose first placement of [v] is at [(x, y)]. *)
Definition first_npc_at (v : Z) (doc x y : json) : Prop :=
  truthy doc = true /\
  exists before npc after,
    get_default doc "npcs" (JArr []) = Ok (JArr (before ++ npc :: after)) /\
    Forall (placed v false) before /\
    placed v true npc /\
    getitem npc "x" = Ok x /\
    getitem npc "y" = Ok y.

(** The world after some calls that changed no file and loaded the maps
    [loads]. *)
Definition later (w w' : world) (loads : list json) : Prop :=
  cache_files w' = cache_files w /\
  map_files w' = map_files w /\
  map_loads (trace w') = map_loads (trace w) ++ loads.

(** An event that is not a walk command. *)
Definition quiet (e : event) : Prop :=
  match e with EvWalk _ _ => False | _ => True end.

(** A computation that only appends events satisfying [P] to the trace. *)
Definition adds (P : event -> Prop) {A : Type} (c : M A) : Prop :=
  forall w, exists t, trace (snd (c w)) = trace w ++ t /\ Forall P t.


(** The end-to-end scenario: entity 4013 stands on map 20 at (45, 60),
    next to another entity, and on no other map. *)
Definition scenario_world : world :=
  with_map_files
    (<["c_map_20.json" :=
         Doc (JObj [("npcs",
                     JArr [JObj [("vnum", JNum 12); ("x", JNum 3); ("y", JNum 4)];
                           JObj [("vnum", JNum 4013); ("x", JNum 45); ("y", JNum 60)]]);
                    ("portals", JArr [])])]>
       (<["c_map_7.json" :=
            Doc (JObj [("npcs",
                        JArr [JObj [("vnum", JNum 12); ("x", JNum 1); ("y", JNum 1)]])])]>
          ∅))
    empty_world.


(** A record whose French display name is absent or empty. *)
Definition no_display_name (r : json) : Prop :=
  exists members, r = JObj members /\
    (jlookup "name" members = None \/
     exists names, jlookup "name" members = Some (JObj names) /\
       (jlookup "fr" names = None \/ jlookup "fr" names = Some (JStr EmptyString))).

(** ** What the further properties speak of *)

(** A metadata entry [get_map_name] can read: an object whose ["name"]
    member, when present, is an object. *)
Definition entry_ok (e : json) : bool :=
  match e with
  | JObj members =>
      match jlookup "name" members with
      | None | Some (JObj _) => true
      | Some _ => false
      end
  | _ => false
  end.

(** Keys of a dict that differ pairwise, an earlier one from a later one. *)
Definition distinct_keys (d : list (json * json)) : Prop :=
  ForallOrdPairs (fun a b => py_eq (fst a) (fst b) = false) d.

(** A record the name search can read and that the lowered pattern [p]
    does not match. *)
Definition unmatched (p : string) (r : json) : Prop :=
  exists s, GameDataManager.fr_name_lower r = Ok s /\
            GameDataManager.name_matches p s = false.

(** An entry of the index built from [records]: its value is one of the
    records, and its key equals the value's ["id"]. *)
Definition indexed (records : list json) (kv : json * json) : Prop :=
  In (snd kv) records /\
  exists k, getitem (snd kv) "id" = Ok k /\ py_eq (fst kv) k = true.

(** A portal that can be read and leads ([b = true]) or does not lead
    ([b = false]) to the map [next_map]. *)
Definition leads_to (next_map : json) (b : bool) (portal : json) : Prop :=
  exists dest,
    getitem portal "destination_map_id" = Ok dest /\ py_eq dest next_map = b.

(** How the save of a route ends, for the [get_pathfinding] called in
    [w]: the clock and the site are asked before the disk. *)
Definition route_save (w : world) (from_map : option Z) (to_map : Z)
    : save_result :=
  disk_save w (S (S (ticks w)))
    (cache_path "pathfinding" (GameDataManager.path_cache_key from_map to_map)).

(** A computation that changes no cache file outside the set [own] of
    files. *)
Definition confined (own : string * string -> Prop) {A : Type} (c : M A) : Prop :=
  forall w q, ~ own q -> cache_files (snd (c w)) !! q = cache_files w !! q.

(** ** Further worlds used as examples *)

(** A cache with one unparseable file. *)
Definition corrupt_world : world :=
  with_cache_files {[ cache_path "pathfinding" "1_to_2" := Garbage ]} empty_world.

(** A data folder whose [monsters.json] does not parse. *)
Definition broken_data_world : world :=
  with_data_files {[ "monsters.json" := Garbage ]} empty_world.

(** Map 1 with a portal to map 5 and, after it, two portals to map 2. *)
Definition portal_world : world :=
  with_map_files
    {[ "c_map_1.json" :=
         Doc (JObj [("portals",
                     JArr [JObj [("destination_map_id", JNum 5);
                                 ("source_map_x", JNum 9); ("source_map_y", JNum 9)];
                           JObj [("destination_map_id", JNum 2);
                                 ("source_map_x", JNum 10); ("source_map_y", JNum 20)];
                           JObj [("destination_map_id", JNum 2);
                                 ("source_map_x", JNum 30); ("source_map_y", JNum 40)]])]) ]}
    empty_world.

(** A routing site that answers every request with the route 1, 2, 3. *)
Definition routing_world : world :=
  with_net (fun _ _ => Response 200 (Some (JObj [("path", route_1_2_3)])))
    empty_world.

(** The bot stands on map 1, which has a portal to map 2 at (10, 20); the
    route from 1 to 2 is cached; after the first two polls the client
    reports map 2. *)
Definition one_hop_world : world :=
  with_client
    (fun n => Some (PlayerObj (if (n <? 2)%nat then 1 else 2) 0 0))
    (fun _ => true)
    (with_cache_files
       {[ cache_path "pathfinding" "1_to_2" :=
            Doc (GameDataManager.route_record (Some 1) 2 (JArr [JNum 1; JNum 2])) ]}
       portal_world).

(** Map 1 holds a placement without ["vnum"]; entity 4013 stands on
    map 2. *)
Definition unreadable_world : world :=
  with_map_files
    (<["c_map_1.json" :=
         Doc (JObj [("npcs", JArr [JObj [("x", JNum 1); ("y", JNum 1)]])])]>
       (<["c_map_2.json" :=
            Doc (JObj [("npcs",
                        JArr [JObj [("vnum", JNum 4013); ("x", JNum 45);
                                    ("y", JNum 60)]])])]> ∅))
    empty_world.

(** The cache holds a list where a route record is expected. *)
Definition list_cached_world : world :=
  with_cache_files
    {[ cache_path "pathfinding" "1_to_3" := Doc route_1_2_3 ]} empty_world.

(** The world [w] with a disk that takes no save: no cache file can be
    opened for writing. *)
Definition no_save (w : world) : world :=
  with_disk (fun _ _ => NotOpened) w.


(** ** The cache *)

Ltac wsimpl :=
  cbn [fst snd cache_dirs cache_files data_files maps_folder_exists map_files
       net client_player client_walk clock disk_save ticks trace
       emit tick with_cache_dirs with_cache_files with_maps_folder] in *.

Ltac mrun :=
  cbv [bind ret raise lift log print out_of_fuel try_except] in *.

Lemma bind_ret_inv {A B : Type} (c : M A) (k : A -> M B) (w w' : world) (b : B) :
  bind c k w = (Ret b, w') ->
  exists a w1, c w = (Ret a, w1) /\ k a w1 = (Ret b, w').
Proof.
  unfold bind. destruct (c w) as [[a|e|] w1]; intros H; try discriminate H.
  exists a, w1. split; [reflexivity | exact H].
Qed.

Lemma bind_eq {A B : Type} (c : M A) (k : A -> M B) (w w1 : world) (a : A) :
  c w = (Ret a, w1) -> bind c k w = k a w1.
Proof. intros H. unfold bind. rewrite H. reflexivity. Qed.

Lemma try_ret_inv {A : Type} (c : M A) (h : exn -> M A) (w w' : world) (a : A) :
  try_except c h w = (Ret a, w') ->
  c w = (Ret a, w') \/
  exists e w1, c w = (Raise e, w1) /\ h e w1 = (Ret a, w').
Proof.
  unfold try_except. destruct (c w) as [[a'|e|] w1]; intros H.
  - left. exact H.
  - right. exists e, w1. split; [reflexivity | exact H].
  - discriminate H.
Qed.

Lemma get_eq (cache_type key : string) (w : world) :
  folder_name cache_type = true -> name_text key = true ->
  CacheManager.get cache_type key w =
  (Ret (cached (cache_files w) cache_type key),
   emit (EvCacheRead cache_type key)
        (with_cache_dirs ({[cache_type]} ∪ cache_dirs w) w)).
Proof.
  intros Hty Hkey.
  unfold CacheManager.get, CacheManager.get_cache_file, cached, cache_path.
  rewrite Hty, Hkey. cbn [andb]. mrun. wsimpl.
  destruct (cache_files w !! (cache_type, key +:+ ".json")) as [[v|]|];
    reflexivity.
Qed.

Lemma exists_eq (cache_type key : string) (w : world) :
  folder_name cache_type = true -> name_text key = true ->
  CacheManager.exists_ cache_type key w =
  (Ret (bool_decide (is_Some (cache_files w !! cache_path cache_type key))),
   with_cache_dirs ({[cache_type]} ∪ cache_dirs w) w).
Proof.
  intros Hty Hkey. unfold CacheManager.exists_, CacheManager.get_cache_file.
  rewrite Hty, Hkey. reflexivity.
Qed.

(** What a [set] leaves, for each way the save can end. *)
Lemma set_eq (cache_type key : string) (v : json) (w : world) :
  folder_name cache_type = true -> name_text key = true ->
  CacheManager.set cache_type key v w =
  (Ret tt,
   let w0 := emit (EvCacheWrite cache_type key v)
               (with_cache_dirs ({[cache_type]} ∪ cache_dirs w) w) in
   match disk_save w (ticks w) (cache_path cache_type key) with
   | Saved =>
       tick (with_cache_files
               (<[cache_path cache_type key := Doc v]> (cache_files w)) w0)
   | NotOpened => emit (EvPrint MsgCacheSaveError) (tick w0)
   | Interrupted =>
       emit (EvPrint MsgCacheSaveError)
         (tick (with_cache_files
                  (<[cache_path cache_type key := Garbage]> (cache_files w)) w0))
   end).
Proof.
  intros Hty Hkey.
  unfold CacheManager.set, CacheManager.get_cache_file, CacheManager.write_json,
    cache_path.
  rewrite Hty, Hkey. cbn [andb]. mrun. wsimpl.
  destruct (disk_save w (ticks w) (cache_type, key +:+ ".json")); reflexivity.
Qed.

Lemma set_saved (cache_type key : string) (v : json) (w : world) :
  folder_name cache_type = true -> name_text key = true ->
  disk_save w (ticks w) (cache_path cache_type key) = Saved ->
  CacheManager.set cache_type key v w =
  (Ret tt,
   tick (with_cache_files
           (<[cache_path cache_type key := Doc v]> (cache_files w))
           (emit (EvCacheWrite cache_type key v)
              (with_cache_dirs ({[cache_type]} ∪ cache_dirs w) w)))).
Proof.
  intros Hty Hkey Hs. rewrite (set_eq _ _ _ _ Hty Hkey). cbv zeta.
  rewrite Hs. reflexivity.
Qed.

(** A [set] changes no file but the one of its entry, however it ends. *)
Lemma set_other_files (cache_type key : string) (v : json) (w : world)
    (q : string * string) :
  q <> cache_path cache_type key ->
  cache_files (snd (CacheManager.set cache_type key v w)) !! q =
  cache_files w !! q.
Proof.
  intros Hq. unfold CacheManager.set, CacheManager.get_cache_file,
    CacheManager.write_json.
  destruct (folder_name cache_type && name_text key); [|reflexivity].
  mrun. wsimpl. fold (cache_path cache_type key).
  destruct (disk_save w (ticks w) (cache_path cache_type key)); wsimpl;
    rewrite ?lookup_insert_ne by congruence; reflexivity.
Qed.

Lemma entry_names_plain (cache_type key : string) :
  entry_names cache_type key = true ->
  folder_name cache_type = true /\ name_text key = true.
Proof.
  unfold entry_names. intros [[[H1 H2]%andb_true_iff _]%andb_true_iff _]%andb_true_iff.
  auto.
Qed.

Lemma cached_insert (f : gmap (string * string) file_content)
    (cache_type key : string) (v : json) :
  cached (<[cache_path cache_type key := Doc v]> f) cache_type key = v.
Proof. unfold cached. rewrite lookup_insert_eq. reflexivity. Qed.

(** C5. For a cache type and a key that name a folder and a file in it,
    for values that are JSON documents, and when the disk takes the two
    saves: a [get] after a [set] returns the value written, a second [get]
    returns it again, and a second [set] on the key replaces it: the next
    [get] returns the new value. *)
Theorem cache_set_get (cache_type key : string) (v v' : json) (w : world) :
  entry_names cache_type key = true ->
  disk_save w (ticks w) (cache_path cache_type key) = Saved ->
  disk_save w (S (ticks w)) (cache_path cache_type key) = Saved ->
  let w1 := snd (CacheManager.set cache_type key v w) in
  let w2 := snd (CacheManager.get cache_type key w1) in
  let w3 := snd (CacheManager.get cache_type key w2) in
  let w4 := snd (CacheManager.set cache_type key v' w3) in
  fst (CacheManager.set cache_type key v w) = Ret tt /\
  fst (CacheManager.get cache_type key w1) = Ret v /\
  fst (CacheManager.get cache_type key w2) = Ret v /\
  fst (CacheManager.set cache_type key v' w3) = Ret tt /\
  fst (CacheManager.get cache_type key w4) = Ret v'.
Proof.
  intros [Hty Hkey]%entry_names_plain Hs1 Hs2 w1 w2 w3 w4. subst w1 w2 w3 w4.
  rewrite (set_saved _ _ _ _ Hty Hkey Hs1). wsimpl.
  repeat (rewrite (get_eq _ _ _ Hty Hkey); wsimpl).
  rewrite (set_saved _ _ _ _ Hty Hkey) by (wsimpl; exact Hs2). wsimpl.
  repeat (rewrite (get_eq _ _ _ Hty Hkey); wsimpl).
  rewrite !cached_insert. auto.
Qed.

Lemma cache_set_get_witness :
  fst (CacheManager.get "pathfinding" "1_to_2"
         (snd (CacheManager.set "pathfinding" "1_to_2" route_1_2_3
                 empty_world))) = Ret route_1_2_3.
Proof.
  apply (cache_set_get "pathfinding" "1_to_2" route_1_2_3 JNull empty_world);
    reflexivity.
Defined.

(** ** The static dataset *)

(** What a block of [load_all_data] binds, from the files alone. *)
Lemma load_table_fst (what path : string) (cur : GameDataManager.table)
    (w : world) :
  fst (GameDataManager.load_table what path cur w) =
  table_in (data_files w) path cur.
Proof.
  unfold GameDataManager.load_table, table_in.
  destruct (data_files w !! path) as [[v|]|]; try reflexivity.
  unfold GameDataManager.read_json. mrun.
  destruct (GameDataManager.table_of v) as [tb|e]; [|reflexivity].
  destruct (GameDataManager.table_len tb); reflexivity.
Qed.

Lemma load_table_data_files (what path : string) (cur : GameDataManager.table)
    (w : world) :
  data_files (snd (GameDataManager.load_table what path cur w)) = data_files w.
Proof.
  unfold GameDataManager.load_table.
  destruct (data_files w !! path) as [[v|]|]; try reflexivity.
  unfold GameDataManager.read_json. mrun.
  destruct (GameDataManager.table_of v) as [tb|e]; [|reflexivity].
  destruct (GameDataManager.table_len tb); reflexivity.
Qed.

(** Whatever the data folder holds, the loader leaves the same index in
    [npcs_data] and in [monsters_data]: both blocks read [monsters.json]. *)
Lemma init_npcs_are_monsters (cf : CloudflareSession.t) (w w' : world)
    (d : GameDataManager.t) :
  GameDataManager.init cf w = (Ret d, w') ->
  GameDataManager.npcs_data d = GameDataManager.monsters_data d.
Proof.
  unfold GameDataManager.init, GameDataManager.load_all_data. intros H.
  apply try_ret_inv in H as [H | (e & w1 & _ & H)].
  2:{ mrun. discriminate H. }
  apply bind_ret_inv in H as (npcs & w1 & H1 & H).
  apply bind_ret_inv in H as (monsters & w2 & H2 & H).
  apply bind_ret_inv in H as (maps & w3 & _ & H).
  apply bind_ret_inv in H as (u & w4 & _ & H).
  injection H as <- _. cbn [GameDataManager.npcs_data GameDataManager.monsters_data].
  pose proof (load_table_fst "npcs" NPCS_JSON (GameDataManager.Dict []) w) as F1.
  pose proof (load_table_fst "monsters" MONSTERS_JSON (GameDataManager.Dict []) w1) as F2.
  pose proof (load_table_data_files "npcs" NPCS_JSON (GameDataManager.Dict []) w) as D.
  cbn [GameDataManager.npcs_data GameDataManager.monsters_data] in *.
  rewrite H1 in F1, D. rewrite H2 in F2. cbn [fst snd] in *.
  rewrite D in F2. change MONSTERS_JSON with NPCS_JSON in F2.
  congruence.
Qed.

(** C1. With an NPC in [npcs.json] and a monster in [monsters.json], the
    loaded NPC index holds the monster: looking up the NPC by name finds
    nothing, and looking up the monster's name among the NPCs returns the
    monster. *)
Theorem npc_index_holds_monsters :
  exists d w',
    GameDataManager.init session0 quest_data_world = (Ret d, w') /\
    GameDataManager.npcs_data d = GameDataManager.Dict [(JNum 333, slime)] /\
    GameDataManager.monsters_data d = GameDataManager.Dict [(JNum 333, slime)] /\
    GameDataManager.find_npc_by_name d "Koaren" = Ok JNull /\
    GameDataManager.find_npc_by_name d "Slime" = Ok slime /\
    GameDataManager.find_monster_by_name d "Slime" = Ok slime.
Proof.
  eexists. eexists. split; [vm_compute; reflexivity|].
  repeat split; vm_compute; reflexivity.
Qed.

Lemma contains_empty (s : string) : contains EmptyString s = true.
Proof. destruct s; reflexivity. Qed.

Lemma name_matches_empty_name (p : string) :
  GameDataManager.name_matches p EmptyString = true.
Proof.
  unfold GameDataManager.name_matches. rewrite (contains_empty p).
  apply orb_true_r.
Qed.

Lemma name_matches_empty_pattern (s : string) :
  GameDataManager.name_matches EmptyString s = true.
Proof.
  unfold GameDataManager.name_matches. rewrite (contains_empty s).
  reflexivity.
Qed.

Lemma no_display_name_lower (r : json) :
  no_display_name r -> GameDataManager.fr_name_lower r = Ok EmptyString.
Proof.
  intros (members & -> & H).
  unfold GameDataManager.fr_name_lower, get_default, rbind.
  destruct H as [Hn | (names & Hn & [Hf | Hf])]; rewrite Hn;
    [reflexivity | rewrite Hf; reflexivity ..].
Qed.

(** C10. A record [r] without a French display name, or with an empty one,
    matches every pattern [p]; when it is the first record of the NPC
    index (of the monster index) the NPC search (the monster search)
    returns it for every pattern; and the empty pattern matches every
    record whose name can be read. *)
Theorem nameless_record_matches (self : GameDataManager.t) (r : json)
    (rest : list json) (p : string) :
  no_display_name r ->
  GameDataManager.fr_name_lower r = Ok EmptyString /\
  GameDataManager.name_matches (lower p) EmptyString = true /\
  (GameDataManager.values (GameDataManager.npcs_data self) = Ok (r :: rest) ->
   GameDataManager.find_npc_by_name self p = Ok r) /\
  (GameDataManager.values (GameDataManager.monsters_data self) = Ok (r :: rest) ->
   GameDataManager.find_monster_by_name self p = Ok r) /\
  (forall (r' : json) (s : string),
     GameDataManager.fr_name_lower r' = Ok s ->
     GameDataManager.name_matches (lower EmptyString) s = true) /\
  (forall (r' : json) (s : string) (rest' : list json),
     GameDataManager.fr_name_lower r' = Ok s ->
     GameDataManager.find_by_name (lower EmptyString) (r' :: rest') = Ok r').
Proof.
  intros H. pose proof (no_display_name_lower r H) as Hl.
  split; [exact Hl|]. split; [apply name_matches_empty_name|].
  split; [|split; [|split]].
  - intros Hv. unfold GameDataManager.find_npc_by_name. rewrite Hv. simpl.
    rewrite Hl. simpl. rewrite name_matches_empty_name. reflexivity.
  - intros Hv. unfold GameDataManager.find_monster_by_name. rewrite Hv. simpl.
    rewrite Hl. simpl. rewrite name_matches_empty_name. reflexivity.
  - intros r' s _. apply name_matches_empty_pattern.
  - intros r' s rest' Hs. simpl. rewrite Hs. simpl.
    rewrite name_matches_empty_pattern. reflexivity.
Qed.

Lemma nameless_record_matches_witness :
  GameDataManager.find_npc_by_name
    (GameDataManager.Make session0
       (GameDataManager.Dict [(JNum 7, JObj [("id", JNum 7)]); (JNum 333, slime)])
       (GameDataManager.Dict []) (JObj []))
    "Slime" = Ok (JObj [("id", JNum 7)]).
Proof.
  apply (nameless_record_matches
           (GameDataManager.Make session0
              (GameDataManager.Dict [(JNum 7, JObj [("id", JNum 7)]); (JNum 333, slime)])
              (GameDataManager.Dict []) (JObj []))
           (JObj [("id", JNum 7)]) [slime] "Slime").
  - exists [("id", JNum 7)]. split; [reflexivity|]. left. reflexivity.
  - reflexivity.
Defined.

(** ** Keys *)

Lemma pretty_N_char_num (x : N) : num_char (pretty_N_char x) = true.
Proof. unfold pretty_N_char. repeat case_match; reflexivity. Qed.

Lemma pretty_N_go_num (x : N) (s : string) :
  num_text s = true -> num_text (pretty_N_go x s) = true.
Proof.
  revert s. induction (N.lt_wf_0 x) as [x _ IH]. intros s Hs.
  destruct (decide (x = 0)%N) as [-> | Hx].
  - rewrite pretty_N_go_0. exact Hs.
  - rewrite pretty_N_go_step by lia. apply IH.
    + apply N.div_lt; lia.
    + cbn [num_text]. rewrite pretty_N_char_num. exact Hs.
Qed.

Lemma pretty_N_num (x : N) : num_text (pretty x) = true.
Proof.
  unfold pretty, pretty_N. case_decide; [reflexivity|].
  apply pretty_N_go_num. reflexivity.
Qed.

Lemma pretty_Z_num (z : Z) : num_text (pretty z) = true.
Proof.
  destruct z as [|p|p]; [reflexivity | apply (pretty_N_num (N.pos p)) |].
  change (pretty (Z.neg p)) with (String "-" (pretty (N.pos p))).
  cbn [num_text]. rewrite pretty_N_num. reflexivity.
Qed.

Lemma num_text_plain (s : string) : num_text s = true -> plain s = true.
Proof.
  induction s as [|c s IH]; [reflexivity|]. cbn [num_text plain].
  intros [Hc Hs]%andb_true_iff. rewrite (IH Hs), andb_true_r.
  destruct (Ascii.eqb_spec c "_") as [-> | _]; [discriminate Hc | reflexivity].
Qed.

Lemma str_map_plain (m : option Z) : plain (GameDataManager.str_map m) = true.
Proof.
  destruct m as [n|]; [|reflexivity]. apply num_text_plain, pretty_Z_num.
Qed.

Lemma str_map_inj (m m' : option Z) :
  GameDataManager.str_map m = GameDataManager.str_map m' -> m = m'.
Proof.
  destruct m as [n|], m' as [n'|]; cbn [GameDataManager.str_map]; intros H.
  - f_equal. exact (pretty_Z_inj _ _ H).
  - pose proof (pretty_Z_num n) as Hn. rewrite H in Hn. discriminate Hn.
  - pose proof (pretty_Z_num n') as Hn. rewrite <- H in Hn. discriminate Hn.
  - reflexivity.
Qed.

Lemma append_nil (t : string) : EmptyString +:+ t = t.
Proof. reflexivity. Qed.

Lemma append_cons (c : ascii) (s t : string) :
  String c s +:+ t = String c (s +:+ t).
Proof. reflexivity. Qed.

(** Two texts without underscore that are followed by one are equal when
    the whole strings are. *)
Lemma split_at_underscore (a b c d : string) :
  plain a = true -> plain c = true ->
  a +:+ String "_" b = c +:+ String "_" d -> a = c /\ b = d.
Proof.
  revert c. induction a as [|x a IH]; intros [|y c]; cbn [plain];
    rewrite ?append_nil, ?append_cons.
  - intros _ _ [= ->]. split; reflexivity.
  - intros _ [Hy _]%andb_true_iff [= <- _]. discriminate Hy.
  - intros [Hx _]%andb_true_iff _ [= -> _]. discriminate Hx.
  - intros [_ Ha]%andb_true_iff [_ Hc]%andb_true_iff [= -> H].
    destruct (IH c Ha Hc H) as [-> ->]. split; reflexivity.
Qed.

Lemma path_cache_key_inj (m m' : option Z) (n n' : Z) :
  GameDataManager.path_cache_key m n = GameDataManager.path_cache_key m' n' ->
  m = m' /\ n = n'.
Proof.
  unfold GameDataManager.path_cache_key. intros H.
  change ("_to_" +:+ pretty n) with (String "_" ("to_" +:+ pretty n)) in H.
  change ("_to_" +:+ pretty n') with (String "_" ("to_" +:+ pretty n')) in H.
  apply split_at_underscore in H as [Hm Hn]; try apply str_map_plain.
  split; [exact (str_map_inj _ _ Hm)|].
  rewrite !append_cons, !append_nil in Hn. injection Hn as Hn.
  exact (pretty_Z_inj _ _ Hn).
Qed.

Lemma append_length (s t : string) :
  String.length (s +:+ t) = (String.length s + String.length t)%nat.
Proof.
  induction s as [|c s IH]; [reflexivity|].
  rewrite append_cons. cbn [String.length]. rewrite IH. reflexivity.
Qed.

Lemma append_inj_r (s s' t : string) : s +:+ t = s' +:+ t -> s = s'.
Proof.
  revert s'. induction s as [|c s IH]; intros [|c' s'] H.
  - reflexivity.
  - apply (f_equal String.length) in H. rewrite !append_length in H.
    cbn [String.length] in H. lia.
  - apply (f_equal String.length) in H. rewrite !append_length in H.
    cbn [String.length] in H. lia.
  - rewrite !append_cons in H. injection H as -> H.
    rewrite (IH s' H). reflexivity.
Qed.

Lemma cache_path_inj (ty ty' key key' : string) :
  cache_path ty key = cache_path ty' key' -> ty = ty' /\ key = key'.
Proof.
  unfold cache_path. intros [= -> H]. split; [reflexivity|].
  exact (append_inj_r _ _ _ H).
Qed.

(** The keys the script builds are plain names. *)
Lemma name_text_app (s t : string) :
  name_text (s +:+ t) = name_text s && name_text t.
Proof.
  induction s as [|c s IH]; [reflexivity|].
  rewrite append_cons. cbn [name_text]. rewrite IH, andb_assoc. reflexivity.
Qed.

Lemma num_text_name (s : string) : num_text s = true -> name_text s = true.
Proof.
  induction s as [|c s IH]; [reflexivity|]. cbn [num_text name_text].
  intros [Hc Hs]%andb_true_iff. rewrite (IH Hs), andb_true_r.
  unfold name_char.
  destruct (Ascii.eqb_spec c "/") as [-> | _]; [discriminate Hc|].
  destruct (Ascii.eqb_spec c "000") as [-> | _]; [discriminate Hc|].
  reflexivity.
Qed.

Lemma path_key_name (m : option Z) (n : Z) :
  name_text (GameDataManager.path_cache_key m n) = true.
Proof.
  unfold GameDataManager.path_cache_key. rewrite !name_text_app.
  rewrite (num_text_name _ (pretty_Z_num n)).
  destruct m as [k|]; cbn [GameDataManager.str_map];
    [rewrite (num_text_name _ (pretty_Z_num k))|]; reflexivity.
Qed.

Lemma npc_key_name (v : Z) :
  name_text (GameDataManager.npc_cache_key v) = true.
Proof.
  unfold GameDataManager.npc_cache_key. rewrite name_text_app.
  rewrite (num_text_name _ (pretty_Z_num v)). reflexivity.
Qed.

Lemma get_route_eq (m : option Z) (n : Z) (w : world) :
  CacheManager.get "pathfinding" (GameDataManager.path_cache_key m n) w =
  (Ret (cached (cache_files w) "pathfinding" (GameDataManager.path_cache_key m n)),
   emit (EvCacheRead "pathfinding" (GameDataManager.path_cache_key m n))
        (with_cache_dirs ({["pathfinding"]} ∪ cache_dirs w) w)).
Proof. apply get_eq; [reflexivity | apply path_key_name]. Qed.

Lemma get_location_eq (v : Z) (w : world) :
  CacheManager.get "npc_locations" (GameDataManager.npc_cache_key v) w =
  (Ret (cached (cache_files w) "npc_locations" (GameDataManager.npc_cache_key v)),
   emit (EvCacheRead "npc_locations" (GameDataManager.npc_cache_key v))
        (with_cache_dirs ({["npc_locations"]} ∪ cache_dirs w) w)).
Proof. apply get_eq; [reflexivity | apply npc_key_name]. Qed.

Lemma set_route_eq (m : option Z) (n : Z) (v : json) (w : world) :
  CacheManager.set "pathfinding" (GameDataManager.path_cache_key m n) v w =
  (Ret tt,
   let w0 := emit (EvCacheWrite "pathfinding" (GameDataManager.path_cache_key m n) v)
               (with_cache_dirs ({["pathfinding"]} ∪ cache_dirs w) w) in
   match disk_save w (ticks w)
           (cache_path "pathfinding" (GameDataManager.path_cache_key m n)) with
   | Saved =>
       tick (with_cache_files
               (<[cache_path "pathfinding" (GameDataManager.path_cache_key m n) :=
                    Doc v]> (cache_files w)) w0)
   | NotOpened => emit (EvPrint MsgCacheSaveError) (tick w0)
   | Interrupted =>
       emit (EvPrint MsgCacheSaveError)
         (tick (with_cache_files
                  (<[cache_path "pathfinding" (GameDataManager.path_cache_key m n) :=
                       Garbage]> (cache_files w)) w0))
   end).
Proof. apply set_eq; [reflexivity | apply path_key_name]. Qed.

Lemma set_location_eq (k : Z) (v : json) (w : world) :
  CacheManager.set "npc_locations" (GameDataManager.npc_cache_key k) v w =
  (Ret tt,
   let w0 := emit (EvCacheWrite "npc_locations" (GameDataManager.npc_cache_key k) v)
               (with_cache_dirs ({["npc_locations"]} ∪ cache_dirs w) w) in
   match disk_save w (ticks w)
           (cache_path "npc_locations" (GameDataManager.npc_cache_key k)) with
   | Saved =>
       tick (with_cache_files
               (<[cache_path "npc_locations" (GameDataManager.npc_cache_key k) :=
                    Doc v]> (cache_files w)) w0)
   | NotOpened => emit (EvPrint MsgCacheSaveError) (tick w0)
   | Interrupted =>
       emit (EvPrint MsgCacheSaveError)
         (tick (with_cache_files
                  (<[cache_path "npc_locations" (GameDataManager.npc_cache_key k) :=
                       Garbage]> (cache_files w)) w0))
   end).
Proof. apply set_eq; [reflexivity | apply npc_key_name]. Qed.

(** ** The route provider *)

Lemma http_calls_app (a b : list event) :
  http_calls (a ++ b) = http_calls a ++ http_calls b.
Proof.
  induction a as [|e a IH]; [reflexivity|].
  destruct e; cbn [http_calls app]; rewrite IH; reflexivity.
Qed.

Lemma get_default_err (x : json) (k : string) (d : json) (e : exn) :
  get_default x k d = Err e -> e = AttributeError.
Proof.
  destruct x; cbn [get_default]; try (intros [= <-]; reflexivity).
  destruct (jlookup k members); discriminate.
Qed.

Ltac run_get_pathfinding :=
  unfold GameDataManager.get_pathfinding;
  repeat rewrite (bind_eq _ _ _ _ _ (get_route_eq _ _ _));
  unfold GameDataManager.fetch_path, CloudflareSession.get,
    CloudflareSession.is_cookie_expired, CloudflareSession.raise_for_status,
    CloudflareSession.response_json, GameDataManager.path_error,
    cookie_warning, reply_at in *;
  mrun; wsimpl.

Ltac split_get_pathfinding w :=
  let c := fresh "status" in
  let b := fresh "body" in
  let E := fresh "Epath" in
  destruct (truthy (cached _ _ _)); wsimpl;
  [ destruct (get_default (cached _ _ _) "path" (JArr []))
  | destruct (CloudflareSession.cookie_lifetime _ <? _); wsimpl;
    (destruct (net w (S (ticks w)) _) as [|c [b|]]; wsimpl;
     [| destruct ((400 <=? c) && (c <? 600)); wsimpl;
        [destruct (c =? 403)
        | destruct (get_default b "path" (JArr [])) eqn:E;
          [|apply get_default_err in E as ->]]
      | destruct ((400 <=? c) && (c <? 600)); wsimpl; [destruct (c =? 403)|]]) ];
  wsimpl; rewrite ?set_route_eq; cbv zeta;
  wsimpl; try (destruct (disk_save _ _ _); wsimpl).

(** A lookup that misses the cache asks the routing site, once. *)
Lemma miss_requests (self : GameDataManager.t) (from_map : option Z)
    (to_map : Z) (w : world) :
  truthy (cached (cache_files w) "pathfinding"
            (GameDataManager.path_cache_key from_map to_map)) = false ->
  http_calls (trace (snd (GameDataManager.get_pathfinding self from_map to_map w))) =
  http_calls (trace w) ++ [GameDataManager.path_url from_map to_map].
Proof.
  intros Hmiss. run_get_pathfinding.
  split_get_pathfinding w; try discriminate Hmiss;
    rewrite !http_calls_app; cbn [http_calls];
    rewrite ?app_nil_r, <- ?app_assoc; reflexivity.
Qed.

(** [get_pathfinding] reads the cache at its own key only: its answer and
    the calls it makes are the same in two worlds that differ in other
    cache files. *)
Lemma get_pathfinding_reads_own_key (self : GameDataManager.t)
    (from_map : option Z) (to_map : Z) (w : world)
    (f : gmap (string * string) file_content) :
  f !! cache_path "pathfinding" (GameDataManager.path_cache_key from_map to_map) =
  cache_files w !! cache_path "pathfinding" (GameDataManager.path_cache_key from_map to_map) ->
  fst (GameDataManager.get_pathfinding self from_map to_map (with_cache_files f w)) =
  fst (GameDataManager.get_pathfinding self from_map to_map w) /\
  trace (snd (GameDataManager.get_pathfinding self from_map to_map (with_cache_files f w))) =
  trace (snd (GameDataManager.get_pathfinding self from_map to_map w)).
Proof.
  intros Hf.
  assert (cached f "pathfinding" (GameDataManager.path_cache_key from_map to_map) =
          cached (cache_files w) "pathfinding"
            (GameDataManager.path_cache_key from_map to_map)) as Hc
    by (unfold cached; rewrite Hf; reflexivity).
  run_get_pathfinding. rewrite Hc.
  split_get_pathfinding w; split; reflexivity.
Qed.

(** It writes the cache at its own key only. *)
Lemma get_pathfinding_writes_own_key (self : GameDataManager.t)
    (from_map : option Z) (to_map : Z) (w : world) (p : string * string) :
  p <> cache_path "pathfinding" (GameDataManager.path_cache_key from_map to_map) ->
  cache_files (snd (GameDataManager.get_pathfinding self from_map to_map w)) !! p =
  cache_files w !! p.
Proof.
  intros Hp. run_get_pathfinding.
  split_get_pathfinding w; rewrite ?lookup_insert_ne by congruence; reflexivity.
Qed.

(** C6. When nothing usable is cached for the pair and the request to the
    routing site fails, [get_pathfinding] returns the empty route and
    leaves the cache files as they were; the line reported is the 403 line
    exactly when the site answered 403, and one of the two other error
    lines otherwise; the next call for the pair asks the site again. *)
Theorem failed_request_not_cached (self : GameDataManager.t)
    (from_map : option Z) (to_map : Z) (w : world) (msg : message) :
  truthy (cached (cache_files w) "pathfinding"
            (GameDataManager.path_cache_key from_map to_map)) = false ->
  failure (reply_at w (GameDataManager.path_url from_map to_map)) msg ->
  exists w',
    GameDataManager.get_pathfinding self from_map to_map w = (Ret (JArr []), w') /\
    cache_files w' = cache_files w /\
    trace w' =
      trace w
      ++ [EvCacheRead "pathfinding" (GameDataManager.path_cache_key from_map to_map);
          EvPrint (MsgPathRemote from_map to_map)]
      ++ cookie_warning (GameDataManager.cf_session self) w
      ++ [EvHttpGet (GameDataManager.path_url from_map to_map); EvPrint msg] /\
    (msg = MsgError403 <->
     exists body,
       reply_at w (GameDataManager.path_url from_map to_map) = Response 403 body) /\
    http_calls (trace (snd (GameDataManager.get_pathfinding self from_map to_map w'))) =
    http_calls (trace w') ++ [GameDataManager.path_url from_map to_map].
Proof.
  intros Hmiss Hfail.
  assert (exists w',
    GameDataManager.get_pathfinding self from_map to_map w = (Ret (JArr []), w') /\
    cache_files w' = cache_files w /\
    trace w' =
      trace w
      ++ [EvCacheRead "pathfinding" (GameDataManager.path_cache_key from_map to_map);
          EvPrint (MsgPathRemote from_map to_map)]
      ++ cookie_warning (GameDataManager.cf_session self) w
      ++ [EvHttpGet (GameDataManager.path_url from_map to_map); EvPrint msg])
    as (w' & Hrun & Hfiles & Htrace).
  { run_get_pathfinding. rewrite Hmiss.
    remember (net w (S (ticks w)) (GameDataManager.path_url from_map to_map))
      as r eqn:Hr.
    destruct Hfail as [body | c body Hc Hne | | c Hc | c b e Hc Hb].
    - destruct (CloudflareSession.cookie_lifetime _ <? _); wsimpl; rewrite <- Hr;
        (eexists; split; [reflexivity|]; split; [reflexivity|]);
        wsimpl; rewrite <- ?app_assoc; reflexivity.
    - assert ((400 <=? c) && (c <? 600) = true) as Hs
        by (apply andb_true_iff; split; [apply Z.leb_le | apply Z.ltb_lt]; lia).
      assert ((c =? 403) = false) as Hn by (apply Z.eqb_neq; exact Hne).
      destruct (CloudflareSession.cookie_lifetime _ <? _); wsimpl; rewrite <- Hr;
        cbn [fst snd]; rewrite Hs, Hn;
        (eexists; split; [reflexivity|]; split; [reflexivity|]);
        wsimpl; rewrite <- ?app_assoc; reflexivity.
    - destruct (CloudflareSession.cookie_lifetime _ <? _); wsimpl; rewrite <- Hr;
        (eexists; split; [reflexivity|]; split; [reflexivity|]);
        wsimpl; rewrite <- ?app_assoc; reflexivity.
    - assert ((400 <=? c) && (c <? 600) = false) as Hs
        by (apply not_true_is_false;
            intros [?%Z.leb_le ?%Z.ltb_lt]%andb_true_iff; lia).
      destruct (CloudflareSession.cookie_lifetime _ <? _); wsimpl; rewrite <- Hr;
        cbn [fst snd]; rewrite Hs;
        (eexists; split; [reflexivity|]; split; [reflexivity|]);
        wsimpl; rewrite <- ?app_assoc; reflexivity.
    - assert ((400 <=? c) && (c <? 600) = false) as Hs
        by (apply not_true_is_false;
            intros [?%Z.leb_le ?%Z.ltb_lt]%andb_true_iff; lia).
      pose proof (get_default_err _ _ _ _ Hb) as ->.
      destruct (CloudflareSession.cookie_lifetime _ <? _); wsimpl; rewrite <- Hr;
        cbn [fst snd]; rewrite Hs, Hb;
        (eexists; split; [reflexivity|]; split; [reflexivity|]);
        wsimpl; rewrite <- ?app_assoc; reflexivity. }
  exists w'. split; [exact Hrun|]. split; [exact Hfiles|]. split; [exact Htrace|].
  split.
  - unfold reply_at. split.
    + intros ->. inversion Hfail; eauto.
    + intros [body Hb]. unfold reply_at in Hfail. rewrite Hb in Hfail.
      inversion Hfail; subst; try reflexivity; lia.
  - apply miss_requests. rewrite Hfiles. exact Hmiss.
Qed.

Lemma failed_request_not_cached_witness :
  exists w',
    GameDataManager.get_pathfinding no_data (Some 1) 2 forbidden_world =
      (Ret (JArr []), w') /\
    cache_files w' = cache_files forbidden_world /\
    printed (trace w') = [MsgPathRemote (Some 1) 2; MsgError403].
Proof.
  destruct (failed_request_not_cached no_data (Some 1) 2 forbidden_world
              MsgError403 eq_refl (failure_403 None))
    as (w' & Hrun & Hfiles & Htrace & _).
  exists w'. split; [exact Hrun|]. split; [exact Hfiles|].
  rewrite Htrace. reflexivity.
Defined.

(** C7. For two different maps [A] and [B] the keys of [(A, B)] and of
    [(B, A)] differ; a lookup for [(A, B)] changes no cache file but the
    one of its key, and its answer and its calls do not depend on the
    other cache files; so whatever route [r] is stored for [(A, B)], a
    lookup for [(B, A)] answers and acts as if it were not there, and with
    no file for [(B, A)] it asks the routing site. *)
Theorem route_cache_directional (self : GameDataManager.t) (A B : Z)
    (w : world) (r : json) :
  A <> B ->
  let key_AB := GameDataManager.path_cache_key (Some A) B in
  let key_BA := GameDataManager.path_cache_key (Some B) A in
  let stored :=
    with_cache_files
      (<[cache_path "pathfinding" key_AB := Doc r]> (cache_files w)) w in
  key_AB <> key_BA /\
  (forall p, p <> cache_path "pathfinding" key_AB ->
     cache_files (snd (GameDataManager.get_pathfinding self (Some A) B w)) !! p =
     cache_files w !! p) /\
  (forall f,
     f !! cache_path "pathfinding" key_AB =
     cache_files w !! cache_path "pathfinding" key_AB ->
     fst (GameDataManager.get_pathfinding self (Some A) B (with_cache_files f w)) =
     fst (GameDataManager.get_pathfinding self (Some A) B w)) /\
  fst (GameDataManager.get_pathfinding self (Some B) A stored) =
  fst (GameDataManager.get_pathfinding self (Some B) A w) /\
  trace (snd (GameDataManager.get_pathfinding self (Some B) A stored)) =
  trace (snd (GameDataManager.get_pathfinding self (Some B) A w)) /\
  (cache_files w !! cache_path "pathfinding" key_BA = None ->
   http_calls (trace (snd (GameDataManager.get_pathfinding self (Some B) A stored))) =
   http_calls (trace w) ++ [GameDataManager.path_url (Some B) A]).
Proof.
  intros Hne key_AB key_BA stored.
  assert (key_AB <> key_BA) as Hkeys.
  { intros H. apply path_cache_key_inj in H as [_ H]. congruence. }
  assert (cache_path "pathfinding" key_AB <> cache_path "pathfinding" key_BA)
    as Hpaths.
  { intros H. apply cache_path_inj in H as [_ H]. contradiction. }
  assert (cache_files stored !! cache_path "pathfinding" key_BA =
          cache_files w !! cache_path "pathfinding" key_BA) as Hsame.
  { subst stored. wsimpl. apply lookup_insert_ne. exact Hpaths. }
  pose proof (get_pathfinding_reads_own_key self (Some B) A w
                (cache_files stored) Hsame) as [Hfst Htr].
  split; [exact Hkeys|].
  split; [intros p Hp; apply get_pathfinding_writes_own_key; exact Hp|].
  split; [intros f Hf; apply get_pathfinding_reads_own_key; exact Hf|].
  split; [exact Hfst|]. split; [exact Htr|].
  intros Hnone.
  change (with_cache_files (cache_files stored) w) with stored in Htr.
  rewrite Htr. apply miss_requests.
  unfold cached. fold key_BA. rewrite Hnone. reflexivity.
Qed.

Lemma route_cache_directional_witness :
  GameDataManager.path_cache_key (Some 1) 2 <>
  GameDataManager.path_cache_key (Some 2) 1 /\
  http_calls
    (trace (snd (GameDataManager.get_pathfinding no_data (Some 2) 1
                   (with_cache_files
                      (<[cache_path "pathfinding"
                           (GameDataManager.path_cache_key (Some 1) 2) :=
                           Doc (GameDataManager.route_record (Some 1) 2
                                  (JArr [JNum 1; JNum 2]))]>
                         (cache_files empty_world)) empty_world)))) =
  [GameDataManager.path_url (Some 2) 1].
Proof.
  destruct (route_cache_directional no_data 1 2 empty_world
              (GameDataManager.route_record (Some 1) 2 (JArr [JNum 1; JNum 2])))
    as (Hk & _ & _ & _ & _ & Hcalls); [lia|].
  split; [exact Hk | exact (Hcalls eq_refl)].
Defined.

(** ** The location resolver *)

Lemma map_loads_app (a b : list event) :
  map_loads (a ++ b) = map_loads a ++ map_loads b.
Proof.
  induction a as [|e a IH]; [reflexivity|].
  destruct e; cbn [map_loads app]; rewrite IH; reflexivity.
Qed.

Lemma later_trans (w w1 w2 : world) (l1 l2 : list json) :
  later w w1 l1 -> later w1 w2 l2 -> later w w2 (l1 ++ l2).
Proof.
  intros (C1 & M1 & T1) (C2 & M2 & T2). unfold later.
  rewrite C2, C1, M2, M1, T2, T1, app_assoc. auto.
Qed.

Lemma later_emit_print (w : world) (m : message) :
  later w (emit (EvPrint m) w) [].
Proof.
  unfold later. wsimpl. rewrite map_loads_app. cbn [map_loads].
  auto.
Qed.

Lemma map_document_later (w w' : world) (l : list json) (i : Z) :
  later w w' l -> map_document w' i = map_document w i.
Proof. intros (_ & Hm & _). unfold map_document. rewrite Hm. reflexivity. Qed.

Lemma load_map_file_int (self : GameDataManager.t) (i : Z) (w : world) :
  exists w',
    GameDataManager.load_map_file self (JNum i) w = (Ret (map_document w i), w') /\
    later w w' [JNum i].
Proof.
  unfold GameDataManager.load_map_file, map_document, later. cbn [py_str].
  mrun. wsimpl.
  destruct (map_files w !! GameDataManager.map_file_name (pretty i)) as [[v|]|];
    eexists; (split; [reflexivity|]); wsimpl;
    rewrite ?map_loads_app; cbn [map_loads]; rewrite ?app_nil_r; auto.
Qed.

Lemma scan_npcs_none (self : GameDataManager.t) (i v : Z) (npcs : list json)
    (w : world) :
  Forall (placed v false) npcs ->
  GameDataManager.scan_npcs self i v npcs w = (Ret None, w).
Proof.
  induction 1 as [|npc npcs (vnum & Hv & Hne) _ IH]; [reflexivity|].
  cbn [GameDataManager.scan_npcs]. rewrite Hv. cbn [lift].
  unfold bind at 1. cbn [ret]. rewrite Hne. exact IH.
Qed.

Lemma scan_npcs_found (self : GameDataManager.t) (i v : Z)
    (before after : list json) (npc x y name : json) (w : world) :
  Forall (placed v false) before ->
  placed v true npc ->
  getitem npc "x" = Ok x ->
  getitem npc "y" = Ok y ->
  GameDataManager.get_map_name self (JNum i) = Ok name ->
  GameDataManager.scan_npcs self i v (before ++ npc :: after) w =
  (Ret (Some (JNum i)),
   snd (CacheManager.set "npc_locations" (GameDataManager.npc_cache_key v)
          (GameDataManager.location_record i v x y)
          (emit (EvPrint (MsgNpcFound v i name)) w))).
Proof.
  intros Hb (vnum & Hv & He) Hx Hy Hn.
  induction Hb as [|n before (vn & Hvn & Hne) _ IH].
  - cbn [app GameDataManager.scan_npcs]. rewrite Hv, Hn, Hx, Hy. cbn [lift].
    mrun. rewrite He. rewrite set_location_eq. reflexivity.
  - cbn [app GameDataManager.scan_npcs]. rewrite Hvn. cbn [lift].
    unfold bind at 1. cbn [ret]. rewrite Hne. exact IH.
Qed.

Lemma scan_maps_step_lacks (self : GameDataManager.t) (v i : Z)
    (rest : list Z) (w : world) :
  lacks_npc v (map_document w i) ->
  exists w1,
    GameDataManager.scan_maps self v (i :: rest) w =
    GameDataManager.scan_maps self v rest w1 /\
    later w w1 [JNum i].
Proof.
  intros Hl. destruct (load_map_file_int self i w) as (w1 & Hload & Hlater).
  exists w1. split; [|exact Hlater].
  cbn [GameDataManager.scan_maps]. rewrite (bind_eq _ _ _ _ _ Hload).
  destruct (truthy (map_document w i)) eqn:Ht; [|reflexivity].
  destruct Hl as [Hf | (npcs & Hn & Hall)]; [congruence|].
  cbn [negb]. rewrite Hn. mrun. cbn [py_iter].
  rewrite (scan_npcs_none self i v npcs w1 Hall). reflexivity.
Qed.

Lemma scan_maps_none (self : GameDataManager.t) (v : Z) (ids : list Z)
    (w : world) :
  (forall i, In i ids -> lacks_npc v (map_document w i)) ->
  exists w',
    GameDataManager.scan_maps self v ids w = (Ret JNull, w') /\
    later w w' (JNum <$> ids).
Proof.
  revert w. induction ids as [|i ids IH]; intros w Hall.
  - eexists. split; [reflexivity|]. apply later_emit_print.
  - destruct (scan_maps_step_lacks self v i ids w) as (w1 & Hstep & Hl1);
      [apply Hall; left; reflexivity|].
    destruct (IH w1) as (w' & Hrun & Hl2).
    { intros j Hj. rewrite (map_document_later _ _ _ _ Hl1).
      apply Hall. right. exact Hj. }
    exists w'. split; [rewrite Hstep; exact Hrun|].
    exact (later_trans _ _ _ _ _ Hl1 Hl2).
Qed.

(** Loading a map file asks nothing of the clock or of the disk of the
    cache. *)
Lemma load_map_file_disk (self : GameDataManager.t) (map_id : json) (w : world) :
  ticks (snd (GameDataManager.load_map_file self map_id w)) = ticks w /\
  disk_save (snd (GameDataManager.load_map_file self map_id w)) = disk_save w.
Proof.
  unfold GameDataManager.load_map_file. mrun.
  destruct (py_str map_id) as [id|]; wsimpl; [|auto].
  destruct (map_files w !! GameDataManager.map_file_name id) as [[v|]|]; auto.
Qed.

Lemma scan_maps_skips (self : GameDataManager.t) (v : Z) (pre rest : list Z)
    (w : world) :
  (forall i, In i pre -> lacks_npc v (map_document w i)) ->
  exists w1,
    GameDataManager.scan_maps self v (pre ++ rest) w =
    GameDataManager.scan_maps self v rest w1 /\
    later w w1 (JNum <$> pre) /\
    ticks w1 = ticks w /\ disk_save w1 = disk_save w.
Proof.
  revert w. induction pre as [|i pre IH]; intros w Hall.
  - exists w. split; [reflexivity|]. unfold later. rewrite app_nil_r. auto.
  - destruct (load_map_file_int self i w) as (w1 & Hload & Hl1).
    pose proof (load_map_file_disk self (JNum i) w) as [Ht1 Hd1].
    rewrite Hload in Ht1, Hd1. cbn [snd] in Ht1, Hd1.
    assert (GameDataManager.scan_maps self v (i :: pre ++ rest) w =
            GameDataManager.scan_maps self v (pre ++ rest) w1) as Hstep.
    { cbn [GameDataManager.scan_maps]. rewrite (bind_eq _ _ _ _ _ Hload).
      destruct (truthy (map_document w i)) eqn:Ht; [|reflexivity].
      destruct (Hall i (or_introl eq_refl)) as [Hf | (npcs & Hn & Hnone)];
        [congruence|].
      cbn [negb]. rewrite Hn. mrun. cbn [py_iter].
      rewrite (scan_npcs_none self i v npcs w1 Hnone). reflexivity. }
    destruct (IH w1) as (w2 & Hrun & Hl2 & Ht2 & Hd2).
    { intros j Hj. rewrite (map_document_later _ _ _ _ Hl1).
      apply Hall. right. exact Hj. }
    exists w2. split; [cbn [app]; rewrite Hstep; exact Hrun|].
    split; [exact (later_trans _ _ _ _ _ Hl1 Hl2)|].
    split; congruence.
Qed.

Lemma scan_maps_found (self : GameDataManager.t) (v m : Z)
    (pre post : list Z) (x y name : json) (w : world) :
  (forall i, In i pre -> lacks_npc v (map_document w i)) ->
  first_npc_at v (map_document w m) x y ->
  GameDataManager.get_map_name self (JNum m) = Ok name ->
  exists w1,
    GameDataManager.scan_maps self v (pre ++ m :: post) w =
      (Ret (JNum m),
       snd (CacheManager.set "npc_locations" (GameDataManager.npc_cache_key v)
              (GameDataManager.location_record m v x y)
              (emit (EvPrint (MsgNpcFound v m name)) w1))) /\
    later w w1 (JNum <$> pre ++ [m]) /\
    ticks w1 = ticks w /\ disk_save w1 = disk_save w.
Proof.
  intros Hall Hfirst Hname.
  destruct (scan_maps_skips self v pre (m :: post) w Hall)
    as (w0 & Hrun & Hl0 & Ht0 & Hd0).
  destruct (load_map_file_int self m w0) as (w1 & Hload & Hl1).
  pose proof (load_map_file_disk self (JNum m) w0) as [Ht1 Hd1].
  rewrite Hload in Ht1, Hd1. cbn [snd] in Ht1, Hd1.
  rewrite <- (map_document_later _ _ _ _ Hl0) in Hfirst.
  destruct Hfirst as (Htruthy & before & npc & after & Hn & Hb & Hp & Hx & Hy).
  exists w1. split.
  - rewrite Hrun. cbn [GameDataManager.scan_maps].
    rewrite (bind_eq _ _ _ _ _ Hload), Htruthy. cbn [negb]. rewrite Hn.
    mrun. cbn [py_iter].
    rewrite (scan_npcs_found self m v before after npc x y name w1 Hb Hp Hx Hy Hname).
    reflexivity.
  - split; [|split; congruence].
    pose proof (later_trans _ _ _ _ _ Hl0 Hl1) as Hl.
    rewrite fmap_app. exact Hl.
Qed.

(** What the save of a location leaves: no map is loaded; when the disk
    takes the save the file holds the record; otherwise an entry that was
    not usable is still not usable. *)
Lemma location_save_after (v : Z) (record : json) (w : world) :
  let file := cache_path "npc_locations" (GameDataManager.npc_cache_key v) in
  let w' := snd (CacheManager.set "npc_locations"
                   (GameDataManager.npc_cache_key v) record w) in
  map_loads (trace w') = map_loads (trace w) /\
  (disk_save w (ticks w) file = Saved ->
   cache_files w' = <[file := Doc record]> (cache_files w)) /\
  (disk_save w (ticks w) file <> Saved ->
   truthy (cached (cache_files w) "npc_locations"
             (GameDataManager.npc_cache_key v)) = false ->
   truthy (cached (cache_files w') "npc_locations"
             (GameDataManager.npc_cache_key v)) = false).
Proof.
  intros file w'. subst file w'. rewrite set_location_eq. cbv zeta.
  destruct (disk_save w (ticks w)
              (cache_path "npc_locations" (GameDataManager.npc_cache_key v)));
    wsimpl; rewrite !map_loads_app; cbn [map_loads]; rewrite !app_nil_r;
    (split; [reflexivity|]); (split; [intros H | intros H Hm]);
    try discriminate H; try (destruct H; reflexivity); try reflexivity.
  - exact Hm.
  - unfold cached. rewrite lookup_insert_eq. reflexivity.
Qed.

Lemma search_miss_disk (self : GameDataManager.t) (v : Z) (w : world) :
  truthy (cached (cache_files w) "npc_locations"
            (GameDataManager.npc_cache_key v)) = false ->
  exists w0,
    GameDataManager.search_npc_location self v w =
    GameDataManager.scan_maps self v GameDataManager.map_range w0 /\
    later w w0 [] /\
    ticks w0 = ticks w /\ disk_save w0 = disk_save w.
Proof.
  intros Hmiss. unfold GameDataManager.search_npc_location.
  rewrite (bind_eq _ _ _ _ _ (get_location_eq _ _)). rewrite Hmiss.
  eexists. split; [reflexivity|]. unfold later. wsimpl.
  rewrite !map_loads_app. cbn [map_loads]. rewrite !app_nil_r. auto.
Qed.

Lemma search_miss (self : GameDataManager.t) (v : Z) (w : world) :
  truthy (cached (cache_files w) "npc_locations"
            (GameDataManager.npc_cache_key v)) = false ->
  exists w0,
    GameDataManager.search_npc_location self v w =
    GameDataManager.scan_maps self v GameDataManager.map_range w0 /\
    later w w0 [].
Proof.
  intros Hmiss.
  destruct (search_miss_disk self v w Hmiss) as (w0 & Hsearch & Hl & _).
  exists w0. auto.
Qed.

Lemma map_range_split (m : Z) :
  1 <= m <= 412 ->
  GameDataManager.map_range = seqZ 1 (m - 1) ++ m :: seqZ (m + 1) (412 - m).
Proof.
  intros Hm. unfold GameDataManager.map_range.
  replace 412 with ((m - 1) + (412 - m + 1)) at 1 by lia.
  rewrite seqZ_app by lia. f_equal.
  rewrite seqZ_cons by lia. f_equal; [lia|]. f_equal; lia.
Qed.

(** The run of a search that finds [v] first on map [m], up to the save
    of the location. *)
Lemma search_found_run (self : GameDataManager.t) (v m : Z)
    (x y name : json) (w : world) :
  truthy (cached (cache_files w) "npc_locations"
            (GameDataManager.npc_cache_key v)) = false ->
  1 <= m <= 412 ->
  (forall i, 1 <= i < m -> lacks_npc v (map_document w i)) ->
  first_npc_at v (map_document w m) x y ->
  GameDataManager.get_map_name self (JNum m) = Ok name ->
  exists w1,
    GameDataManager.search_npc_location self v w =
      (Ret (JNum m),
       snd (CacheManager.set "npc_locations" (GameDataManager.npc_cache_key v)
              (GameDataManager.location_record m v x y)
              (emit (EvPrint (MsgNpcFound v m name)) w1))) /\
    later w w1 (JNum <$> seqZ 1 m) /\
    ticks w1 = ticks w /\ disk_save w1 = disk_save w.
Proof.
  intros Hmiss Hm Hbefore Hfirst Hname.
  destruct (search_miss_disk self v w Hmiss)
    as (w0 & Hsearch & Hl0 & Hticks0 & Hdisk0).
  rewrite Hsearch, (map_range_split m Hm).
  destruct (scan_maps_found self v m (seqZ 1 (m - 1)) (seqZ (m + 1) (412 - m))
              x y name w0) as (w1 & Hrun & Hl1 & Hticks1 & Hdisk1).
  { intros i Hi%list_elem_of_In%elem_of_seqZ.
    rewrite (map_document_later _ _ _ _ Hl0). apply Hbefore. lia. }
  { rewrite (map_document_later _ _ _ _ Hl0). exact Hfirst. }
  { exact Hname. }
  exists w1. split; [exact Hrun|]. split; [|split; congruence].
  pose proof (later_trans _ _ _ _ _ Hl0 Hl1) as Hl. cbn [app] in Hl.
  replace (seqZ 1 m) with (seqZ 1 (m - 1) ++ [m]); [exact Hl|].
  replace m with ((m - 1) + 1) at 3 by lia.
  rewrite seqZ_app by lia. cbn [seqZ].
  replace (1 + (m - 1)) with m by lia. reflexivity.
Qed.

(** C2. When nothing usable is cached for the entity [v], no map before
    [m] holds a placement of [v] and the first placement of [v] on map [m]
    is at [(x, y)], [search_npc_location] loads the maps 1, 2, ..., [m] in
    this order and no other, and returns [m].  When the disk takes the
    save, the record of [m], [v], [x] and [y] is then in the file of key
    ["npc_location_{v}"] of the cache type ["npc_locations"]; when the save
    fails, [m] is returned all the same and the entry is still not usable.
    The range scanned is the one written in the script, 1 to 412. *)
Theorem search_finds_first_map (self : GameDataManager.t) (v m : Z)
    (x y name : json) (w : world) :
  truthy (cached (cache_files w) "npc_locations"
            (GameDataManager.npc_cache_key v)) = false ->
  1 <= m <= 412 ->
  (forall i, 1 <= i < m -> lacks_npc v (map_document w i)) ->
  first_npc_at v (map_document w m) x y ->
  GameDataManager.get_map_name self (JNum m) = Ok name ->
  exists w',
    GameDataManager.search_npc_location self v w = (Ret (JNum m), w') /\
    map_loads (trace w') = map_loads (trace w) ++ (JNum <$> seqZ 1 m) /\
    (disk_save w (ticks w)
       (cache_path "npc_locations" ("npc_location_" +:+ pretty v)) = Saved ->
     cache_files w' =
       <[cache_path "npc_locations" ("npc_location_" +:+ pretty v) :=
           Doc (JObj [("map_id", JNum m); ("npc_vnum", JNum v);
                      ("x", x); ("y", y)])]> (cache_files w)) /\
    (disk_save w (ticks w)
       (cache_path "npc_locations" ("npc_location_" +:+ pretty v)) <> Saved ->
     truthy (cached (cache_files w') "npc_locations"
               ("npc_location_" +:+ pretty v)) = false).
Proof.
  intros Hmiss Hm Hbefore Hfirst Hname.
  destruct (search_found_run self v m x y name w Hmiss Hm Hbefore Hfirst Hname)
    as (w1 & Hrun & (Hc & _ & Hloads) & Hticks & Hdisk).
  pose proof (location_save_after v (GameDataManager.location_record m v x y)
                (emit (EvPrint (MsgNpcFound v m name)) w1))
    as (Hl & Hsaved & Hfailed).
  cbv zeta in Hl, Hsaved, Hfailed. wsimpl.
  rewrite Hdisk, Hticks, Hc in Hsaved, Hfailed.
  eexists. split; [exact Hrun|]. cbn [snd]. split; [|split].
  - rewrite Hl, map_loads_app. cbn [map_loads]. rewrite app_nil_r. exact Hloads.
  - exact Hsaved.
  - intros Hno. exact (Hfailed Hno Hmiss).
Qed.

Lemma search_absent (self : GameDataManager.t) (v : Z) (w : world) :
  truthy (cached (cache_files w) "npc_locations"
            (GameDataManager.npc_cache_key v)) = false ->
  (forall i, 1 <= i <= 412 -> lacks_npc v (map_document w i)) ->
  exists w',
    GameDataManager.search_npc_location self v w = (Ret JNull, w') /\
    later w w' (JNum <$> seqZ 1 412).
Proof.
  intros Hmiss Hall.
  destruct (search_miss self v w Hmiss) as (w0 & Hsearch & Hl0).
  destruct (scan_maps_none self v GameDataManager.map_range w0)
    as (w' & Hrun & Hl1).
  { intros i Hi%list_elem_of_In%elem_of_seqZ.
    rewrite (map_document_later _ _ _ _ Hl0). apply Hall. lia. }
  exists w'. split; [rewrite Hsearch; exact Hrun|].
  exact (later_trans _ _ _ _ _ Hl0 Hl1).
Qed.

(** C4. When nothing usable is cached for the entity [v] and no map from 1
    to 412 holds a placement of [v], [search_npc_location] loads the 412
    maps, returns [None] and leaves the cache files as they were (a key
    without a file still has none); the next call loads the 412 maps
    again and returns [None] again. *)
Theorem absent_not_cached (self : GameDataManager.t) (v : Z) (w : world) :
  truthy (cached (cache_files w) "npc_locations"
            (GameDataManager.npc_cache_key v)) = false ->
  (forall i, 1 <= i <= 412 -> lacks_npc v (map_document w i)) ->
  exists w',
    GameDataManager.search_npc_location self v w = (Ret JNull, w') /\
    cache_files w' = cache_files w /\
    map_loads (trace w') = map_loads (trace w) ++ (JNum <$> seqZ 1 412) /\
    (cache_files w !! cache_path "npc_locations" ("npc_location_" +:+ pretty v) = None ->
     fst (CacheManager.exists_ "npc_locations" ("npc_location_" +:+ pretty v) w') =
     Ret false) /\
    exists w'',
      GameDataManager.search_npc_location self v w' = (Ret JNull, w'') /\
      cache_files w'' = cache_files w /\
      map_loads (trace w'') = map_loads (trace w') ++ (JNum <$> seqZ 1 412).
Proof.
  intros Hmiss Hall.
  destruct (search_absent self v w Hmiss Hall) as (w' & Hrun & Hl).
  pose proof Hl as (Hc & Hm & Ht).
  exists w'. split; [exact Hrun|]. split; [exact Hc|]. split; [exact Ht|].
  split.
  - intros Hnone.
    change ("npc_location_" +:+ pretty v) with (GameDataManager.npc_cache_key v)
      in *.
    rewrite (exists_eq "npc_locations" (GameDataManager.npc_cache_key v) w'
               eq_refl (npc_key_name v)).
    cbn [fst]. rewrite Hc, Hnone. reflexivity.
  - destruct (search_absent self v w') as (w'' & Hrun' & (Hc' & _ & Ht')).
    { rewrite Hc. exact Hmiss. }
    { intros i Hi. rewrite (map_document_later _ _ _ _ Hl). apply Hall, Hi. }
    exists w''. split; [exact Hrun'|]. split; [congruence | exact Ht'].
Qed.







Lemma search_finds_first_map_witness :
  exists w',
    GameDataManager.search_npc_location no_data 4013 scenario_world =
      (Ret (JNum 20), w') /\
    cache_files w' !! cache_path "npc_locations" "npc_location_4013" =
      Some (Doc (JObj [("map_id", JNum 20); ("npc_vnum", JNum 4013);
                       ("x", JNum 45); ("y", JNum 60)])) /\
    map_loads (trace w') = JNum <$> seqZ 1 20.
Proof.
  destruct (search_finds_first_map no_data 4013 20 (JNum 45) (JNum 60)
              (JStr "Map 20") scenario_world)
    as (w' & Hrun & Hloads & Hfiles & _).
  - reflexivity.
  - lia.
  - intros i Hi. assert (In i (seqZ 1 19)) as H
      by (apply list_elem_of_In, elem_of_seqZ; lia).
    vm_compute in H.
    repeat (destruct H as [<- | H];
            [first [ left; vm_compute; reflexivity
                   | right; eexists; split;
                     [vm_compute; reflexivity
                     | repeat constructor; eexists; split; reflexivity ] ] |]).
    destruct H.
  - split; [vm_compute; reflexivity|].
    exists [JObj [("vnum", JNum 12); ("x", JNum 3); ("y", JNum 4)]],
           (JObj [("vnum", JNum 4013); ("x", JNum 45); ("y", JNum 60)]), [].
    split; [vm_compute; reflexivity|].
    split; [repeat constructor; eexists; split; reflexivity|].
    split; [eexists; split; reflexivity|]. split; reflexivity.
  - vm_compute. reflexivity.
  - exists w'. split; [exact Hrun|]. split; [|exact Hloads].
    rewrite (Hfiles eq_refl). apply lookup_insert_eq.
Defined.

(** The scenario run by the definitions themselves: 20 is returned. *)
Example scenario_4013 :
  fst (GameDataManager.search_npc_location no_data 4013 scenario_world) =
  Ret (JNum 20).
Proof. vm_compute. reflexivity. Qed.


Lemma absent_not_cached_witness :
  exists w',
    GameDataManager.search_npc_location no_data 4013 empty_world = (Ret JNull, w') /\
    cache_files w' = cache_files empty_world /\
    map_loads (trace w') = JNum <$> seqZ 1 412.
Proof.
  destruct (absent_not_cached no_data 4013 empty_world)
    as (w' & Hrun & Hfiles & Hloads & _).
  - reflexivity.
  - intros i _. left. unfold map_document. cbn [map_files empty_world].
    rewrite lookup_empty. reflexivity.
  - exists w'. split; [exact Hrun|]. split; [exact Hfiles | exact Hloads].
Defined.

(** ** The navigator *)

Create HintDb adds.

Section Adds.

Variable P : event -> Prop.
Hypothesis quiet_P : forall e, quiet e -> P e.

Lemma adds_nothing {A : Type} (c : M A) :
  (forall w, trace (snd (c w)) = trace w) -> adds P c.
Proof.
  intros H w. exists []. rewrite app_nil_r. split; [apply H | constructor].
Qed.

Lemma adds_ret {A : Type} (a : A) : adds P (ret a).
Proof. apply adds_nothing. reflexivity. Qed.

Lemma adds_raise {A : Type} (e : exn) : adds P (@raise A e).
Proof. apply adds_nothing. reflexivity. Qed.

Lemma adds_out_of_fuel {A : Type} : adds P (@out_of_fuel A).
Proof. apply adds_nothing. reflexivity. Qed.

Lemma adds_lift {A : Type} (r : result A) : adds P (lift r).
Proof. destruct r; [apply adds_ret | apply adds_raise]. Qed.

Lemma adds_log (e : event) : P e -> adds P (log e).
Proof. intros He w. exists [e]. split; [reflexivity | repeat constructor; exact He]. Qed.

Lemma adds_print (m : message) : adds P (print m).
Proof. apply adds_log, quiet_P. exact I. Qed.

Lemma adds_bind {A B : Type} (c : M A) (k : A -> M B) :
  adds P c -> (forall a, adds P (k a)) -> adds P (bind c k).
Proof.
  intros Hc Hk w. unfold bind. specialize (Hc w).
  destruct (c w) as [[a|e|] w1]; cbn [snd] in *; [|exact Hc ..].
  destruct Hc as (t1 & H1 & F1). destruct (Hk a w1) as (t2 & H2 & F2).
  exists (t1 ++ t2). rewrite H2, H1, app_assoc. split; [reflexivity|].
  apply Forall_app. split; assumption.
Qed.

Lemma adds_try {A : Type} (c : M A) (h : exn -> M A) :
  adds P c -> (forall e, adds P (h e)) -> adds P (try_except c h).
Proof.
  intros Hc Hh w. unfold try_except. specialize (Hc w).
  destruct (c w) as [[a|e|] w1]; cbn [snd] in *; [exact Hc | | exact Hc].
  destruct Hc as (t1 & H1 & F1). destruct (Hh e w1) as (t2 & H2 & F2).
  exists (t1 ++ t2). rewrite H2, H1, app_assoc. split; [reflexivity|].
  apply Forall_app. split; assumption.
Qed.

Hint Resolve adds_ret adds_raise adds_lift adds_print adds_out_of_fuel
  adds_bind adds_try : adds.

Ltac solve_adds :=
  repeat (intros;
    match goal with
    | |- adds _ (bind _ _) => apply adds_bind
    | |- adds _ (try_except _ _) => apply adds_try
    | |- adds _ (if ?b then _ else _) => destruct b
    | |- adds _ (match ?x with _ => _ end) => destruct x
    | |- adds _ _ => solve [auto with adds]
    end).

Lemma adds_cache_file (ty key : string) :
  adds P (CacheManager.get_cache_file ty key).
Proof.
  unfold CacheManager.get_cache_file.
  destruct (folder_name ty && name_text key); [|apply adds_raise].
  apply adds_nothing. reflexivity.
Qed.

Lemma adds_cache_get (ty key : string) : adds P (CacheManager.get ty key).
Proof.
  unfold CacheManager.get. apply adds_bind; [apply adds_cache_file|].
  intros f. apply adds_bind; [apply adds_log, quiet_P; exact I|].
  intros _. apply adds_nothing. intros w.
  destruct (cache_files w !! f) as [[v|]|]; reflexivity.
Qed.

Lemma adds_cache_set (ty key : string) (v : json) :
  adds P (CacheManager.set ty key v).
Proof.
  unfold CacheManager.set. apply adds_bind; [apply adds_cache_file|].
  intros f. apply adds_bind; [apply adds_log, quiet_P; exact I|].
  intros _. apply adds_try; [|intros e; apply adds_print].
  apply adds_nothing. intros w. unfold CacheManager.write_json.
  destruct (disk_save w (ticks w) f); reflexivity.
Qed.

Lemma adds_cf_get (cf : CloudflareSession.t) (url : string) :
  adds P (CloudflareSession.get cf url).
Proof.
  unfold CloudflareSession.get. apply adds_bind; [apply adds_nothing; reflexivity|].
  intros expired. apply adds_bind; [destruct expired; auto with adds|].
  intros _. apply adds_bind; [apply adds_log, quiet_P; exact I|].
  intros _. apply adds_nothing. intros w.
  destruct (net w (ticks w) url); reflexivity.
Qed.

Hint Resolve adds_cache_get adds_cache_set adds_cf_get : adds.

Lemma adds_get_pathfinding (d : GameDataManager.t) (from_map : option Z)
    (to_map : Z) :
  adds P (GameDataManager.get_pathfinding d from_map to_map).
Proof.
  unfold GameDataManager.get_pathfinding, GameDataManager.fetch_path,
    GameDataManager.path_error, CloudflareSession.raise_for_status,
    CloudflareSession.response_json.
  solve_adds.
Qed.

Lemma adds_load_map_file (d : GameDataManager.t) (map_id : json) :
  adds P (GameDataManager.load_map_file d map_id).
Proof.
  unfold GameDataManager.load_map_file.
  apply adds_bind; [apply adds_log, quiet_P; exact I|].
  intros _. destruct (py_str map_id) as [id|]; [|auto with adds].
  intros w.
  destruct (map_files w !! GameDataManager.map_file_name id) as [[v|]|].
  - apply (adds_ret v).
  - apply (adds_bind (print (MsgMapReadError map_id)) (fun _ => ret JNull));
      auto with adds.
  - apply (adds_ret JNull).
Qed.

Hint Resolve adds_get_pathfinding adds_load_map_file : adds.

Lemma adds_get_portal (d : GameDataManager.t) (current_map next_map : json) :
  adds P (GameDataManager.get_portal_to_next_map d current_map next_map).
Proof. unfold GameDataManager.get_portal_to_next_map. solve_adds. Qed.

Lemma adds_update_position (self : NostaleQuestBot.t) :
  adds P (NostaleQuestBot.update_position self).
Proof.
  unfold NostaleQuestBot.update_position.
  apply adds_bind; [apply adds_log, quiet_P; exact I|].
  intros _ w. destruct (client_player w (ticks w)) as [p|].
  - exists []. wsimpl. rewrite app_nil_r. split; [reflexivity | constructor].
  - exists [EvPrint MsgPositionError].
    split; [reflexivity | repeat constructor; apply quiet_P; exact I].
Qed.

Hint Resolve adds_get_portal adds_update_position : adds.

Hypothesis walk_P : forall x y, P (EvWalk x y).

Lemma adds_walk_to (self : NostaleQuestBot.t) (x y : json) :
  adds P (NostaleQuestBot.walk_to self x y).
Proof.
  unfold NostaleQuestBot.walk_to. apply adds_bind; [apply adds_log, walk_P|].
  intros _ w. destruct (client_walk w (ticks w)).
  - destruct (adds_update_position self (tick w)) as (t & H & F).
    exists t. split; assumption.
  - exists [EvPrint MsgWalkError].
    split; [reflexivity | repeat constructor; apply quiet_P; exact I].
Qed.

Lemma adds_arrival (self : NostaleQuestBot.t) (target_map : Z) :
  adds P (NostaleQuestBot.arrival self target_map).
Proof. unfold NostaleQuestBot.arrival. solve_adds. Qed.

Hint Resolve adds_walk_to adds_arrival : adds.

Lemma adds_hops (again : NostaleQuestBot.t -> M (bool * NostaleQuestBot.t))
    (target_map : Z) (path : json) (indices : list nat) :
  (forall s, adds P (again s)) ->
  forall self, adds P (NostaleQuestBot.hops again self target_map path indices).
Proof.
  intros Hagain. induction indices as [|i rest IH]; intros self;
    cbn [NostaleQuestBot.hops]; [auto with adds|].
  solve_adds.
Qed.

Lemma adds_follow_route
    (again : NostaleQuestBot.t -> M (bool * NostaleQuestBot.t))
    (self : NostaleQuestBot.t) (target_map : Z) (path : json) :
  (forall s, adds P (again s)) ->
  adds P (NostaleQuestBot.follow_route again self target_map path).
Proof.
  intros Hagain. unfold NostaleQuestBot.follow_route.
  pose proof (adds_hops again target_map path) as Hhops.
  solve_adds.
Qed.

Lemma adds_travel_to_map (fuel : nat) (self : NostaleQuestBot.t)
    (target_map : Z) :
  adds P (NostaleQuestBot.travel_to_map fuel self target_map).
Proof.
  revert self. induction fuel as [|fuel IH]; intros self;
    cbn [NostaleQuestBot.travel_to_map]; [auto with adds|].
  pose proof (fun s p => adds_follow_route
                (fun s' => NostaleQuestBot.travel_to_map fuel s' target_map)
                s target_map p (fun s' => IH s')) as Hfollow.
  solve_adds.
Qed.

Lemma bind_trace_prefix {A B : Type} (c : M A) (k : A -> M B) (w : world)
    (pre : list event) :
  (exists t, trace (snd (c w)) = trace w ++ pre ++ t) ->
  (forall a, adds P (k a)) ->
  exists t, trace (snd (bind c k w)) = trace w ++ pre ++ t.
Proof.
  intros Hc Hk. unfold bind.
  destruct (c w) as [[a|e|] w1]; cbn [snd] in *; [|exact Hc ..].
  destruct Hc as (t1 & H1). destruct (Hk a w1) as (t2 & H2 & _).
  exists (t1 ++ t2). rewrite H2, H1, <- !app_assoc. reflexivity.
Qed.

(** The first thing [get_pathfinding] does is to read the cache at the
    key of the pair. *)
Lemma get_pathfinding_reads_first (d : GameDataManager.t)
    (from_map : option Z) (to_map : Z) (w : world) :
  exists t,
    trace (snd (GameDataManager.get_pathfinding d from_map to_map w)) =
    trace w
    ++ [EvCacheRead "pathfinding"
          (GameDataManager.path_cache_key from_map to_map)] ++ t.
Proof.
  unfold GameDataManager.get_pathfinding. apply bind_trace_prefix.
  - rewrite get_route_eq. exists []. reflexivity.
  - unfold GameDataManager.fetch_path, GameDataManager.path_error,
      CloudflareSession.raise_for_status, CloudflareSession.response_json.
    solve_adds.
Qed.

End Adds.

Lemma walks_app (a b : list event) : walks (a ++ b) = walks a ++ walks b.
Proof.
  induction a as [|e a IH]; [reflexivity|].
  destruct e; cbn [walks app]; rewrite IH; reflexivity.
Qed.

Lemma walks_quiet (t : list event) : Forall quiet t -> walks t = [].
Proof.
  induction 1 as [|e t He _ IH]; [reflexivity|].
  destruct e; cbn [walks]; try exact IH. destruct He.
Qed.

Lemma adds_quiet_walks {A : Type} (c : M A) (w : world) :
  adds quiet c -> walks (trace (snd (c w))) = walks (trace w).
Proof.
  intros H. destruct (H w) as (t & -> & F).
  rewrite walks_app, (walks_quiet t F), app_nil_r. reflexivity.
Qed.

(** C9. When the bot is not on the target map and the route provider
    returns a list of fewer than two maps, [travel_to_map] returns [False]
    right after the lookup, and no walk command has been sent. *)
Theorem short_route_fails (fuel : nat) (self self1 : NostaleQuestBot.t)
    (target_map : Z) (w w1 w2 : world) (items : list json) (name : json) :
  NostaleQuestBot.update_position self w = (Ret self1, w1) ->
  NostaleQuestBot.on_map self1 (JNum target_map) = false ->
  GameDataManager.get_pathfinding (NostaleQuestBot.data self1)
    (NostaleQuestBot.current_map_id self1) target_map w1 = (Ret (JArr items), w2) ->
  (length items < 2)%nat ->
  GameDataManager.get_map_name (NostaleQuestBot.data self1) (JNum target_map) = Ok name ->
  NostaleQuestBot.travel_to_map (S fuel) self target_map w =
    (Ret (false, self1), emit (EvPrint (MsgNoRoute name)) w2) /\
  walks (trace (emit (EvPrint (MsgNoRoute name)) w2)) = walks (trace w).
Proof.
  intros Hpos Hon Hpath Hlen Hname. split.
  - cbn [NostaleQuestBot.travel_to_map]. rewrite (bind_eq _ _ _ _ _ Hpos), Hon.
    rewrite (bind_eq _ _ _ _ _ Hpath). unfold NostaleQuestBot.follow_route.
    assert (NostaleQuestBot.no_route (JArr items) = Ok true) as ->.
    { destruct items as [|a [|b items]]; [reflexivity ..|]. cbn in Hlen. lia. }
    rewrite Hname. reflexivity.
  - wsimpl. rewrite walks_app. cbn [walks]. rewrite app_nil_r.
    pose proof (adds_quiet_walks _ w1
                  (adds_get_pathfinding quiet (fun e H => H)
                     (NostaleQuestBot.data self1)
                     (NostaleQuestBot.current_map_id self1) target_map)) as H2.
    pose proof (adds_quiet_walks _ w
                  (adds_update_position quiet (fun e H => H) self)) as H1.
    rewrite Hpath in H2. rewrite Hpos in H1. cbn [snd] in *. congruence.
Qed.

(** C8, as amended. In the loop over the hops, when the map just polled
    is not the hop expected, the rest of the route is dropped and the
    result is that of [travel_to_map] called again for the same target
    from the state just polled.  That call polls the position once more:
    when the map polled is the target it returns [True] without any
    route lookup; otherwise it looks up the route from the map polled to
    the target (the cache is read at the key of that pair first) and
    follows it. *)
Theorem desync_restarts (fuel : nat) (self self1 : NostaleQuestBot.t)
    (target_map : Z) (path current next_map : json) (i : nat) (rest : list nat)
    (w w1 : world) :
  getindex path i = Ok current ->
  getindex path (i + 1) = Ok next_map ->
  NostaleQuestBot.update_position self w = (Ret self1, w1) ->
  NostaleQuestBot.on_map self1 current = false ->
  let again := fun s => NostaleQuestBot.travel_to_map fuel s target_map in
  let w2 := emit (EvPrint (MsgDesync current (NostaleQuestBot.current_map_id self1))) w1 in
  NostaleQuestBot.hops again self target_map path (i :: rest) w =
    NostaleQuestBot.travel_to_map fuel self1 target_map w2 /\
  forall fuel' self2 w3,
    fuel = S fuel' ->
    NostaleQuestBot.update_position self1 w2 = (Ret self2, w3) ->
    (NostaleQuestBot.on_map self2 (JNum target_map) = true ->
     forall name,
       GameDataManager.get_map_name (NostaleQuestBot.data self2) (JNum target_map) = Ok name ->
       NostaleQuestBot.travel_to_map fuel self1 target_map w2 =
         (Ret (true, self2), emit (EvPrint (MsgAlreadyThere name)) w3)) /\
    (NostaleQuestBot.on_map self2 (JNum target_map) = false ->
     NostaleQuestBot.travel_to_map fuel self1 target_map w2 =
       bind (GameDataManager.get_pathfinding (NostaleQuestBot.data self2)
               (NostaleQuestBot.current_map_id self2) target_map)
            (NostaleQuestBot.follow_route
               (fun s => NostaleQuestBot.travel_to_map fuel' s target_map)
               self2 target_map) w3 /\
     exists t,
       trace (snd (NostaleQuestBot.travel_to_map fuel self1 target_map w2)) =
       trace w3
       ++ EvCacheRead "pathfinding"
            (GameDataManager.path_cache_key
               (NostaleQuestBot.current_map_id self2) target_map) :: t).
Proof.
  intros Hcur Hnext Hpos Hoff again w2. split.
  - cbn [NostaleQuestBot.hops]. rewrite Hcur, Hnext. cbn [lift].
    unfold bind at 1. cbn [ret]. unfold bind at 1. cbn [ret].
    rewrite (bind_eq _ _ _ _ _ Hpos), Hoff. reflexivity.
  - intros fuel' self2 w3 -> Hpos2. cbn [NostaleQuestBot.travel_to_map].
    rewrite (bind_eq _ _ _ _ _ Hpos2). split.
    + intros Hon name Hname. rewrite Hon, Hname. reflexivity.
    + intros Hon. rewrite Hon. split; [reflexivity|].
      apply (bind_trace_prefix (fun _ => True) _ _ w3
               [EvCacheRead "pathfinding"
                  (GameDataManager.path_cache_key
                     (NostaleQuestBot.current_map_id self2) target_map)]).
      * apply (get_pathfinding_reads_first (fun _ => True) (fun _ _ => I)).
      * intros p. apply adds_follow_route; try (intros; exact I).
        intros s. apply adds_travel_to_map; intros; exact I.
Qed.

(** C8 as stated fails: with the route 1, 2, 3 cached and the player found
    on map 3 when hop 1 is expected, the position differs from the hop,
    the call ends with [True], and after the report of the difference the
    cache of routes is not read and the routing site is not asked. *)
Lemma desync_at_target_no_lookup :
  let r := NostaleQuestBot.travel_to_map 2 bot0 3 desync_world in
  fst r = Ret (true, NostaleQuestBot.Make no_data (Some 3) 0 0) /\
  exists before after,
    trace (snd r) =
      before ++ EvPrint (MsgDesync (JNum 1) (Some 3)) :: after /\
    cache_reads "pathfinding" before = ["1_to_3"] /\
    cache_reads "pathfinding" after = [] /\
    http_calls after = [].
Proof.
  split; [vm_compute; reflexivity|].
  exists [EvPoll; EvCacheRead "pathfinding" "1_to_3";
          EvPrint (MsgPathCached (Some 1) 3);
          EvPrint (MsgRoute ["Map 1"; "Map 2"; "Map 3"]); EvPoll],
         [EvPoll; EvPrint (MsgAlreadyThere (JStr "Map 3"))].
  split; [vm_compute; reflexivity|]. repeat split.
Qed.

Lemma short_route_fails_witness :
  fst (NostaleQuestBot.travel_to_map 1 bot0 3
         (standing_world 1)) =
  Ret (false, NostaleQuestBot.Make no_data (Some 1) 0 0).
Proof.
  pose (w := standing_world 1).
  pose (self1 := NostaleQuestBot.Make no_data (Some 1) 0 0).
  assert (fst (NostaleQuestBot.update_position bot0 w) = Ret self1) as Hf1
    by (vm_compute; reflexivity).
  pose proof (surjective_pairing (NostaleQuestBot.update_position bot0 w)) as H1.
  rewrite Hf1 in H1.
  assert (fst (GameDataManager.get_pathfinding no_data (Some 1) 3
                 (snd (NostaleQuestBot.update_position bot0 w))) = Ret (JArr []))
    as Hf2 by (vm_compute; reflexivity).
  pose proof (surjective_pairing
                (GameDataManager.get_pathfinding no_data (Some 1) 3
                   (snd (NostaleQuestBot.update_position bot0 w)))) as H2.
  rewrite Hf2 in H2.
  destruct (short_route_fails 0 bot0 self1 3 w _ _ [] (JStr "Map 3") H1
              eq_refl H2) as [Hrun _];
    [cbn; lia | vm_compute; reflexivity |].
  fold w. rewrite Hrun. reflexivity.
Defined.

Lemma desync_restarts_witness :
  NostaleQuestBot.hops (fun s => NostaleQuestBot.travel_to_map 1 s 3)
    (NostaleQuestBot.Make no_data (Some 1) 0 0) 3 route_1_2_3 [0; 1]%nat
    (standing_world 3) =
  NostaleQuestBot.travel_to_map 1 (NostaleQuestBot.Make no_data (Some 3) 0 0) 3
    (emit (EvPrint (MsgDesync (JNum 1) (Some 3)))
       (snd (NostaleQuestBot.update_position
               (NostaleQuestBot.Make no_data (Some 1) 0 0)
               (standing_world 3)))).
Proof.
  pose (w := standing_world 3).
  pose (self := NostaleQuestBot.Make no_data (Some 1) 0 0).
  pose (self1 := NostaleQuestBot.Make no_data (Some 3) 0 0).
  assert (fst (NostaleQuestBot.update_position self w) = Ret self1) as Hf1
    by (vm_compute; reflexivity).
  pose proof (surjective_pairing (NostaleQuestBot.update_position self w)) as H1.
  rewrite Hf1 in H1.
  destruct (desync_restarts 1 self self1 3 route_1_2_3 (JNum 1) (JNum 2)
              0 [1%nat] w _ eq_refl eq_refl H1 eq_refl) as [Hrun _].
  exact Hrun.
Defined.

(** ** More on the cache *)

(** X1. Writing one entry changes no other.  For cache types and keys that
    name folders and files in them, and for a different cache type or a
    different key, [get] and [exists] answer after the [set] as they did
    before, whether the save succeeds or fails. *)
Theorem set_keeps_other_entries (cache_type key cache_type' key' : string)
    (v : json) (w : world) :
  entry_names cache_type key = true ->
  entry_names cache_type' key' = true ->
  (cache_type, key) <> (cache_type', key') ->
  fst (CacheManager.get cache_type' key' (snd (CacheManager.set cache_type key v w))) =
  fst (CacheManager.get cache_type' key' w) /\
  fst (CacheManager.exists_ cache_type' key' (snd (CacheManager.set cache_type key v w))) =
  fst (CacheManager.exists_ cache_type' key' w).
Proof.
  intros _ [Hty Hkey]%entry_names_plain Hne.
  assert (cache_path cache_type' key' <> cache_path cache_type key) as Hp.
  { intros H. apply cache_path_inj in H as [-> ->]. apply Hne. reflexivity. }
  rewrite !(get_eq _ _ _ Hty Hkey), !(exists_eq _ _ _ Hty Hkey). cbn [fst].
  unfold cached. rewrite (set_other_files _ _ _ _ _ Hp). split; reflexivity.
Qed.

Lemma set_keeps_other_entries_witness :
  fst (CacheManager.get "pathfinding" "1_to_3"
         (snd (CacheManager.set "pathfinding" "3_to_1" (JNum 5) desync_world))) =
  Ret (GameDataManager.route_record (Some 1) 3 route_1_2_3).
Proof.
  destruct (set_keeps_other_entries "pathfinding" "3_to_1" "pathfinding" "1_to_3"
              (JNum 5) desync_world) as [H _];
    [reflexivity | reflexivity | discriminate |].
  rewrite H. vm_compute. reflexivity.
Defined.

(** X2. An entry whose file does not parse exists for [exists] but reads
    as [None] for [get].  A [set] of the entry that the disk takes
    replaces the file, after which [get] returns the value written; a
    [set] that fails returns all the same, and [get] still returns
    [None]. *)
Theorem unparseable_entry (cache_type key : string) (w : world) :
  entry_names cache_type key = true ->
  cache_files w !! cache_path cache_type key = Some Garbage ->
  fst (CacheManager.exists_ cache_type key w) = Ret true /\
  fst (CacheManager.get cache_type key w) = Ret JNull /\
  forall v,
    (disk_save w (ticks w) (cache_path cache_type key) = Saved ->
     fst (CacheManager.get cache_type key
            (snd (CacheManager.set cache_type key v w))) = Ret v) /\
    (disk_save w (ticks w) (cache_path cache_type key) <> Saved ->
     fst (CacheManager.set cache_type key v w) = Ret tt /\
     fst (CacheManager.get cache_type key
            (snd (CacheManager.set cache_type key v w))) = Ret JNull).
Proof.
  intros [Hty Hkey]%entry_names_plain H.
  rewrite (exists_eq _ _ _ Hty Hkey), !(get_eq _ _ _ Hty Hkey). cbn [fst].
  unfold cached at 1. rewrite H.
  split; [reflexivity|]. split; [reflexivity|].
  intros v. rewrite (set_eq _ _ _ _ Hty Hkey). cbv zeta. cbn [fst snd].
  rewrite !(get_eq _ _ _ Hty Hkey). cbn [fst]. unfold cached.
  destruct (disk_save w (ticks w) (cache_path cache_type key)); wsimpl;
    rewrite ?lookup_insert_eq, ?H; split; intros Hs;
    try discriminate Hs; try (destruct Hs; reflexivity); auto.
Qed.

Lemma unparseable_entry_witness :
  fst (CacheManager.get "pathfinding" "1_to_2" corrupt_world) = Ret JNull /\
  fst (CacheManager.get "pathfinding" "1_to_2"
         (snd (CacheManager.set "pathfinding" "1_to_2" route_1_2_3
                 corrupt_world))) = Ret route_1_2_3.
Proof.
  destruct (unparseable_entry "pathfinding" "1_to_2" corrupt_world)
    as (_ & Hg & Hset); [reflexivity | vm_compute; reflexivity |].
  split; [exact Hg|]. destruct (Hset route_1_2_3) as [Hsaved _].
  apply Hsaved. reflexivity.
Defined.

(** ** More on the static dataset *)

Lemma jlookup_entry_ok (k : string) (members : list (string * json)) (e : json) :
  forallb (fun kv => entry_ok (snd kv)) members = true ->
  jlookup k members = Some e -> entry_ok e = true.
Proof.
  induction members as [|[k' v] members IH]; cbn [forallb jlookup snd];
    [discriminate|].
  intros [Hv Hm]%andb_true_iff. destruct (String.eqb k k').
  - intros [= <-]. exact Hv.
  - exact (IH Hm).
Qed.

(** X3. When the map metadata is an object whose entries are objects with
    an object (or nothing) under ["name"], [get_map_name] returns a name
    for every integer identifier, and the name is ["Map {id}"] when the
    metadata has no entry for the identifier. *)
Theorem get_map_name_total (self : GameDataManager.t) (map_id : Z)
    (members : list (string * json)) :
  GameDataManager.maps_info self = JObj members ->
  forallb (fun kv => entry_ok (snd kv)) members = true ->
  (exists name, GameDataManager.get_map_name self (JNum map_id) = Ok name) /\
  (jlookup (pretty map_id) members = None ->
   GameDataManager.get_map_name self (JNum map_id) =
   Ok (JStr ("Map " +:+ pretty map_id))).
Proof.
  intros Hinfo Hok. unfold GameDataManager.get_map_name. cbn [py_str].
  rewrite Hinfo. cbn [get_default].
  destruct (jlookup (pretty map_id) members) as [e|] eqn:He.
  - split; [|discriminate]. apply (jlookup_entry_ok _ _ _ Hok) in He.
    cbn [rbind]. destruct e; try discriminate He. cbn [entry_ok] in He.
    cbn [get_default].
    destruct (jlookup "name" members0) as [[]|]; try discriminate He;
      cbn [rbind get_default].
    + destruct (jlookup "fr" members1); eexists; reflexivity.
    + eexists. reflexivity.
  - split; [eexists|intros _]; reflexivity.
Qed.

Lemma get_map_name_total_witness :
  GameDataManager.get_map_name no_data (JNum 20) = Ok (JStr "Map 20").
Proof.
  destruct (get_map_name_total no_data 20 [] eq_refl eq_refl) as [_ H].
  exact (H eq_refl).
Defined.

(** X4. Without [monsters.json] and without [maps.json] the data manager
    starts with two empty indexes and empty metadata, and raises nothing;
    the cache is not touched. *)
Theorem init_without_files (cf : CloudflareSession.t) (w : world) :
  data_files w !! "monsters.json" = None ->
  data_files w !! "maps.json" = None ->
  exists w',
    GameDataManager.init cf w =
      (Ret (GameDataManager.Make cf (GameDataManager.Dict [])
              (GameDataManager.Dict []) (JObj [])), w') /\
    cache_files w' = cache_files w /\
    maps_folder_exists w' = true.
Proof.
  intros Hm Hi.
  unfold GameDataManager.init, GameDataManager.load_all_data,
    GameDataManager.load_table, GameDataManager.load_maps_info,
    GameDataManager.check_maps_folder, NPCS_JSON, MONSTERS_JSON, MAPS_JSON.
  mrun. wsimpl. rewrite Hm. cbn [GameDataManager.npcs_data
    GameDataManager.monsters_data GameDataManager.maps_info
    GameDataManager.cf_session]. rewrite Hm, Hi.
  destruct (maps_folder_exists w) eqn:Hf; eexists;
    (split; [reflexivity|]); wsimpl; auto.
Qed.

Lemma init_without_files_witness :
  fst (GameDataManager.init session0 empty_world) = Ret no_data.
Proof.
  destruct (init_without_files session0 empty_world) as (w' & H & _);
    [vm_compute; reflexivity ..|].
  rewrite H. reflexivity.
Defined.

Lemma load_table_raise (what path : string) (cur : GameDataManager.table)
    (w : world) (e : exn) :
  table_in (data_files w) path cur = Raise e ->
  GameDataManager.load_table what path cur w = (Raise e, w).
Proof.
  unfold table_in, GameDataManager.load_table.
  destruct (data_files w !! path) as [[v|]|]; try discriminate.
  - unfold GameDataManager.read_json. mrun.
    destruct (GameDataManager.table_of v) as [tb|e']; [|congruence].
    destruct (GameDataManager.table_len tb); [discriminate | congruence].
  - intros [= <-]. reflexivity.
Qed.

(** X5. When [monsters.json] cannot be parsed, indexed or counted, the
    data manager is not built: the loader prints its error line and raises
    the exception again. *)
Theorem init_reports_bad_file (cf : CloudflareSession.t) (w : world) (e : exn) :
  table_in (data_files w) "monsters.json" (GameDataManager.Dict []) = Raise e ->
  GameDataManager.init cf w = (Raise e, emit (EvPrint MsgDataLoadError) w).
Proof.
  intros H. unfold GameDataManager.init, GameDataManager.load_all_data.
  cbn [GameDataManager.npcs_data]. unfold try_except, bind at 1.
  change NPCS_JSON with "monsters.json".
  rewrite (load_table_raise "npcs" _ _ _ _ H). reflexivity.
Qed.

Lemma init_reports_bad_file_witness :
  fst (GameDataManager.init session0 broken_data_world) = Raise JSONDecodeError.
Proof.
  rewrite (init_reports_bad_file session0 broken_data_world JSONDecodeError);
    [reflexivity | vm_compute; reflexivity].
Defined.

(** ** The index by identifier *)

Lemma py_eq_refl_hashable (k : json) :
  GameDataManager.hashable k = true -> py_eq k k = true.
Proof.
  destruct k; cbn; try discriminate; intros _.
  - reflexivity.
  - destruct b; reflexivity.
  - apply Z.eqb_refl.
  - apply String.eqb_refl.
Qed.

Lemma dict_set_keys (k k0 v : json) (d : list (json * json)) :
  py_eq k0 k = false ->
  Forall (fun b => py_eq k0 (fst b) = false) d ->
  Forall (fun b => py_eq k0 (fst b) = false) (GameDataManager.dict_set k v d).
Proof.
  intros Hk. induction 1 as [|[k' v'] d Hb Hd IH]; cbn [GameDataManager.dict_set].
  - repeat constructor. exact Hk.
  - destruct (py_eq k' k); constructor; assumption.
Qed.

Lemma dict_set_distinct (k v : json) (d : list (json * json)) :
  distinct_keys d -> distinct_keys (GameDataManager.dict_set k v d).
Proof.
  unfold distinct_keys.
  induction 1 as [|[k' v'] d Hall Hd IH]; cbn [GameDataManager.dict_set].
  - repeat constructor.
  - destruct (py_eq k' k) eqn:E.
    + constructor; [exact Hall | exact Hd].
    + constructor; [|exact IH]. apply dict_set_keys; assumption.
Qed.

Lemma dict_set_indexed (records : list json) (k r : json)
    (d : list (json * json)) :
  In r records -> getitem r "id" = Ok k -> py_eq k k = true ->
  Forall (indexed records) d ->
  Forall (indexed records) (GameDataManager.dict_set k r d).
Proof.
  intros Hin Hid Hrefl. induction 1 as [|[k' v'] d Hkv Hd IH];
    cbn [GameDataManager.dict_set].
  - repeat constructor; [exact Hin | exists k; auto].
  - destruct (py_eq k' k) eqn:E; constructor; try assumption.
    split; [exact Hin | exists k; auto].
Qed.

Lemma index_by_id_inv (all records : list json) (acc d : list (json * json)) :
  (forall r, In r records -> In r all) ->
  distinct_keys acc -> Forall (indexed all) acc ->
  GameDataManager.index_by_id records acc = Ok d ->
  distinct_keys d /\ Forall (indexed all) d /\
  (length d <= length acc + length records)%nat.
Proof.
  revert acc. induction records as [|r records IH]; intros acc Hsub Hd Hi;
    cbn [GameDataManager.index_by_id].
  - intros [= <-]. cbn [length]. repeat split; [assumption ..|lia].
  - destruct (getitem r "id") as [k|] eqn:Hid; cbn [rbind]; [|discriminate].
    destruct (GameDataManager.hashable k) eqn:Hh; [|discriminate].
    intros H. apply IH in H as (H1 & H2 & H3).
    + repeat split; [assumption ..|].
      assert (length (GameDataManager.dict_set k r acc) <= S (length acc))%nat.
      { clear. induction acc as [|[k' v'] acc IHa]; cbn [GameDataManager.dict_set length];
          [lia|]. destruct (py_eq k' k); cbn [length]; lia. }
      cbn [length]. lia.
    + intros r' Hr'. apply Hsub. right. exact Hr'.
    + apply dict_set_distinct. exact Hd.
    + apply dict_set_indexed; try assumption.
      * apply Hsub. left. reflexivity.
      * apply py_eq_refl_hashable. exact Hh.
Qed.

(** X6. The index the loader builds from a list of records has pairwise
    different keys, holds at most one entry per record, and each entry
    maps the ["id"] of one of the records to that record. *)
Theorem index_by_id_sound (records : list json) (d : list (json * json)) :
  GameDataManager.index_by_id records [] = Ok d ->
  distinct_keys d /\
  Forall (indexed records) d /\
  (length d <= length records)%nat.
Proof.
  intros H. apply (index_by_id_inv records) in H.
  - exact H.
  - auto.
  - constructor.
  - constructor.
Qed.

Lemma index_by_id_sound_witness :
  distinct_keys [(JNum 4013, JObj [("id", JNum 4013); ("name", JStr "b")]);
                 (JNum 333, slime)].
Proof.
  apply (index_by_id_sound
           [JObj [("id", JNum 4013)]; slime;
            JObj [("id", JNum 4013); ("name", JStr "b")]]).
  vm_compute. reflexivity.
Defined.

(** ** Searching by name *)

(** X7. The name search returns the first record that matches: records
    before it that do not match are passed over, records after it are not
    looked at; without any match it returns [None]. *)
Theorem find_by_name_first (p : string) (before after : list json)
    (r : json) (s : string) :
  Forall (unmatched p) before ->
  GameDataManager.find_by_name p before = Ok JNull /\
  (GameDataManager.fr_name_lower r = Ok s ->
   GameDataManager.name_matches p s = true ->
   GameDataManager.find_by_name p (before ++ r :: after) = Ok r).
Proof.
  induction 1 as [|b before (sb & Hb & Hn) _ [IH1 IH2]].
  - split; [reflexivity|]. intros Hs Hm. cbn [app GameDataManager.find_by_name].
    rewrite Hs. cbn [rbind]. rewrite Hm. reflexivity.
  - cbn [app GameDataManager.find_by_name]. rewrite Hb. cbn [rbind].
    rewrite Hn. split; [exact IH1 | exact IH2].
Qed.

Lemma find_by_name_first_witness :
  GameDataManager.find_by_name "koa" ([slime] ++ koaren :: [slime]) = Ok koaren.
Proof.
  destruct (find_by_name_first "koa" [slime] [slime] koaren "chef koaren")
    as [_ H].
  - repeat constructor. exists "slime". split; vm_compute; reflexivity.
  - apply H; vm_compute; reflexivity.
Defined.

(** ** Placements and portals of one map *)

Lemma find_placement_none (v : Z) (npcs : list json) :
  Forall (placed v false) npcs -> GameDataManager.find_placement v npcs = Ok None.
Proof.
  induction 1 as [|npc npcs (vnum & Hv & Hne) _ IH]; [reflexivity|].
  cbn [GameDataManager.find_placement]. rewrite Hv. cbn [rbind].
  rewrite Hne. exact IH.
Qed.

Lemma find_placement_first (v : Z) (before after : list json) (npc x y : json) :
  Forall (placed v false) before ->
  placed v true npc ->
  getitem npc "x" = Ok x -> getitem npc "y" = Ok y ->
  GameDataManager.find_placement v (before ++ npc :: after) = Ok (Some (x, y)).
Proof.
  intros Hb (vnum & Hv & He) Hx Hy.
  induction Hb as [|n before (vn & Hvn & Hne) _ IH]; cbn [app GameDataManager.find_placement].
  - rewrite Hv. cbn [rbind]. rewrite He, Hx, Hy. reflexivity.
  - rewrite Hvn. cbn [rbind]. rewrite Hne. exact IH.
Qed.

(** X9. [find_npc_on_map] loads the map file once and changes no file; it
    returns the coordinates of the first placement of the entity on the
    map, and [None] when the map has no usable file or no placement of the
    entity. *)
Theorem find_npc_on_map_first (self : GameDataManager.t) (m v : Z) (w : world) :
  (lacks_npc v (map_document w m) ->
   fst (GameDataManager.find_npc_on_map self (JNum m) v w) = Ret None) /\
  (forall x y,
     first_npc_at v (map_document w m) x y ->
     fst (GameDataManager.find_npc_on_map self (JNum m) v w) = Ret (Some (x, y))) /\
  later w (snd (GameDataManager.find_npc_on_map self (JNum m) v w)) [JNum m].
Proof.
  destruct (load_map_file_int self m w) as (w1 & Hload & Hl).
  unfold GameDataManager.find_npc_on_map. rewrite (bind_eq _ _ _ _ _ Hload).
  split; [|split].
  - intros [Hf | (npcs & Hn & Hall)].
    + rewrite Hf. reflexivity.
    + destruct (truthy (map_document w m)); [|reflexivity].
      cbn [negb]. rewrite Hn. mrun. cbn [py_iter].
      rewrite (find_placement_none v npcs Hall). reflexivity.
  - intros x y (Ht & before & npc & after & Hn & Hb & Hp & Hx & Hy).
    rewrite Ht. cbn [negb]. rewrite Hn. mrun. cbn [py_iter].
    rewrite (find_placement_first v before after npc x y Hb Hp Hx Hy).
    reflexivity.
  - destruct (negb (truthy (map_document w m))); [exact Hl|].
    mrun. destruct (get_default (map_document w m) "npcs" (JArr [])) as [f|];
      [|exact Hl].
    destruct (py_iter f) as [l|]; [|exact Hl].
    destruct (GameDataManager.find_placement v l); exact Hl.
Qed.

Lemma find_npc_on_map_first_witness :
  fst (GameDataManager.find_npc_on_map no_data (JNum 20) 4013 scenario_world) =
  Ret (Some (JNum 45, JNum 60)).
Proof.
  destruct (find_npc_on_map_first no_data 20 4013 scenario_world) as (_ & H & _).
  apply H. split; [vm_compute; reflexivity|].
  exists [JObj [("vnum", JNum 12); ("x", JNum 3); ("y", JNum 4)]],
         (JObj [("vnum", JNum 4013); ("x", JNum 45); ("y", JNum 60)]), [].
  split; [vm_compute; reflexivity|].
  split; [repeat constructor; eexists; split; reflexivity|].
  split; [eexists; split; reflexivity|]. split; reflexivity.
Defined.

Lemma find_portal_none (next_map : json) (portals : list json) :
  Forall (leads_to next_map false) portals ->
  GameDataManager.find_portal next_map portals = Ok None.
Proof.
  induction 1 as [|p portals (d & Hd & Hne) _ IH]; [reflexivity|].
  cbn [GameDataManager.find_portal]. rewrite Hd. cbn [rbind].
  rewrite Hne. exact IH.
Qed.

Lemma find_portal_first (next_map : json) (before after : list json)
    (p x y : json) :
  Forall (leads_to next_map false) before ->
  leads_to next_map true p ->
  getitem p "source_map_x" = Ok x -> getitem p "source_map_y" = Ok y ->
  GameDataManager.find_portal next_map (before ++ p :: after) = Ok (Some (x, y)).
Proof.
  intros Hb (d & Hd & He) Hx Hy.
  induction Hb as [|q before (dq & Hdq & Hne) _ IH]; cbn [app GameDataManager.find_portal].
  - rewrite Hd. cbn [rbind]. rewrite He, Hx, Hy. reflexivity.
  - rewrite Hdq. cbn [rbind]. rewrite Hne. exact IH.
Qed.

(** X10. [get_portal_to_next_map] returns the source coordinates of the
    first portal of the current map that leads to the next map, whatever
    portals follow it; it returns [None] when the current map has no
    usable file and when none of its portals leads to the next map. *)
Theorem portal_first_match (self : GameDataManager.t) (m : Z) (next_map : json)
    (w : world) :
  (truthy (map_document w m) = false ->
   fst (GameDataManager.get_portal_to_next_map self (JNum m) next_map w) = Ret None) /\
  (forall portals,
     get_default (map_document w m) "portals" (JArr []) = Ok (JArr portals) ->
     Forall (leads_to next_map false) portals ->
     fst (GameDataManager.get_portal_to_next_map self (JNum m) next_map w) = Ret None) /\
  (forall before p after x y,
     truthy (map_document w m) = true ->
     get_default (map_document w m) "portals" (JArr []) =
       Ok (JArr (before ++ p :: after)) ->
     Forall (leads_to next_map false) before ->
     leads_to next_map true p ->
     getitem p "source_map_x" = Ok x ->
     getitem p "source_map_y" = Ok y ->
     fst (GameDataManager.get_portal_to_next_map self (JNum m) next_map w) =
     Ret (Some (x, y))).
Proof.
  destruct (load_map_file_int self m w) as (w1 & Hload & Hl).
  unfold GameDataManager.get_portal_to_next_map.
  rewrite (bind_eq _ _ _ _ _ Hload). split; [|split].
  - intros ->. reflexivity.
  - intros portals Hp Hall. destruct (truthy (map_document w m)); [|reflexivity].
    cbn [negb]. rewrite Hp. mrun. cbn [py_iter].
    rewrite (find_portal_none next_map portals Hall). reflexivity.
  - intros before p after x y Ht Hp Hb Hlead Hx Hy.
    rewrite Ht. cbn [negb]. rewrite Hp. mrun. cbn [py_iter].
    rewrite (find_portal_first next_map before after p x y Hb Hlead Hx Hy).
    reflexivity.
Qed.

Lemma portal_first_match_witness :
  fst (GameDataManager.get_portal_to_next_map no_data (JNum 1) (JNum 2)
         portal_world) = Ret (Some (JNum 10, JNum 20)).
Proof.
  destruct (portal_first_match no_data 1 (JNum 2) portal_world) as (_ & _ & H).
  apply (H [JObj [("destination_map_id", JNum 5);
                  ("source_map_x", JNum 9); ("source_map_y", JNum 9)]]
           (JObj [("destination_map_id", JNum 2);
                  ("source_map_x", JNum 10); ("source_map_y", JNum 20)])
           [JObj [("destination_map_id", JNum 2);
                  ("source_map_x", JNum 30); ("source_map_y", JNum 40)]]).
  - vm_compute. reflexivity.
  - vm_compute. reflexivity.
  - repeat constructor. eexists. split; reflexivity.
  - eexists. split; reflexivity.
  - reflexivity.
  - reflexivity.
Defined.

(** ** More on the route provider *)

(** The world after a route was answered from the cache. *)
Lemma get_pathfinding_hit_eq (d : GameDataManager.t) (from_map : option Z)
    (to_map : Z) (w : world) (c path : json) :
  cache_files w !! cache_path "pathfinding"
                     (GameDataManager.path_cache_key from_map to_map) = Some (Doc c) ->
  truthy c = true ->
  get_default c "path" (JArr []) = Ok path ->
  GameDataManager.get_pathfinding d from_map to_map w =
  (Ret path,
   emit (EvPrint (MsgPathCached from_map to_map))
     (emit (EvCacheRead "pathfinding" (GameDataManager.path_cache_key from_map to_map))
        (with_cache_dirs ({["pathfinding"]} ∪ cache_dirs w) w))).
Proof.
  intros Hc Ht Hp. unfold GameDataManager.get_pathfinding.
  rewrite (bind_eq _ _ _ _ _ (get_route_eq _ _ _)). unfold cached. rewrite Hc, Ht, Hp.
  reflexivity.
Qed.

(** X11. A route found in the cache is returned without a request to the
    routing site and without a change to the cache files; an entry without
    a ["path"] member gives the empty route. *)
Theorem cached_route_no_request (self : GameDataManager.t)
    (from_map : option Z) (to_map : Z) (w : world) (path : json) :
  truthy (cached (cache_files w) "pathfinding"
            (GameDataManager.path_cache_key from_map to_map)) = true ->
  get_default (cached (cache_files w) "pathfinding"
                 (GameDataManager.path_cache_key from_map to_map))
    "path" (JArr []) = Ok path ->
  exists w',
    GameDataManager.get_pathfinding self from_map to_map w = (Ret path, w') /\
    http_calls (trace w') = http_calls (trace w) /\
    cache_files w' = cache_files w /\
    ticks w' = ticks w /\
    (getitem (cached (cache_files w) "pathfinding"
                (GameDataManager.path_cache_key from_map to_map)) "path"
       = Err KeyError -> path = JArr []).
Proof.
  intros Ht Hp. unfold GameDataManager.get_pathfinding.
  rewrite (bind_eq _ _ _ _ _ (get_route_eq _ _ _)). rewrite Ht, Hp.
  eexists. split; [reflexivity|]. wsimpl. rewrite !http_calls_app.
  cbn [http_calls]. rewrite !app_nil_r. repeat split.
  destruct (cached (cache_files w) "pathfinding"
              (GameDataManager.path_cache_key from_map to_map));
    cbn [getitem get_default] in *; try discriminate.
  destruct (jlookup "path" members); [discriminate|]. congruence.
Qed.

Lemma cached_route_no_request_witness :
  fst (GameDataManager.get_pathfinding no_data (Some 1) 3 desync_world) =
  Ret route_1_2_3.
Proof.
  destruct (cached_route_no_request no_data (Some 1) 3 desync_world route_1_2_3)
    as (w' & H & _); [vm_compute; reflexivity ..|].
  rewrite H. reflexivity.
Defined.

Lemma set_route_ret (m : option Z) (n : Z) (v : json) (w : world) :
  CacheManager.set "pathfinding" (GameDataManager.path_cache_key m n) v w =
  (Ret tt,
   snd (CacheManager.set "pathfinding" (GameDataManager.path_cache_key m n) v w)).
Proof. rewrite set_route_eq. reflexivity. Qed.

(** The run of [get_pathfinding] when nothing usable is cached and the
    site answers with an object and no error status, up to the save. *)
Lemma fetch_eq (self : GameDataManager.t) (from_map : option Z) (to_map : Z)
    (w : world) (c : Z) (body path : json) :
  truthy (cached (cache_files w) "pathfinding"
            (GameDataManager.path_cache_key from_map to_map)) = false ->
  reply_at w (GameDataManager.path_url from_map to_map) = Response c (Some body) ->
  ~ 400 <= c < 600 ->
  get_default body "path" (JArr []) = Ok path ->
  exists w1,
    GameDataManager.get_pathfinding self from_map to_map w =
      (Ret path,
       emit (EvPrint MsgPathFetched)
         (snd (CacheManager.set "pathfinding"
                 (GameDataManager.path_cache_key from_map to_map)
                 (GameDataManager.route_record from_map to_map path) w1))) /\
    cache_files w1 = cache_files w /\
    http_calls (trace w1) =
      http_calls (trace w) ++ [GameDataManager.path_url from_map to_map] /\
    ticks w1 = S (S (ticks w)) /\
    disk_save w1 = disk_save w.
Proof.
  intros Hmiss Hreply Hc Hpath.
  assert ((400 <=? c) && (c <? 600) = false) as Hs
    by (apply not_true_is_false;
        intros [?%Z.leb_le ?%Z.ltb_lt]%andb_true_iff; lia).
  run_get_pathfinding. rewrite Hmiss.
  destruct (CloudflareSession.cookie_lifetime _ <? _); wsimpl;
    rewrite Hreply; cbn [fst snd]; rewrite Hs, Hpath, set_route_ret;
    (eexists; split; [reflexivity|]); wsimpl;
    (split; [reflexivity|]);
    rewrite !http_calls_app; cbn [http_calls];
    rewrite ?app_nil_r, <- ?app_assoc; auto.
Qed.

(** X12. When nothing usable is cached, the routing site answers with an
    object and no error status, and the disk takes the save,
    [get_pathfinding] returns the ["path"] of the answer (the empty list
    when it has none), stores it with the pair under the key of the pair,
    and answers the next call for the pair with the same route without
    asking the site again. *)
Theorem fetched_route_memoized (self : GameDataManager.t)
    (from_map : option Z) (to_map : Z) (w : world) (c : Z) (body path : json) :
  truthy (cached (cache_files w) "pathfinding"
            (GameDataManager.path_cache_key from_map to_map)) = false ->
  reply_at w (GameDataManager.path_url from_map to_map) = Response c (Some body) ->
  ~ 400 <= c < 600 ->
  get_default body "path" (JArr []) = Ok path ->
  route_save w from_map to_map = Saved ->
  exists w',
    GameDataManager.get_pathfinding self from_map to_map w = (Ret path, w') /\
    cache_files w' =
      <[cache_path "pathfinding" (GameDataManager.path_cache_key from_map to_map) :=
          Doc (JObj [("from", of_opt_int from_map); ("to", JNum to_map);
                     ("path", path)])]> (cache_files w) /\
    http_calls (trace w') =
      http_calls (trace w) ++ [GameDataManager.path_url from_map to_map] /\
    exists w'',
      GameDataManager.get_pathfinding self from_map to_map w' = (Ret path, w'') /\
      http_calls (trace w'') = http_calls (trace w') /\
      cache_files w'' = cache_files w'.
Proof.
  intros Hmiss Hreply Hc Hpath Hsave.
  destruct (fetch_eq self from_map to_map w c body path Hmiss Hreply Hc Hpath)
    as (w1 & Hrun & Hfiles1 & Hcalls1 & Hticks1 & Hdisk1).
  assert (exists w',
    GameDataManager.get_pathfinding self from_map to_map w = (Ret path, w') /\
    cache_files w' =
      <[cache_path "pathfinding" (GameDataManager.path_cache_key from_map to_map) :=
          Doc (GameDataManager.route_record from_map to_map path)]> (cache_files w) /\
    http_calls (trace w') =
      http_calls (trace w) ++ [GameDataManager.path_url from_map to_map])
    as (w' & Hrun' & Hfiles & Hcalls).
  { eexists. split; [exact Hrun|]. rewrite set_route_eq. cbv zeta.
    rewrite Hdisk1, Hticks1. unfold route_save in Hsave. rewrite Hsave. wsimpl.
    rewrite Hfiles1. split; [reflexivity|].
    rewrite !http_calls_app. cbn [http_calls]. rewrite !app_nil_r. exact Hcalls1. }
  exists w'. split; [exact Hrun'|]. split; [exact Hfiles|]. split; [exact Hcalls|].
  eexists. split.
  - apply (get_pathfinding_hit_eq self from_map to_map w'
             (GameDataManager.route_record from_map to_map path) path);
      [rewrite Hfiles; apply lookup_insert_eq | reflexivity | reflexivity].
  - wsimpl. rewrite !http_calls_app. cbn [http_calls]. rewrite !app_nil_r. auto.
Qed.

Lemma fetched_route_memoized_witness :
  exists w',
    GameDataManager.get_pathfinding no_data (Some 1) 3 routing_world =
      (Ret route_1_2_3, w') /\
    fst (GameDataManager.get_pathfinding no_data (Some 1) 3 w') = Ret route_1_2_3.
Proof.
  destruct (fetched_route_memoized no_data (Some 1) 3 routing_world 200
              (JObj [("path", route_1_2_3)]) route_1_2_3)
    as (w' & Hrun & _ & _ & w'' & Hrun' & _);
    [reflexivity | reflexivity | lia | reflexivity | reflexivity |].
  exists w'. split; [exact Hrun|]. rewrite Hrun'. reflexivity.
Defined.

(** X13. A cached route entry that is not an object is not skipped: when
    the entry is a list, a number, a string or [True], [get_pathfinding]
    raises [AttributeError] without asking the routing site and without
    repairing the entry. *)
Theorem cached_non_object_raises (self : GameDataManager.t)
    (from_map : option Z) (to_map : Z) (w : world) (e : exn) :
  truthy (cached (cache_files w) "pathfinding"
            (GameDataManager.path_cache_key from_map to_map)) = true ->
  get_default (cached (cache_files w) "pathfinding"
                 (GameDataManager.path_cache_key from_map to_map))
    "path" (JArr []) = Err e ->
  exists w',
    GameDataManager.get_pathfinding self from_map to_map w =
      (Raise AttributeError, w') /\
    http_calls (trace w') = http_calls (trace w) /\
    cache_files w' = cache_files w.
Proof.
  intros Ht Hp. pose proof (get_default_err _ _ _ _ Hp) as ->.
  unfold GameDataManager.get_pathfinding.
  rewrite (bind_eq _ _ _ _ _ (get_route_eq _ _ _)). rewrite Ht, Hp.
  eexists. split; [reflexivity|]. wsimpl. rewrite !http_calls_app.
  cbn [http_calls]. rewrite !app_nil_r. auto.
Qed.

Lemma cached_non_object_raises_witness :
  fst (GameDataManager.get_pathfinding no_data (Some 1) 3 list_cached_world) =
  Raise AttributeError.
Proof.
  destruct (cached_non_object_raises no_data (Some 1) 3 list_cached_world
              AttributeError) as (w' & H & _); [vm_compute; reflexivity ..|].
  rewrite H. reflexivity.
Defined.

(** X14. A route lookup for one pair of maps leaves the cached routes of
    every other pair and the whole location cache as they were. *)
Theorem route_lookup_keeps_other_entries (self : GameDataManager.t)
    (from_map from_map' : option Z) (to_map to_map' : Z) (w : world) :
  (from_map', to_map') <> (from_map, to_map) ->
  cached (cache_files (snd (GameDataManager.get_pathfinding self from_map to_map w)))
    "pathfinding" (GameDataManager.path_cache_key from_map' to_map') =
  cached (cache_files w) "pathfinding"
    (GameDataManager.path_cache_key from_map' to_map') /\
  forall key,
    cached (cache_files (snd (GameDataManager.get_pathfinding self from_map to_map w)))
      "npc_locations" key =
    cached (cache_files w) "npc_locations" key.
Proof.
  intros Hne. split; [|intros key]; unfold cached;
    rewrite get_pathfinding_writes_own_key; try reflexivity.
  - intros [_ H]%cache_path_inj. apply path_cache_key_inj in H as [-> ->].
    apply Hne. reflexivity.
  - intros [H _]%cache_path_inj. discriminate H.
Qed.

Lemma route_lookup_keeps_other_entries_witness :
  cached (cache_files (snd (GameDataManager.get_pathfinding no_data (Some 3) 1
                              desync_world)))
    "pathfinding" (GameDataManager.path_cache_key (Some 1) 3) =
  cached (cache_files desync_world) "pathfinding"
    (GameDataManager.path_cache_key (Some 1) 3).
Proof.
  apply (route_lookup_keeps_other_entries no_data (Some 3) (Some 1) 1 3 desync_world).
  discriminate.
Defined.

(** ** More on the location resolver *)

Lemma scan_npcs_raise (self : GameDataManager.t) (i v : Z)
    (before after : list json) (bad : json) (e : exn) (w : world) :
  Forall (placed v false) before ->
  getitem bad "vnum" = Err e ->
  GameDataManager.scan_npcs self i v (before ++ bad :: after) w = (Raise e, w).
Proof.
  intros Hb He. induction Hb as [|n before (vn & Hvn & Hne) _ IH];
    cbn [app GameDataManager.scan_npcs].
  - rewrite He. reflexivity.
  - rewrite Hvn. cbn [lift]. unfold bind at 1. cbn [ret]. rewrite Hne. exact IH.
Qed.

Lemma scan_maps_prefix (self : GameDataManager.t) (v : Z) (pre rest : list Z)
    (w : world) :
  (forall i, In i pre -> lacks_npc v (map_document w i)) ->
  exists w1,
    GameDataManager.scan_maps self v (pre ++ rest) w =
    GameDataManager.scan_maps self v rest w1 /\
    later w w1 (JNum <$> pre).
Proof.
  revert w. induction pre as [|i pre IH]; intros w Hall.
  - exists w. split; [reflexivity|]. unfold later. rewrite app_nil_r. auto.
  - destruct (scan_maps_step_lacks self v i (pre ++ rest) w) as (w1 & Hstep & Hl1);
      [apply Hall; left; reflexivity|].
    destruct (IH w1) as (w2 & Hrun & Hl2).
    { intros j Hj. rewrite (map_document_later _ _ _ _ Hl1).
      apply Hall. right. exact Hj. }
    exists w2. split; [cbn [app]; rewrite Hstep; exact Hrun|].
    exact (later_trans _ _ _ _ _ Hl1 Hl2).
Qed.

(** X15. A placement that cannot be read stops the search: when the scan
    meets, on a map [m], a placement without a usable ["vnum"] before any
    placement of the entity, [search_npc_location] raises the exception of
    that read, whatever the maps after [m] hold, and caches nothing. *)
Theorem unreadable_placement_aborts (self : GameDataManager.t) (v m : Z)
    (before after : list json) (bad : json) (e : exn) (w : world) :
  truthy (cached (cache_files w) "npc_locations"
            (GameDataManager.npc_cache_key v)) = false ->
  1 <= m <= 412 ->
  (forall i, 1 <= i < m -> lacks_npc v (map_document w i)) ->
  truthy (map_document w m) = true ->
  get_default (map_document w m) "npcs" (JArr []) =
    Ok (JArr (before ++ bad :: after)) ->
  Forall (placed v false) before ->
  getitem bad "vnum" = Err e ->
  exists w',
    GameDataManager.search_npc_location self v w = (Raise e, w') /\
    cache_files w' = cache_files w /\
    map_loads (trace w') = map_loads (trace w) ++ (JNum <$> seqZ 1 m).
Proof.
  intros Hmiss Hm Hbefore Ht Hn Hb He.
  destruct (search_miss self v w Hmiss) as (w0 & Hsearch & Hl0).
  rewrite Hsearch, (map_range_split m Hm).
  destruct (scan_maps_prefix self v (seqZ 1 (m - 1))
              (m :: seqZ (m + 1) (412 - m)) w0) as (w1 & Hrun & Hl1).
  { intros i Hi%list_elem_of_In%elem_of_seqZ.
    rewrite (map_document_later _ _ _ _ Hl0). apply Hbefore. lia. }
  pose proof (later_trans _ _ _ _ _ Hl0 Hl1) as Hl.
  destruct (load_map_file_int self m w1) as (w2 & Hload & Hl2).
  pose proof (later_trans _ _ _ _ _ Hl Hl2) as (Hc & _ & Hloads).
  rewrite Hrun. cbn [GameDataManager.scan_maps].
  rewrite (bind_eq _ _ _ _ _ Hload), (map_document_later _ _ _ _ Hl), Ht.
  cbn [negb]. rewrite Hn. mrun. cbn [py_iter].
  rewrite (scan_npcs_raise self m v before after bad e w2 Hb He).
  exists w2. split; [reflexivity|]. split; [exact Hc|].
  rewrite Hloads. cbn [app]. f_equal.
  replace m with ((m - 1) + 1) at 3 by lia.
  rewrite seqZ_app by lia. cbn [seqZ].
  replace (1 + (m - 1)) with m by lia.
  rewrite fmap_app. reflexivity.
Qed.

Lemma unreadable_placement_aborts_witness :
  fst (GameDataManager.search_npc_location no_data 4013 unreadable_world) =
  Raise KeyError.
Proof.
  destruct (unreadable_placement_aborts no_data 4013 1 []
              [] (JObj [("x", JNum 1); ("y", JNum 1)]) KeyError unreadable_world)
    as (w' & H & _).
  - reflexivity.
  - lia.
  - intros i Hi. lia.
  - vm_compute. reflexivity.
  - vm_compute. reflexivity.
  - constructor.
  - reflexivity.
  - rewrite H. reflexivity.
Defined.

(** ** Which cache files a call can change *)

Create HintDb confined.

Section Confined.

Variable own : string * string -> Prop.

Lemma confined_same {A : Type} (c : M A) :
  (forall w, cache_files (snd (c w)) = cache_files w) -> confined own c.
Proof. intros H w q _. rewrite H. reflexivity. Qed.

Lemma confined_ret {A : Type} (a : A) : confined own (ret a).
Proof. apply confined_same. reflexivity. Qed.

Lemma confined_raise {A : Type} (e : exn) : confined own (@raise A e).
Proof. apply confined_same. reflexivity. Qed.

Lemma confined_out_of_fuel {A : Type} : confined own (@out_of_fuel A).
Proof. apply confined_same. reflexivity. Qed.

Lemma confined_lift {A : Type} (r : result A) : confined own (lift r).
Proof. destruct r; [apply confined_ret | apply confined_raise]. Qed.

Lemma confined_log (e : event) : confined own (log e).
Proof. apply confined_same. reflexivity. Qed.

Lemma confined_print (m : message) : confined own (print m).
Proof. apply confined_log. Qed.

Lemma confined_bind {A B : Type} (c : M A) (k : A -> M B) :
  confined own c -> (forall a, confined own (k a)) -> confined own (bind c k).
Proof.
  intros Hc Hk w q Hq. unfold bind. specialize (Hc w q Hq).
  destruct (c w) as [[a|e|] w1]; cbn [snd] in *; [|exact Hc ..].
  rewrite (Hk a w1 q Hq). exact Hc.
Qed.

Lemma confined_try {A : Type} (c : M A) (h : exn -> M A) :
  confined own c -> (forall e, confined own (h e)) -> confined own (try_except c h).
Proof.
  intros Hc Hh w q Hq. unfold try_except. specialize (Hc w q Hq).
  destruct (c w) as [[a|e|] w1]; cbn [snd] in *; [exact Hc | | exact Hc].
  rewrite (Hh e w1 q Hq). exact Hc.
Qed.

Hint Resolve confined_ret confined_raise confined_out_of_fuel confined_lift
  confined_log confined_print confined_bind confined_try : confined.

Ltac solve_confined :=
  repeat (intros;
    match goal with
    | |- confined _ (bind _ _) => apply confined_bind
    | |- confined _ (try_except _ _) => apply confined_try
    | |- confined _ (if ?b then _ else _) => destruct b
    | |- confined _ (match ?x with _ => _ end) => destruct x
    | |- confined _ _ => solve [auto with confined]
    end).

Lemma confined_cache_get (ty key : string) : confined own (CacheManager.get ty key).
Proof.
  apply confined_same. intros w.
  unfold CacheManager.get, CacheManager.get_cache_file.
  destruct (folder_name ty && name_text key); mrun; wsimpl; [|reflexivity].
  destruct (cache_files w !! (ty, key +:+ ".json")) as [[v|]|]; reflexivity.
Qed.

Lemma confined_cache_set (ty key : string) (v : json) :
  own (cache_path ty key) -> confined own (CacheManager.set ty key v).
Proof.
  intros Hs w q Hq. apply set_other_files. intros ->. exact (Hq Hs).
Qed.

Lemma confined_cf_get (cf : CloudflareSession.t) (url : string) :
  confined own (CloudflareSession.get cf url).
Proof.
  apply confined_same. intros w.
  unfold CloudflareSession.get, CloudflareSession.is_cookie_expired. mrun. wsimpl.
  destruct (_ <? _); wsimpl; destruct (net w (S (ticks w)) url); reflexivity.
Qed.

Lemma confined_load_map_file (d : GameDataManager.t) (map_id : json) :
  confined own (GameDataManager.load_map_file d map_id).
Proof.
  apply confined_same. intros w. unfold GameDataManager.load_map_file. mrun.
  destruct (py_str map_id) as [id|]; wsimpl; [|reflexivity].
  destruct (map_files w !! GameDataManager.map_file_name id) as [[v|]|];
    reflexivity.
Qed.

Lemma confined_update_position (self : NostaleQuestBot.t) :
  confined own (NostaleQuestBot.update_position self).
Proof.
  apply confined_same. intros w. unfold NostaleQuestBot.update_position. mrun.
  wsimpl. destruct (client_player w (ticks w)); reflexivity.
Qed.

Hint Resolve confined_cache_get confined_cache_set confined_cf_get
  confined_load_map_file confined_update_position : confined.

Lemma confined_walk_to (self : NostaleQuestBot.t) (x y : json) :
  confined own (NostaleQuestBot.walk_to self x y).
Proof.
  unfold NostaleQuestBot.walk_to. apply confined_bind; [auto with confined|].
  intros _ w q Hq. destruct (client_walk w (ticks w)).
  - exact (confined_update_position self (tick w) q Hq).
  - reflexivity.
Qed.

Lemma confined_get_portal (d : GameDataManager.t) (current_map next_map : json) :
  confined own (GameDataManager.get_portal_to_next_map d current_map next_map).
Proof. unfold GameDataManager.get_portal_to_next_map. solve_confined. Qed.

Lemma confined_find_npc_on_map (d : GameDataManager.t) (map_id : json) (v : Z) :
  confined own (GameDataManager.find_npc_on_map d map_id v).
Proof. unfold GameDataManager.find_npc_on_map. solve_confined. Qed.

Lemma confined_get_pathfinding (d : GameDataManager.t) (from_map : option Z)
    (to_map : Z) :
  own (cache_path "pathfinding" (GameDataManager.path_cache_key from_map to_map)) ->
  confined own (GameDataManager.get_pathfinding d from_map to_map).
Proof.
  intros Hs.
  unfold GameDataManager.get_pathfinding, GameDataManager.fetch_path,
    GameDataManager.path_error, CloudflareSession.raise_for_status,
    CloudflareSession.response_json.
  solve_confined.
Qed.

Lemma confined_scan_npcs (d : GameDataManager.t) (map_id v : Z) (npcs : list json) :
  own (cache_path "npc_locations" (GameDataManager.npc_cache_key v)) ->
  confined own (GameDataManager.scan_npcs d map_id v npcs).
Proof.
  intros Hs. induction npcs as [|npc npcs IH]; cbn [GameDataManager.scan_npcs];
    solve_confined.
Qed.

Hint Resolve confined_walk_to confined_get_portal confined_get_pathfinding
  confined_scan_npcs : confined.

Lemma confined_scan_maps (d : GameDataManager.t) (v : Z) (ids : list Z) :
  own (cache_path "npc_locations" (GameDataManager.npc_cache_key v)) ->
  confined own (GameDataManager.scan_maps d v ids).
Proof.
  intros Hs. induction ids as [|i ids IH]; cbn [GameDataManager.scan_maps];
    solve_confined.
Qed.

Lemma confined_search (d : GameDataManager.t) (v : Z) :
  own (cache_path "npc_locations" (GameDataManager.npc_cache_key v)) ->
  confined own (GameDataManager.search_npc_location d v).
Proof.
  intros Hs. pose proof (confined_scan_maps d v GameDataManager.map_range Hs).
  unfold GameDataManager.search_npc_location. solve_confined.
Qed.

Lemma confined_arrival (self : NostaleQuestBot.t) (target_map : Z) :
  confined own (NostaleQuestBot.arrival self target_map).
Proof. unfold NostaleQuestBot.arrival. solve_confined. Qed.

Hint Resolve confined_arrival : confined.

Lemma confined_hops (again : NostaleQuestBot.t -> M (bool * NostaleQuestBot.t))
    (target_map : Z) (path : json) (indices : list nat) :
  (forall s, confined own (again s)) ->
  forall self, confined own (NostaleQuestBot.hops again self target_map path indices).
Proof.
  intros Hagain. induction indices as [|i rest IH]; intros self;
    cbn [NostaleQuestBot.hops]; [auto with confined|].
  solve_confined.
Qed.

Lemma confined_travel_to_map (fuel : nat) (self : NostaleQuestBot.t)
    (target_map : Z) :
  (forall from_map,
     own (cache_path "pathfinding"
          (GameDataManager.path_cache_key from_map target_map))) ->
  confined own (NostaleQuestBot.travel_to_map fuel self target_map).
Proof.
  intros Hs. revert self. induction fuel as [|fuel IH]; intros self;
    cbn [NostaleQuestBot.travel_to_map]; [auto with confined|].
  pose proof (fun p => confined_hops
                (fun s' => NostaleQuestBot.travel_to_map fuel s' target_map)
                target_map p) as Hhops.
  unfold NostaleQuestBot.follow_route. solve_confined.
Qed.

End Confined.

Lemma npc_cache_key_inj (v v' : Z) :
  GameDataManager.npc_cache_key v = GameDataManager.npc_cache_key v' -> v = v'.
Proof.
  unfold GameDataManager.npc_cache_key. intros H.
  apply (String.app_inj "npc_location_") in H. exact (pretty_Z_inj _ _ H).
Qed.

(** X16. A search for the entity [v] changes no cache file but the one of
    [v]: the entry of every other entity and every cached route read
    after the search as they did before. *)
Theorem search_keeps_other_entries (self : GameDataManager.t) (v v' : Z)
    (w : world) :
  v' <> v ->
  cached (cache_files (snd (GameDataManager.search_npc_location self v w)))
    "npc_locations" (GameDataManager.npc_cache_key v') =
  cached (cache_files w) "npc_locations" (GameDataManager.npc_cache_key v') /\
  (forall key,
     cached (cache_files (snd (GameDataManager.search_npc_location self v w)))
       "pathfinding" key =
     cached (cache_files w) "pathfinding" key) /\
  (forall q,
     q <> cache_path "npc_locations" (GameDataManager.npc_cache_key v) ->
     cache_files (snd (GameDataManager.search_npc_location self v w)) !! q =
     cache_files w !! q).
Proof.
  intros Hne.
  assert (forall q,
     q <> cache_path "npc_locations" (GameDataManager.npc_cache_key v) ->
     cache_files (snd (GameDataManager.search_npc_location self v w)) !! q =
     cache_files w !! q) as Hframe.
  { intros q Hq.
    apply (confined_search
             (fun p => p = cache_path "npc_locations" (GameDataManager.npc_cache_key v))
             self v eq_refl w q Hq). }
  split; [|split; [|exact Hframe]].
  - unfold cached. rewrite Hframe; [reflexivity|].
    intros [_ H]%cache_path_inj. apply npc_cache_key_inj in H. contradiction.
  - intros key. unfold cached. rewrite Hframe; [reflexivity|].
    intros [H _]%cache_path_inj. discriminate H.
Qed.

Lemma search_keeps_other_entries_witness :
  cached (cache_files (snd (GameDataManager.search_npc_location no_data 4013
                              scenario_world)))
    "npc_locations" (GameDataManager.npc_cache_key 12) =
  cached (cache_files scenario_world) "npc_locations"
    (GameDataManager.npc_cache_key 12).
Proof.
  apply (search_keeps_other_entries no_data 4013 12 scenario_world). lia.
Defined.

(** X17. [travel_to_map] changes no cache file but those of routes to its
    target: the location cache and the routes to other maps are after the
    call what they were before, however the call ends. *)
Theorem travel_keeps_other_entries (fuel : nat) (self : NostaleQuestBot.t)
    (target_map : Z) (w : world) :
  (forall key,
     cached (cache_files (snd (NostaleQuestBot.travel_to_map fuel self target_map w)))
       "npc_locations" key =
     cached (cache_files w) "npc_locations" key) /\
  (forall from_map to_map,
     to_map <> target_map ->
     cached (cache_files (snd (NostaleQuestBot.travel_to_map fuel self target_map w)))
       "pathfinding" (GameDataManager.path_cache_key from_map to_map) =
     cached (cache_files w) "pathfinding"
       (GameDataManager.path_cache_key from_map to_map)) /\
  (forall q,
     (forall from_map,
        q <> cache_path "pathfinding"
               (GameDataManager.path_cache_key from_map target_map)) ->
     cache_files (snd (NostaleQuestBot.travel_to_map fuel self target_map w)) !! q =
     cache_files w !! q).
Proof.
  assert (forall q,
     (forall from_map,
        q <> cache_path "pathfinding"
               (GameDataManager.path_cache_key from_map target_map)) ->
     cache_files (snd (NostaleQuestBot.travel_to_map fuel self target_map w)) !! q =
     cache_files w !! q) as Hframe.
  { intros q Hq.
    apply (confined_travel_to_map
             (fun p => exists from_map,
                p = cache_path "pathfinding"
                      (GameDataManager.path_cache_key from_map target_map))
             fuel self target_map).
    - intros from_map. exists from_map. reflexivity.
    - intros [from_map ->]. exact (Hq from_map eq_refl). }
  split; [|split; [|exact Hframe]].
  - intros key. unfold cached. rewrite Hframe; [reflexivity|].
    intros from_map [H _]%cache_path_inj. discriminate H.
  - intros from_map to_map Hne. unfold cached. rewrite Hframe; [reflexivity|].
    intros from_map' [_ H]%cache_path_inj.
    apply path_cache_key_inj in H as [_ H]. contradiction.
Qed.

Lemma travel_keeps_other_entries_witness :
  cached (cache_files (snd (NostaleQuestBot.travel_to_map 2 bot0 3 desync_world)))
    "pathfinding" (GameDataManager.path_cache_key (Some 1) 2) =
  cached (cache_files desync_world) "pathfinding"
    (GameDataManager.path_cache_key (Some 1) 2).
Proof.
  destruct (travel_keeps_other_entries 2 bot0 3 desync_world) as (_ & H & _).
  apply H. lia.
Defined.

(** ** More on the navigator *)

Lemma cache_reads_app (ty : string) (a b : list event) :
  cache_reads ty (a ++ b) = cache_reads ty a ++ cache_reads ty b.
Proof.
  induction a as [|e a IH]; [reflexivity|].
  destruct e; cbn [cache_reads app]; try exact IH.
  destruct (String.eqb cache_type ty); cbn [app]; rewrite IH; reflexivity.
Qed.

(** What a position update leaves in the trace: a poll, and the error line
    when the client raises. *)
Lemma update_position_eq (self : NostaleQuestBot.t) (w : world) :
  NostaleQuestBot.update_position self w =
  match client_player w (ticks w) with
  | Some p =>
      (Ret (NostaleQuestBot.Make (NostaleQuestBot.data self)
              (Some (po_current_map_id p)) (po_x p) (po_y p)),
       tick (emit EvPoll w))
  | None => (Ret self, emit (EvPrint MsgPositionError) (tick (emit EvPoll w)))
  end.
Proof.
  unfold NostaleQuestBot.update_position. mrun. wsimpl.
  destruct (client_player w (ticks w)); reflexivity.
Qed.

Lemma update_position_calls (self self1 : NostaleQuestBot.t) (w w1 : world) :
  NostaleQuestBot.update_position self w = (Ret self1, w1) ->
  walks (trace w1) = walks (trace w) /\
  http_calls (trace w1) = http_calls (trace w) /\
  map_loads (trace w1) = map_loads (trace w) /\
  (forall ty, cache_reads ty (trace w1) = cache_reads ty (trace w)) /\
  cache_files w1 = cache_files w /\
  NostaleQuestBot.data self1 = NostaleQuestBot.data self.
Proof.
  rewrite update_position_eq.
  destruct (client_player w (ticks w)); intros [= <- <-]; wsimpl;
    rewrite ?walks_app, ?http_calls_app, ?map_loads_app;
    cbn [walks http_calls map_loads]; rewrite ?app_nil_r;
    (repeat split; try reflexivity);
    intros ty; rewrite ?cache_reads_app; cbn [cache_reads];
    rewrite ?app_nil_r; reflexivity.
Qed.

(** X18. When the position update finds the bot on the target map,
    [travel_to_map] returns [True] at once: no walk command is sent, no
    route is looked up in the cache or asked from the routing site, and no
    map file is loaded. *)
Theorem already_at_destination (fuel : nat) (self self1 : NostaleQuestBot.t)
    (target_map : Z) (w w1 : world) (name : json) :
  NostaleQuestBot.update_position self w = (Ret self1, w1) ->
  NostaleQuestBot.on_map self1 (JNum target_map) = true ->
  GameDataManager.get_map_name (NostaleQuestBot.data self1) (JNum target_map) = Ok name ->
  exists w',
    NostaleQuestBot.travel_to_map (S fuel) self target_map w = (Ret (true, self1), w') /\
    walks (trace w') = walks (trace w) /\
    http_calls (trace w') = http_calls (trace w) /\
    map_loads (trace w') = map_loads (trace w) /\
    cache_reads "pathfinding" (trace w') = cache_reads "pathfinding" (trace w) /\
    cache_files w' = cache_files w.
Proof.
  intros Hpos Hon Hname.
  destruct (update_position_calls _ _ _ _ Hpos) as (Hw & Hh & Hm & Hc & Hf & _).
  cbn [NostaleQuestBot.travel_to_map]. rewrite (bind_eq _ _ _ _ _ Hpos), Hon, Hname.
  eexists. split; [reflexivity|]. wsimpl.
  rewrite walks_app, http_calls_app, map_loads_app, cache_reads_app.
  cbn [walks http_calls map_loads cache_reads]. rewrite !app_nil_r.
  rewrite Hw, Hh, Hm, Hc, Hf. auto.
Qed.

Lemma already_at_destination_witness :
  fst (NostaleQuestBot.travel_to_map 1 bot0 3 (standing_world 3)) =
  Ret (true, NostaleQuestBot.Make no_data (Some 3) 0 0).
Proof.
  pose proof (surjective_pairing
                (NostaleQuestBot.update_position bot0 (standing_world 3))) as H1.
  assert (fst (NostaleQuestBot.update_position bot0 (standing_world 3)) =
          Ret (NostaleQuestBot.Make no_data (Some 3) 0 0)) as Hf
    by (vm_compute; reflexivity).
  rewrite Hf in H1.
  destruct (already_at_destination 0 bot0 _ 3 (standing_world 3) _
              (JStr "Map 3") H1) as (w' & Hrun & _);
    [reflexivity | vm_compute; reflexivity |].
  rewrite Hrun. reflexivity.
Defined.

Lemma on_map_int (self : NostaleQuestBot.t) (m : Z) :
  NostaleQuestBot.on_map self (JNum m) = true ->
  NostaleQuestBot.current_map_id self = Some m.
Proof.
  unfold NostaleQuestBot.on_map.
  destruct (NostaleQuestBot.current_map_id self) as [n|]; cbn; [|discriminate].
  intros H%Z.eqb_eq. congruence.
Qed.

Lemma arrival_true (self self' : NostaleQuestBot.t) (target_map : Z)
    (w w' : world) :
  NostaleQuestBot.arrival self target_map w = (Ret (true, self'), w') ->
  NostaleQuestBot.current_map_id self' = Some target_map.
Proof.
  unfold NostaleQuestBot.arrival. intros H.
  apply bind_ret_inv in H as (s1 & w1 & _ & H).
  destruct (NostaleQuestBot.on_map s1 (JNum target_map)) eqn:Hon.
  - apply bind_ret_inv in H as (name & w2 & _ & H).
    apply bind_ret_inv in H as ([] & w3 & _ & H).
    injection H as <- _. apply on_map_int. exact Hon.
  - apply bind_ret_inv in H as ([] & w3 & _ & H). discriminate H.
Qed.

Lemma hops_true (again : NostaleQuestBot.t -> M (bool * NostaleQuestBot.t))
    (target_map : Z) (path : json) (indices : list nat) :
  (forall s w s' w', again s w = (Ret (true, s'), w') ->
                     NostaleQuestBot.current_map_id s' = Some target_map) ->
  forall self w self' w',
    NostaleQuestBot.hops again self target_map path indices w = (Ret (true, self'), w') ->
    NostaleQuestBot.current_map_id self' = Some target_map.
Proof.
  intros Hagain. induction indices as [|i rest IH]; intros self w self' w';
    cbn [NostaleQuestBot.hops].
  - apply arrival_true.
  - intros H.
    apply bind_ret_inv in H as (current & w1 & _ & H).
    apply bind_ret_inv in H as (next_map & w2 & _ & H).
    apply bind_ret_inv in H as (s1 & w3 & _ & H).
    destruct (negb (NostaleQuestBot.on_map s1 current)).
    + apply bind_ret_inv in H as ([] & w4 & _ & H). exact (Hagain _ _ _ _ H).
    + apply bind_ret_inv in H as (portal & w4 & _ & H).
      destruct portal as [[x y]|].
      * apply bind_ret_inv in H as (b & w5 & _ & H).
        apply bind_ret_inv in H as ([] & w6 & _ & H).
        apply bind_ret_inv in H as (s2 & w7 & _ & H).
        exact (IH _ _ _ _ H).
      * apply bind_ret_inv in H as (a & w5 & _ & H).
        apply bind_ret_inv in H as (b & w6 & _ & H).
        apply bind_ret_inv in H as ([] & w7 & _ & H). discriminate H.
Qed.

(** X19. [travel_to_map] returns [True] only with the bot on the target
    map: whenever a call ends with [True], the map of the position it
    leaves is the target. *)
Theorem success_means_arrived (fuel : nat) (self self' : NostaleQuestBot.t)
    (target_map : Z) (w w' : world) :
  NostaleQuestBot.travel_to_map fuel self target_map w = (Ret (true, self'), w') ->
  NostaleQuestBot.current_map_id self' = Some target_map.
Proof.
  revert self self' w w'. induction fuel as [|fuel IH]; intros self self' w w';
    cbn [NostaleQuestBot.travel_to_map]; [discriminate|].
  intros H. apply bind_ret_inv in H as (s1 & w1 & _ & H).
  destruct (NostaleQuestBot.on_map s1 (JNum target_map)) eqn:Hon.
  - apply bind_ret_inv in H as (name & w2 & _ & H).
    apply bind_ret_inv in H as ([] & w3 & _ & H).
    injection H as <- _. apply on_map_int. exact Hon.
  - apply bind_ret_inv in H as (path & w2 & _ & H).
    unfold NostaleQuestBot.follow_route in H.
    apply bind_ret_inv in H as (short & w3 & _ & H). destruct short.
    + apply bind_ret_inv in H as (name & w4 & _ & H).
      apply bind_ret_inv in H as ([] & w5 & _ & H). discriminate H.
    + apply bind_ret_inv in H as (stops & w4 & _ & H).
      apply bind_ret_inv in H as (names & w5 & _ & H).
      apply bind_ret_inv in H as (line & w6 & _ & H).
      apply bind_ret_inv in H as ([] & w7 & _ & H).
      apply bind_ret_inv in H as (n & w8 & _ & H).
      apply (hops_true _ target_map path _ (fun s w s' w' => IH s s' w w')) in H.
      exact H.
Qed.

Lemma success_means_arrived_witness :
  exists self',
    fst (NostaleQuestBot.travel_to_map 2 bot0 3 desync_world) = Ret (true, self') /\
    NostaleQuestBot.current_map_id self' = Some 3.
Proof.
  pose proof (surjective_pairing
                (NostaleQuestBot.travel_to_map 2 bot0 3 desync_world)) as H.
  assert (fst (NostaleQuestBot.travel_to_map 2 bot0 3 desync_world) =
          Ret (true, NostaleQuestBot.Make no_data (Some 3) 0 0)) as Hf
    by (vm_compute; reflexivity).
  rewrite Hf in H. eexists. split; [exact Hf|].
  exact (success_means_arrived 2 bot0 _ 3 desync_world _ H).
Defined.

(** X20. When the bot stands on the hop expected and the map of the hop
    has no portal to the next one, the travel ends there with [False]:
    the rest of the route is not visited and no walk command is sent for
    the hop. *)
Theorem missing_portal_stops (again : NostaleQuestBot.t -> M (bool * NostaleQuestBot.t))
    (self self1 : NostaleQuestBot.t) (target_map : Z)
    (path current next_map a b : json) (i : nat) (rest : list nat)
    (w w1 w2 : world) :
  getindex path i = Ok current ->
  getindex path (i + 1) = Ok next_map ->
  NostaleQuestBot.update_position self w = (Ret self1, w1) ->
  NostaleQuestBot.on_map self1 current = true ->
  GameDataManager.get_portal_to_next_map (NostaleQuestBot.data self1)
    current next_map w1 = (Ret None, w2) ->
  GameDataManager.get_map_name (NostaleQuestBot.data self1) current = Ok a ->
  GameDataManager.get_map_name (NostaleQuestBot.data self1) next_map = Ok b ->
  NostaleQuestBot.hops again self target_map path (i :: rest) w =
    (Ret (false, self1), emit (EvPrint (MsgNoPortal a b)) w2) /\
  walks (trace (emit (EvPrint (MsgNoPortal a b)) w2)) = walks (trace w).
Proof.
  intros Hcur Hnext Hpos Hon Hportal Ha Hb. split.
  - cbn [NostaleQuestBot.hops]. rewrite Hcur, Hnext. cbn [lift].
    unfold bind at 1. cbn [ret]. unfold bind at 1. cbn [ret].
    rewrite (bind_eq _ _ _ _ _ Hpos), Hon. cbn [negb].
    rewrite (bind_eq _ _ _ _ _ Hportal), Ha, Hb. reflexivity.
  - wsimpl. rewrite walks_app. cbn [walks]. rewrite app_nil_r.
    pose proof (adds_quiet_walks _ w1
                  (adds_get_portal quiet (fun e H => H)
                     (NostaleQuestBot.data self1) current next_map)) as H2.
    rewrite Hportal in H2. cbn [snd] in H2.
    destruct (update_position_calls _ _ _ _ Hpos) as (H1 & _). congruence.
Qed.

Lemma missing_portal_stops_witness :
  fst (NostaleQuestBot.hops (fun s => NostaleQuestBot.travel_to_map 1 s 3)
         bot0 3 route_1_2_3 [0; 1]%nat (standing_world 1)) =
  Ret (false, NostaleQuestBot.Make no_data (Some 1) 0 0).
Proof.
  pose (w := standing_world 1).
  pose (self1 := NostaleQuestBot.Make no_data (Some 1) 0 0).
  assert (fst (NostaleQuestBot.update_position bot0 w) = Ret self1) as Hf1
    by (vm_compute; reflexivity).
  pose proof (surjective_pairing (NostaleQuestBot.update_position bot0 w)) as H1.
  rewrite Hf1 in H1.
  assert (fst (GameDataManager.get_portal_to_next_map no_data (JNum 1) (JNum 2)
                 (snd (NostaleQuestBot.update_position bot0 w))) = Ret None)
    as Hf2 by (vm_compute; reflexivity).
  pose proof (surjective_pairing
                (GameDataManager.get_portal_to_next_map no_data (JNum 1) (JNum 2)
                   (snd (NostaleQuestBot.update_position bot0 w)))) as H2.
  rewrite Hf2 in H2.
  destruct (missing_portal_stops (fun s => NostaleQuestBot.travel_to_map 1 s 3)
              bot0 self1 3 route_1_2_3 (JNum 1) (JNum 2) (JStr "Map 1")
              (JStr "Map 2") 0 [1%nat] w _ _ eq_refl eq_refl H1 eq_refl H2)
    as [Hrun _]; [vm_compute; reflexivity ..|].
  fold w. rewrite Hrun. reflexivity.
Defined.

Lemma update_position_some (self : NostaleQuestBot.t) (w : world) (p : player_obj) :
  client_player w (ticks w) = Some p ->
  NostaleQuestBot.update_position self w =
  (Ret (NostaleQuestBot.Make (NostaleQuestBot.data self)
          (Some (po_current_map_id p)) (po_x p) (po_y p)),
   tick (emit EvPoll w)).
Proof. intros H. rewrite update_position_eq, H. reflexivity. Qed.

Lemma load_map_file_truthy (d : GameDataManager.t) (m : Z) (w : world) :
  truthy (map_document w m) = true ->
  GameDataManager.load_map_file d (JNum m) w =
  (Ret (map_document w m), emit (EvLoadMap (JNum m)) w).
Proof.
  unfold GameDataManager.load_map_file, map_document. cbn [py_str]. mrun. wsimpl.
  destruct (map_files w !! GameDataManager.map_file_name (pretty m)) as [[v|]|];
    [reflexivity | discriminate | discriminate].
Qed.

Lemma get_portal_found_eq (d : GameDataManager.t) (m : Z) (next_map : json)
    (w : world) (before after : list json) (p x y : json) :
  truthy (map_document w m) = true ->
  get_default (map_document w m) "portals" (JArr []) =
    Ok (JArr (before ++ p :: after)) ->
  Forall (leads_to next_map false) before ->
  leads_to next_map true p ->
  getitem p "source_map_x" = Ok x ->
  getitem p "source_map_y" = Ok y ->
  GameDataManager.get_portal_to_next_map d (JNum m) next_map w =
  (Ret (Some (x, y)), emit (EvLoadMap (JNum m)) w).
Proof.
  intros Ht Hp Hb Hlead Hx Hy. unfold GameDataManager.get_portal_to_next_map.
  rewrite (bind_eq _ _ _ _ _ (load_map_file_truthy d m w Ht)).
  rewrite Ht. cbn [negb]. rewrite Hp. mrun. cbn [py_iter].
  rewrite (find_portal_first next_map before after p x y Hb Hlead Hx Hy).
  reflexivity.
Qed.

Lemma walk_to_eq (self : NostaleQuestBot.t) (x y : json) (w : world)
    (p : player_obj) :
  client_walk w (ticks w) = true ->
  client_player w (S (ticks w)) = Some p ->
  NostaleQuestBot.walk_to self x y w =
  (Ret (NostaleQuestBot.Make (NostaleQuestBot.data self)
          (Some (po_current_map_id p)) (po_x p) (po_y p)),
   tick (emit EvPoll (tick (emit (EvWalk x y) w)))).
Proof.
  intros Hw Hp. unfold NostaleQuestBot.walk_to. mrun. wsimpl. rewrite Hw.
  rewrite update_position_eq. wsimpl. rewrite Hp. reflexivity.
Qed.

Lemma arrival_eq (self : NostaleQuestBot.t) (target_map : Z) (w : world)
    (p : player_obj) (name : json) :
  client_player w (ticks w) = Some p ->
  po_current_map_id p = target_map ->
  GameDataManager.get_map_name (NostaleQuestBot.data self) (JNum target_map) = Ok name ->
  NostaleQuestBot.arrival self target_map w =
  (Ret (true, NostaleQuestBot.Make (NostaleQuestBot.data self)
                (Some target_map) (po_x p) (po_y p)),
   emit (EvPrint (MsgArrived name)) (tick (emit EvPoll w))).
Proof.
  intros Hp Hm Hn. unfold NostaleQuestBot.arrival.
  rewrite (bind_eq _ _ _ _ _ (update_position_some self w p Hp)).
  unfold NostaleQuestBot.on_map.
  cbn [NostaleQuestBot.current_map_id NostaleQuestBot.data of_opt_int py_eq].
  rewrite Hm, Z.eqb_refl, Hn. reflexivity.
Qed.

(** X22. One hop that works: with the bot on map [a], the route [a],
    [target] in the cache, a portal to the target on map [a] and a client
    that reports the target after the walk, [travel_to_map] returns
    [True] after one walk command, sent to the source coordinates of the
    first such portal, one load of the file of map [a] and no request to
    the routing site. *)
Theorem one_hop_arrives (fuel : nat) (self : NostaleQuestBot.t)
    (target_map a : Z) (na nb : string) (before after : list json)
    (p x y : json) (p0 p1 p3 p4 : player_obj) (w : world) :
  a <> target_map ->
  cache_files w !! cache_path "pathfinding"
                     (GameDataManager.path_cache_key (Some a) target_map) =
    Some (Doc (GameDataManager.route_record (Some a) target_map
                 (JArr [JNum a; JNum target_map]))) ->
  GameDataManager.get_map_name (NostaleQuestBot.data self) (JNum a) = Ok (JStr na) ->
  GameDataManager.get_map_name (NostaleQuestBot.data self) (JNum target_map) =
    Ok (JStr nb) ->
  truthy (map_document w a) = true ->
  get_default (map_document w a) "portals" (JArr []) =
    Ok (JArr (before ++ p :: after)) ->
  Forall (leads_to (JNum target_map) false) before ->
  leads_to (JNum target_map) true p ->
  getitem p "source_map_x" = Ok x ->
  getitem p "source_map_y" = Ok y ->
  client_player w (ticks w) = Some p0 -> po_current_map_id p0 = a ->
  client_player w (1 + ticks w)%nat = Some p1 -> po_current_map_id p1 = a ->
  client_walk w (2 + ticks w)%nat = true ->
  client_player w (3 + ticks w)%nat = Some p3 ->
  client_player w (4 + ticks w)%nat = Some p4 -> po_current_map_id p4 = target_map ->
  exists w',
    NostaleQuestBot.travel_to_map (S fuel) self target_map w =
      (Ret (true, NostaleQuestBot.Make (NostaleQuestBot.data self)
                    (Some target_map) (po_x p4) (po_y p4)), w') /\
    walks (trace w') = walks (trace w) ++ [(x, y)] /\
    map_loads (trace w') = map_loads (trace w) ++ [JNum a] /\
    http_calls (trace w') = http_calls (trace w).
Proof.
  intros Hne Hcache Hna Hnb Ht Hp Hb Hlead Hx Hy Hc0 Hm0 Hc1 Hm1 Hwalk Hc3 Hc4 Hm4.
  assert ((a =? target_map) = false) as Hat by (apply Z.eqb_neq; exact Hne).
  cbn [NostaleQuestBot.travel_to_map].
  rewrite (bind_eq _ _ _ _ _ (update_position_some self w p0 Hc0)).
  unfold NostaleQuestBot.on_map at 1.
  cbn [NostaleQuestBot.current_map_id NostaleQuestBot.data of_opt_int py_eq].
  rewrite Hm0, Hat.
  rewrite (bind_eq _ _ _ _ _
             (get_pathfinding_hit_eq _ (Some a) target_map (tick (emit EvPoll w)) _
                (JArr [JNum a; JNum target_map]) Hcache eq_refl eq_refl)).
  unfold NostaleQuestBot.follow_route.
  cbn [NostaleQuestBot.no_route truthy negb py_len length Nat.ltb Nat.leb rbind lift
       py_iter NostaleQuestBot.data].
  mrun. cbn [NostaleQuestBot.map_names]. rewrite Hna, Hnb.
  cbn [rbind NostaleQuestBot.join_names].
  cbn [length Nat.sub seq NostaleQuestBot.hops getindex nth_error Nat.add].
  set (w3 := emit (EvPrint (MsgRoute [na; nb])) _).
  cbn [lift]. unfold bind at 1. cbn [ret]. unfold bind at 1. cbn [ret].
  rewrite (bind_eq _ _ _ _ _ (update_position_some _ w3 p1 Hc1)).
  unfold NostaleQuestBot.on_map at 1.
  cbn [NostaleQuestBot.current_map_id NostaleQuestBot.data of_opt_int py_eq].
  rewrite Hm1, Z.eqb_refl. cbn [negb].
  set (w4 := tick (emit EvPoll w3)).
  rewrite (bind_eq _ _ _ _ _
             (get_portal_found_eq _ a (JNum target_map) w4 before after p x y
                Ht Hp Hb Hlead Hx Hy)).
  rewrite Hnb. cbn [lift]. unfold bind at 1. cbn [ret].
  unfold bind at 1, print, log.
  set (w5 := emit (EvPrint _) (emit (EvLoadMap _) w4)).
  rewrite (bind_eq _ _ _ _ _ (walk_to_eq _ x y w5 p3 Hwalk Hc3)).
  cbn [NostaleQuestBot.hops].
  set (w6 := tick (emit EvPoll (tick (emit (EvWalk x y) w5)))).
  lazymatch goal with
  | |- context [NostaleQuestBot.arrival ?s _ _] =>
      rewrite (arrival_eq s target_map w6 p4 (JStr nb) Hc4 Hm4 Hnb)
  end.
  eexists. split; [reflexivity|].
  subst w6 w5 w4 w3. wsimpl.
  rewrite !walks_app, !map_loads_app, !http_calls_app.
  cbn [walks map_loads http_calls]. rewrite !app_nil_r. auto.
Qed.

Lemma one_hop_arrives_witness :
  exists w',
    NostaleQuestBot.travel_to_map 1 bot0 2 one_hop_world =
      (Ret (true, NostaleQuestBot.Make no_data (Some 2) 0 0), w') /\
    walks (trace w') = [(JNum 10, JNum 20)].
Proof.
  destruct (one_hop_arrives 0 bot0 2 1 "Map 1" "Map 2"
              [JObj [("destination_map_id", JNum 5);
                     ("source_map_x", JNum 9); ("source_map_y", JNum 9)]]
              [JObj [("destination_map_id", JNum 2);
                     ("source_map_x", JNum 30); ("source_map_y", JNum 40)]]
              (JObj [("destination_map_id", JNum 2);
                     ("source_map_x", JNum 10); ("source_map_y", JNum 20)])
              (JNum 10) (JNum 20)
              (PlayerObj 1 0 0) (PlayerObj 1 0 0) (PlayerObj 2 0 0) (PlayerObj 2 0 0)
              one_hop_world)
    as (w' & Hrun & Hwalks & _);
    [ first [ lia | reflexivity
            | repeat constructor; eexists; split; reflexivity ] .. |].
  exists w'. split; [exact Hrun | exact Hwalks].
Defined.

(** ** The session *)




(** ** When a save fails *)

(** X24. A save that fails is reported and not raised.  For a cache type
    and a key that name a folder and a file in it, when the disk does not
    take the save, [set] returns after printing the error line.  A file
    that could not be opened is left as it was, so [get] answers as before
    the [set]; a file whose write broke off exists and reads as [None]. *)
Theorem failed_save_reported (cache_type key : string) (v : json) (w : world) :
  entry_names cache_type key = true ->
  disk_save w (ticks w) (cache_path cache_type key) <> Saved ->
  let w' := snd (CacheManager.set cache_type key v w) in
  fst (CacheManager.set cache_type key v w) = Ret tt /\
  trace w' =
    trace w ++ [EvCacheWrite cache_type key v; EvPrint MsgCacheSaveError] /\
  (disk_save w (ticks w) (cache_path cache_type key) = NotOpened ->
   cache_files w' = cache_files w /\
   fst (CacheManager.get cache_type key w') = fst (CacheManager.get cache_type key w)) /\
  (disk_save w (ticks w) (cache_path cache_type key) = Interrupted ->
   fst (CacheManager.get cache_type key w') = Ret JNull /\
   fst (CacheManager.exists_ cache_type key w') = Ret true).
Proof.
  intros [Hty Hkey]%entry_names_plain Hs w'. subst w'.
  rewrite (set_eq _ _ _ _ Hty Hkey). cbv zeta. cbn [fst snd].
  rewrite !(get_eq _ _ _ Hty Hkey), (exists_eq _ _ _ Hty Hkey). cbn [fst].
  destruct (disk_save w (ticks w) (cache_path cache_type key));
    [destruct Hs; reflexivity | |]; wsimpl; rewrite <- app_assoc;
    (split; [reflexivity|]); (split; [reflexivity|]);
    (split; intros H; [|]); try discriminate H.
  - split; reflexivity.
  - unfold cached. rewrite lookup_insert_eq. split; reflexivity.
Qed.

Lemma failed_save_reported_witness :
  fst (CacheManager.get "pathfinding" "1_to_3"
         (snd (CacheManager.set "pathfinding" "1_to_3" (JNum 5)
                 (no_save desync_world)))) =
  Ret (GameDataManager.route_record (Some 1) 3 route_1_2_3).
Proof.
  destruct (failed_save_reported "pathfinding" "1_to_3" (JNum 5)
              (no_save desync_world)) as (_ & _ & H & _);
    [reflexivity | discriminate |].
  destruct (H eq_refl) as [_ Hget]. rewrite Hget. vm_compute. reflexivity.
Defined.

Lemma location_save_failed (v : Z) (record : json) (w : world) :
  disk_save w (ticks w)
    (cache_path "npc_locations" (GameDataManager.npc_cache_key v)) <> Saved ->
  let w' := snd (CacheManager.set "npc_locations"
                   (GameDataManager.npc_cache_key v) record w) in
  map_files w' = map_files w /\
  trace w' =
    trace w
    ++ [EvCacheWrite "npc_locations" (GameDataManager.npc_cache_key v) record;
        EvPrint MsgCacheSaveError].
Proof.
  intros Hs w'. subst w'. rewrite set_location_eq. cbv zeta. cbn [snd].
  destruct (disk_save w (ticks w)
              (cache_path "npc_locations" (GameDataManager.npc_cache_key v)));
    [destruct Hs; reflexivity | |]; wsimpl; rewrite <- app_assoc; auto.
Qed.

(** X25. A location that could not be saved is searched for again.  When
    [search_npc_location] finds the entity on map [m] and the disk does
    not take the save, [m] is returned all the same, right after the
    error line of the save; the next call finds no usable entry, loads the
    maps 1 to [m] again and returns [m] again. *)
Theorem unsaved_location_rescans (self : GameDataManager.t) (v m : Z)
    (x y name : json) (w : world) :
  truthy (cached (cache_files w) "npc_locations"
            (GameDataManager.npc_cache_key v)) = false ->
  1 <= m <= 412 ->
  (forall i, 1 <= i < m -> lacks_npc v (map_document w i)) ->
  first_npc_at v (map_document w m) x y ->
  GameDataManager.get_map_name self (JNum m) = Ok name ->
  disk_save w (ticks w)
    (cache_path "npc_locations" (GameDataManager.npc_cache_key v)) <> Saved ->
  exists w' w'',
    GameDataManager.search_npc_location self v w = (Ret (JNum m), w') /\
    (exists t, trace w' = t ++ [EvPrint MsgCacheSaveError]) /\
    GameDataManager.search_npc_location self v w' = (Ret (JNum m), w'') /\
    map_loads (trace w'') = map_loads (trace w') ++ (JNum <$> seqZ 1 m).
Proof.
  intros Hmiss Hm Hbefore Hfirst Hname Hs.
  destruct (search_found_run self v m x y name w Hmiss Hm Hbefore Hfirst Hname)
    as (w1 & Hrun & (Hc & Hmf & _) & Hticks & Hdisk).
  set (w0 := emit (EvPrint (MsgNpcFound v m name)) w1) in *.
  assert (disk_save w0 (ticks w0)
            (cache_path "npc_locations" (GameDataManager.npc_cache_key v)) <> Saved)
    as Hs0 by (subst w0; wsimpl; rewrite Hdisk, Hticks; exact Hs).
  destruct (location_save_after v (GameDataManager.location_record m v x y) w0)
    as (_ & _ & Hfailed).
  destruct (location_save_failed v (GameDataManager.location_record m v x y) w0 Hs0)
    as (Hmf' & Htrace).
  set (w' := snd (CacheManager.set "npc_locations" (GameDataManager.npc_cache_key v)
                    (GameDataManager.location_record m v x y) w0)) in *.
  assert (forall i, map_document w' i = map_document w i) as Hdoc.
  { intros i. unfold map_document. rewrite Hmf'. subst w0. wsimpl.
    rewrite Hmf. reflexivity. }
  assert (truthy (cached (cache_files w') "npc_locations"
                    (GameDataManager.npc_cache_key v)) = false) as Hmiss'.
  { apply (Hfailed Hs0). subst w0. wsimpl. rewrite Hc. exact Hmiss. }
  destruct (search_found_run self v m x y name w' Hmiss' Hm)
    as (w2 & Hrun' & (_ & _ & Hloads) & _).
  { intros i Hi. rewrite Hdoc. exact (Hbefore i Hi). }
  { rewrite Hdoc. exact Hfirst. }
  { exact Hname. }
  eexists w', _. split; [exact Hrun|]. split.
  - exists (trace w0
            ++ [EvCacheWrite "npc_locations" (GameDataManager.npc_cache_key v)
                  (GameDataManager.location_record m v x y)]).
    rewrite Htrace, <- app_assoc. reflexivity.
  - split; [exact Hrun'|].
    destruct (location_save_after v (GameDataManager.location_record m v x y)
                (emit (EvPrint (MsgNpcFound v m name)) w2)) as (Hl & _).
    cbn [snd]. rewrite Hl. wsimpl. rewrite map_loads_app. cbn [map_loads].
    rewrite app_nil_r. exact Hloads.
Qed.

Lemma unsaved_location_rescans_witness :
  exists w' w'',
    GameDataManager.search_npc_location no_data 4013 (no_save scenario_world) =
      (Ret (JNum 20), w') /\
    GameDataManager.search_npc_location no_data 4013 w' = (Ret (JNum 20), w'') /\
    map_loads (trace w'') = map_loads (trace w') ++ (JNum <$> seqZ 1 20).
Proof.
  destruct (unsaved_location_rescans no_data 4013 20 (JNum 45) (JNum 60)
              (JStr "Map 20") (no_save scenario_world))
    as (w' & w'' & Hrun & _ & Hrun' & Hloads).
  - reflexivity.
  - lia.
  - intros i Hi. assert (In i (seqZ 1 19)) as H
      by (apply list_elem_of_In, elem_of_seqZ; lia).
    vm_compute in H.
    repeat (destruct H as [<- | H];
            [first [ left; vm_compute; reflexivity
                   | right; eexists; split;
                     [vm_compute; reflexivity
                     | repeat constructor; eexists; split; reflexivity ] ] |]).
    destruct H.
  - split; [vm_compute; reflexivity|].
    exists [JObj [("vnum", JNum 12); ("x", JNum 3); ("y", JNum 4)]],
           (JObj [("vnum", JNum 4013); ("x", JNum 45); ("y", JNum 60)]), [].
    split; [vm_compute; reflexivity|].
    split; [repeat constructor; eexists; split; reflexivity|].
    split; [eexists; split; reflexivity|]. split; reflexivity.
  - vm_compute. reflexivity.
  - discriminate.
  - exists w', w''. auto.
Defined.

(** X26. A route that could not be saved is asked for again.  When
    nothing usable is cached, the routing site answers with an object and
    no error status, and the disk does not take the save,
    [get_pathfinding] returns the ["path"] of the answer all the same;
    it prints the error line of the save and then the line that reports
    the route as cached; no usable entry is left, and the next call for
    the pair asks the site again. *)
Theorem unsaved_route_requested_again (self : GameDataManager.t)
    (from_map : option Z) (to_map : Z) (w : world) (c : Z) (body path : json) :
  truthy (cached (cache_files w) "pathfinding"
            (GameDataManager.path_cache_key from_map to_map)) = false ->
  reply_at w (GameDataManager.path_url from_map to_map) = Response c (Some body) ->
  ~ 400 <= c < 600 ->
  get_default body "path" (JArr []) = Ok path ->
  route_save w from_map to_map <> Saved ->
  exists w',
    GameDataManager.get_pathfinding self from_map to_map w = (Ret path, w') /\
    (exists t,
       trace w' = t ++ [EvPrint MsgCacheSaveError; EvPrint MsgPathFetched]) /\
    truthy (cached (cache_files w') "pathfinding"
              (GameDataManager.path_cache_key from_map to_map)) = false /\
    http_calls (trace (snd (GameDataManager.get_pathfinding self from_map to_map w'))) =
    http_calls (trace w') ++ [GameDataManager.path_url from_map to_map].
Proof.
  intros Hmiss Hreply Hc Hpath Hsave.
  destruct (fetch_eq self from_map to_map w c body path Hmiss Hreply Hc Hpath)
    as (w1 & Hrun & Hfiles1 & _ & Hticks1 & Hdisk1).
  unfold route_save in Hsave.
  assert (exists w',
    GameDataManager.get_pathfinding self from_map to_map w = (Ret path, w') /\
    (exists t,
       trace w' = t ++ [EvPrint MsgCacheSaveError; EvPrint MsgPathFetched]) /\
    truthy (cached (cache_files w') "pathfinding"
              (GameDataManager.path_cache_key from_map to_map)) = false)
    as (w' & Hrun' & Htrace & Hmiss').
  { eexists. split; [exact Hrun|]. rewrite set_route_eq. cbv zeta.
    rewrite Hdisk1, Hticks1.
    destruct (disk_save w (S (S (ticks w)))
                (cache_path "pathfinding"
                   (GameDataManager.path_cache_key from_map to_map)));
      [destruct Hsave; reflexivity | |]; wsimpl.
    - split; [|rewrite Hfiles1; exact Hmiss].
      exists (trace w1
              ++ [EvCacheWrite "pathfinding"
                    (GameDataManager.path_cache_key from_map to_map)
                    (GameDataManager.route_record from_map to_map path)]).
      rewrite <- !app_assoc. reflexivity.
    - split; [|unfold cached; rewrite lookup_insert_eq; reflexivity].
      exists (trace w1
              ++ [EvCacheWrite "pathfinding"
                    (GameDataManager.path_cache_key from_map to_map)
                    (GameDataManager.route_record from_map to_map path)]).
      rewrite <- !app_assoc. reflexivity. }
  exists w'. split; [exact Hrun'|]. split; [exact Htrace|].
  split; [exact Hmiss'|]. apply miss_requests. exact Hmiss'.
Qed.

Lemma unsaved_route_requested_again_witness :
  exists w',
    GameDataManager.get_pathfinding no_data (Some 1) 3 (no_save routing_world) =
      (Ret route_1_2_3, w') /\
    http_calls (trace (snd (GameDataManager.get_pathfinding no_data (Some 1) 3 w'))) =
    http_calls (trace w') ++ [GameDataManager.path_url (Some 1) 3].
Proof.
  destruct (unsaved_route_requested_again no_data (Some 1) 3
              (no_save routing_world) 200
              (JObj [("path", route_1_2_3)]) route_1_2_3)
    as (w' & Hrun & _ & _ & Hcalls);
    [reflexivity | reflexivity | lia | reflexivity | discriminate |].
  exists w'. split; [exact Hrun | exact Hcalls].
Defined.
